(** * nilmtk-contrib: the sequence-to-point RNN disaggregator

    A shallow embedding of [nilmtk_contrib/torch/rnn_new.py] and the
    properties of its windowing, statistics, training loop and inference
    path.

    Conventions of the embedding:
    - Python integers are [Z]; [//] is [Z.div] and [%] is [Z.modulo]
      (both round towards minus infinity for a positive divisor, as Python
      does).
    - NumPy floating-point values are IEEE 754 numbers, modelled by the
      Standard Library's executable specification [spec_float]: the frames
      of readings are binary64 (precision 53, maximal exponent 1024), the
      predictions of a network binary32 (precision 24, maximal exponent
      128).
    - A pandas [DataFrame] is the list of its rows, each row the list of its
      values; the frames this module builds from NumPy arrays carry default
      integer labels, so labels are not modelled.
    - Exceptions are values of [exn]; a method of the estimator is a
      function from the state before the call to an outcome and the state
      after it (an exception leaves the mutations made before it). *)

From Stdlib Require Import ZArith QArith Qabs Qpower Lqa SpecFloat Ascii String.
From stdpp Require Import gmap strings list pretty.

Set Default Proof Using "Type".
Local Open Scope Z_scope.

(** ** Binary64 arithmetic *)

Module F64.
Definition prec : Z := 53.
Definition emax : Z := 1024.

Definition add := SFadd prec emax.
Definition sub := SFsub prec emax.
Definition mul := SFmul prec emax.
Definition div := SFdiv prec emax.
Definition sqrt := SFsqrt prec emax.
Definition ltb := SFltb.
Definition leb := SFleb.

(** The binary64 value of a Python integer. *)
Definition of_Z (z : Z) : spec_float := binary_normalize prec emax z 0 false.

Definition zero : spec_float := S754_zero false.
Definition inf : spec_float := S754_infinity false.
Definition nan : spec_float := S754_nan.

Definition is_finite (x : spec_float) : bool :=
  match x with
  | S754_zero _ | S754_finite _ _ _ => true
  | _ => false
  end.

(** The binary64 number equal to a binary32 one. *)
Definition of_float32 (x : spec_float) : spec_float :=
  match x with
  | S754_finite s m e => binary_round prec emax s m e
  | _ => x
  end.
End F64.

(** ** Binary32 arithmetic *)

Module F32.
Definition prec : Z := 24.
Definition emax : Z := 128.

Definition add := SFadd prec emax.
Definition mul := SFmul prec emax.
End F32.

Abbreviation float64 := spec_float.

(** ** Exceptions *)

Inductive exn : Type :=
  | SequenceLengthError
  | ApplianceNotFoundError
  | ValueError
  | KeyError
  | RuntimeError
  | ZeroDivisionError.

Inductive result (A : Type) : Type :=
  | Ok (a : A)
  | Raise (e : exn).
Arguments Ok {A} a.
Arguments Raise {A} e.

#[export] Instance result_ret : MRet result := fun _ a => Ok a.
#[export] Instance result_bind : MBind result := fun _ _ k r =>
  match r with
  | Ok a => k a
  | Raise e => Raise e
  end.

(** ** The Python and NumPy primitives the module calls *)

(** [range(k)]: the integers from 0 up to [k - 1], empty when [k <= 0]. *)
Definition py_range (k : Z) : list Z := seqZ 0 k.

(** A slice bound is clamped into [0..len]; a negative bound counts from the
    end. *)
Definition py_bound (len i : Z) : Z :=
  if i <? 0 then Z.max 0 (len + i) else Z.min i len.

(** [a[lo:hi]]. *)
Definition py_slice {A} (a : list A) (lo hi : Z) : list A :=
  let len := Z.of_nat (length a) in
  let l := py_bound len lo in
  let h := py_bound len hi in
  take (Z.to_nat (h - l)) (drop (Z.to_nat l) a).

(** [np.pad(a, (p, p), 'constant', constant_values=(0, 0))]; NumPy refuses a
    negative pad width. *)
Definition np_pad {A} (zero : A) (a : list A) (p : Z) : result (list A) :=
  if p <? 0 then Raise ValueError
  else Ok (replicate (Z.to_nat p) zero ++ a ++ replicate (Z.to_nat p) zero).

(** ** Normalization, generic in the array's element type

    NumPy arithmetic is generic in the dtype of the array.  The pipeline runs
    it at binary64; the rationals give the same formulas in exact
    arithmetic. *)

Class Dtype (num : Type) : Type := {
  d_add : num -> num -> num;
  d_sub : num -> num -> num;
  d_mul : num -> num -> num;
  d_div : num -> num -> num
}.

#[export] Instance float64_dtype : Dtype float64 :=
  {| d_add := F64.add; d_sub := F64.sub; d_mul := F64.mul; d_div := F64.div |}.

#[export] Instance Q_dtype : Dtype Q :=
  {| d_add := Qplus; d_sub := Qminus; d_mul := Qmult; d_div := Qdiv |}.

Section Normalization.
Context {num : Type} `{Dtype num}.

(** [(x - mean) / std] (call_preprocessing, for mains windows and for
    appliance readings). *)
Definition normalize (x mean std : num) : num :=
  d_div (d_sub x mean) std.

(** [mean + prediction * std] (disaggregate_chunk). *)
Definition denormalize (prediction mean std : num) : num :=
  d_add mean (d_mul prediction std).
End Normalization.

(** ** Windowing (call_preprocessing, both methods) *)

(** [[new_mains[i:i + n] for i in range(len(new_mains) - n + 1)]] *)
Definition sliding_windows {A} (padded : list A) (n : Z) : list (list A) :=
  (fun i => py_slice padded i (i + n)) <$> py_range (Z.of_nat (length padded) - n + 1).

(** The windows of one flattened mains chunk, before normalization. *)
Definition window_chunk {A} (zero : A) (n : Z) (new_mains : list A)
  : result (list (list A)) :=
  let units_to_pad := n / 2 in
  padded ← np_pad zero new_mains units_to_pad;
  Ok (sliding_windows padded n).

(** A frame is the list of its rows. *)
Abbreviation frame := (list (list float64)).

(** [mains.values.flatten()] *)
Definition values_flatten (df : frame) : list float64 := concat df.

(** One iteration of the loop over mains chunks: pad, slice, normalize. *)
Definition preprocess_mains (n : Z) (mains_mean mains_std : float64)
    (mains : frame) : result frame :=
  ws ← window_chunk F64.zero n (values_flatten mains);
  Ok (map (map (fun x => normalize x mains_mean mains_std)) ws).

(** The loop over all chunks stops at the first exception. *)
Fixpoint mapM {A B} (f : A -> result B) (l : list A) : result (list B) :=
  match l with
  | [] => Ok []
  | a :: l' =>
      b ← f a; bs ← mapM f l'; Ok (b :: bs)
  end.

(** ** pandas and NumPy helpers *)

(** [pd.concat(frames, axis=0)]: refuses an empty list; rows are stacked and
    a frame with fewer columns is filled with NaN on the right (the columns
    are the union of the default integer labels). *)
Definition frame_width (df : frame) : nat := max_list (length <$> df).

Definition pad_row (w : nat) (row : list float64) : list float64 :=
  row ++ replicate (w - length row)%nat F64.nan.

Definition pd_concat (frames : list frame) : result frame :=
  match frames with
  | [] => Raise ValueError
  | _ =>
      let w := max_list (frame_width <$> frames) in
      Ok (pad_row w <$> concat frames)
  end.

(** [count] rows of [n] values each, taken from a flat array in row-major
    order. *)
Fixpoint rows_of {A} (count n : nat) (flat : list A) : list (list A) :=
  match count with
  | O => []
  | S c => take n flat :: rows_of c n (drop n flat)
  end.

(** [a.reshape((-1, n, 1))]: the size of [a] must be a multiple of [n]. *)
Definition reshape_windows {A} (flat : list A) (n : Z) : result (list (list A)) :=
  if n <=? 0 then Raise ValueError
  else if Z.of_nat (length flat) mod n =? 0
       then Ok (rows_of (Z.to_nat (Z.of_nat (length flat) / n)) (Z.to_nat n) flat)
       else Raise ValueError.

(** [a.reshape((-1, 1))], kept as the flat list of its single-value rows. *)
Definition reshape_column (df : frame) : list float64 := concat df.

(** NumPy reductions over all values of an array, in binary64.

    The additions are made in the order of NumPy's pairwise summation:
    fewer than eight values are added one after the other; up to 128 values
    go into eight partial sums, value [i] into sum [i mod 8], which are then
    added two by two, and the values left over after the last full group of
    eight are added one after the other; a longer array is cut in two, the
    first part of a length that is a multiple of eight, and the sums of the
    parts are added.  The values are taken in the order of the array's
    memory, which for a frame of one column is the order of its rows. *)
Definition sum_seq (init : float64) (a : list float64) : float64 :=
  foldl F64.add init a.

(** [groups] times: the next eight values are added to the eight sums. *)
Fixpoint add_groups (groups : nat) (r a : list float64)
  : list float64 * list float64 :=
  match groups with
  | O => (r, a)
  | S g => add_groups g (zip_with F64.add r (take 8 a)) (drop 8 a)
  end.

(** From 8 to 128 values. *)
Definition sum_block (a : list float64) : float64 :=
  let '(r, rest) := add_groups (length a / 8 - 1) (take 8 a) (drop 8 a) in
  match r with
  | [r0; r1; r2; r3; r4; r5; r6; r7] =>
      sum_seq (F64.add (F64.add (F64.add r0 r1) (F64.add r2 r3))
                       (F64.add (F64.add r4 r5) (F64.add r6 r7))) rest
  | _ => sum_seq F64.zero a
  end.

(** The recursion halves the array, so the length of the array is fuel
    enough. *)
Fixpoint pairwise_sum (fuel : nat) (a : list float64) : float64 :=
  let n := length a in
  if (n <? 8)%nat then sum_seq F64.zero a
  else if (n <=? 128)%nat then sum_block a
  else
    match fuel with
    | O => sum_block a
    | S fuel' =>
        let n2 := (n / 2 - (n / 2) mod 8)%nat in
        F64.add (pairwise_sum fuel' (take n2 a)) (pairwise_sum fuel' (drop n2 a))
    end.

(** [np.add.reduce]: the sum is added to the identity of the addition. *)
Definition np_sum (a : list float64) : float64 :=
  F64.add F64.zero (pairwise_sum (length a) a).

Definition np_mean (a : list float64) : float64 :=
  F64.div (np_sum a) (F64.of_Z (Z.of_nat (length a))).

Definition np_std (a : list float64) : float64 :=
  let arrmean := np_mean a in
  let x := (fun v => F64.sub v arrmean) <$> a in
  let x2 := (fun v => F64.mul v v) <$> x in
  F64.sqrt (F64.div (np_sum x2) (F64.of_Z (Z.of_nat (length a)))).

(** Rounding a binary64 value to binary32 (a table built with
    [dtype='float32']). *)
Definition to_float32 (x : float64) : float64 :=
  match x with
  | S754_finite s m e => binary_round 24 128 s m e
  | _ => x
  end.

(** ** The estimator's state *)

(** A statistic is a Python number (the constants of the code, the numbers a
    caller passes in [params]), known by its value as a double, or a NumPy
    float64 scalar (what [np.mean] and [np.std] return).  Against a binary64
    array the two behave alike; against a binary32 array a Python number is
    taken to binary32 and a NumPy scalar takes the array to binary64. *)
Inductive scalar : Type :=
  | PyNumber (v : float64)
  | NpFloat64 (v : float64).

Definition value (s : scalar) : float64 :=
  match s with
  | PyNumber v | NpFloat64 v => v
  end.

(** [{'mean': ..., 'std': ...}] *)
Record stats : Type := Stats { mean_entry : scalar; std_entry : scalar }.

(** The values of the two entries. *)
Definition mean (st : stats) : float64 := value (mean_entry st).
Definition std (st : stats) : float64 := value (std_entry st).

(** A tensor lives at a location of the heap; two references to one location
    are the same tensor. *)
Abbreviation loc := positive.

(** A network ([nn.Module]) is known by its named parameter tensors. *)
Abbreviation module := (list (string * loc)).

(** An [OrderedDict]: keys in insertion order, assigning to a present key
    keeps its position. *)
Section OrderedDict.
Context {V : Type}.

Fixpoint od_get (d : list (string * V)) (k : string) : option V :=
  match d with
  | [] => None
  | (k', v) :: d' => if decide (k' = k) then Some v else od_get d' k
  end.

Definition od_mem (d : list (string * V)) (k : string) : bool :=
  bool_decide (is_Some (od_get d k)).

Fixpoint od_set (d : list (string * V)) (k : string) (v : V) : list (string * V) :=
  match d with
  | [] => [(k, v)]
  | (k', v') :: d' =>
      if decide (k' = k) then (k, v) :: d' else (k', v') :: od_set d' k v
  end.
End OrderedDict.

Record RNN : Type := {
  MODEL_NAME : string;
  models : list (string * module);
  file_prefix : string;
  chunk_wise_training : bool;
  sequence_length : Z;
  n_epochs : Z;
  batch_size : Z;
  appliance_params : gmap string stats;
  mains_mean : float64;
  mains_std : float64
}.

(** The [params] dictionary of the constructor: a key is present or not. *)
Record params : Type := {
  p_chunk_wise_training : option bool;
  p_sequence_length : option Z;
  p_n_epochs : option Z;
  p_batch_size : option Z;
  p_appliance_params : option (gmap string stats);
  p_mains_mean : option float64;
  p_mains_std : option float64
}.

(** [RNN.__init__]: the fields are read with their defaults, then an even
    sequence length is refused. *)
Definition init (p : params) : result RNN :=
  let self :=
    {| MODEL_NAME := "RNN";
       models := [];
       file_prefix := "rnn-temp-weights";
       chunk_wise_training := default false (p_chunk_wise_training p);
       sequence_length := default 19 (p_sequence_length p);
       n_epochs := default 10 (p_n_epochs p);
       batch_size := default 512 (p_batch_size p);
       appliance_params := default ∅ (p_appliance_params p);
       mains_mean := default (F64.of_Z 1800) (p_mains_mean p);
       mains_std := default (F64.of_Z 600) (p_mains_std p) |} in
  if sequence_length self mod 2 =? 0 then Raise SequenceLengthError
  else Ok self.

(** ** The appliance parameter store (set_appliance_params) *)

(** The statistics of one appliance: the std below 1 is replaced by the
    integer 100. *)
Definition appliance_stats (l : frame) : stats :=
  let values := concat l in
  let app_mean := NpFloat64 (np_mean values) in
  let app_std := NpFloat64 (np_std values) in
  let app_std :=
    if F64.ltb (value app_std) (F64.of_Z 1) then PyNumber (F64.of_Z 100)
    else app_std in
  {| mean_entry := app_mean; std_entry := app_std |}.

(** The loop over the appliances; an exception leaves the entries stored so
    far. *)
Fixpoint set_appliance_params (store : gmap string stats)
    (train_appliances : list (string * list frame))
  : result unit * gmap string stats :=
  match train_appliances with
  | [] => (Ok (), store)
  | (app_name, df_list) :: rest =>
      match pd_concat df_list with
      | Raise e => (Raise e, store)
      | Ok l => set_appliance_params (<[app_name := appliance_stats l]> store) rest
      end
  end.

(** ** Preprocessing (call_preprocessing) *)

(** The loop over one appliance's chunks. *)
Definition preprocess_appliance (st : stats) (app_df_list : list frame)
  : list frame :=
  (fun app_df =>
     (fun x => [normalize x (mean st) (std st)]) <$> reshape_column app_df)
  <$> app_df_list.

(** The loop over the appliances: the first one without statistics raises. *)
Fixpoint preprocess_appliances (store : gmap string stats)
    (submeters_lst : list (string * list frame))
  : result (list (string * list frame)) :=
  match submeters_lst with
  | [] => Ok []
  | (app_name, app_df_list) :: rest =>
      match store !! app_name with
      | Some st =>
          tl ← preprocess_appliances store rest;
          Ok ((app_name, preprocess_appliance st app_df_list) :: tl)
      | None => Raise ApplianceNotFoundError
      end
  end.

(** [method == 'train'] *)
Definition call_preprocessing_train (self : RNN) (mains_lst : list frame)
    (submeters_lst : list (string * list frame))
  : result (list frame * list (string * list frame)) :=
  mains_df_list ←
    mapM (preprocess_mains (sequence_length self) (mains_mean self) (mains_std self))
         mains_lst;
  appliance_list ← preprocess_appliances (appliance_params self) submeters_lst;
  Ok (mains_df_list, appliance_list).

(** any other method *)
Definition call_preprocessing_test (self : RNN) (mains_lst : list frame)
  : result (list frame) :=
  mapM (preprocess_mains (sequence_length self) (mains_mean self) (mains_std self))
       mains_lst.

Inductive preprocessed : Type :=
  | TrainData (mains_df_list : list frame) (appliance_list : list (string * list frame))
  | TestData (mains_df_list : list frame).

(** [call_preprocessing(mains_lst, submeters_lst, method)] *)
Definition call_preprocessing (self : RNN) (mains_lst : list frame)
    (submeters_lst : list (string * list frame)) (method : string)
  : result preprocessed :=
  if decide (method = "train") then
    '(m, a) ← call_preprocessing_train self mains_lst submeters_lst;
    Ok (TrainData m a)
  else
    m ← call_preprocessing_test self mains_lst;
    Ok (TestData m).

(** ** The tensor runtime

    PyTorch, scikit-learn and the file system under [torch.save] are used
    through this interface: what a network computes, how an epoch of
    gradient descent changes its parameters and which paths can be written
    is left open; where the values are kept, and when the calls are made,
    is not. *)

(** A training sample: a window and its target. *)
Abbreviation sample := (list float64 * float64)%type.

Class Runtime : Type := {
  (** the contents of one parameter tensor *)
  tensor : Type;
  (** the global random generator (initial weights, shuffling, dropout) *)
  rng : Type;
  (** the state of an Adam optimizer *)
  optimizer : Type;
  (** [RNNModel(sequence_length)]: the named parameters, freshly drawn *)
  new_network : Z -> rng -> list (string * tensor) * rng;
  (** [optim.Adam(model.parameters(), lr=0.001)] *)
  adam : list (string * tensor) -> optimizer;
  (** [train_test_split(x, y, test_size=0.15, random_state=42)] *)
  train_test_split : list sample -> list sample * list sample;
  (** all batches of one training epoch: the new parameter values *)
  train_epoch : list sample -> Z -> optimizer -> rng -> list (string * tensor)
                -> list (string * tensor) * optimizer * rng;
  (** the mean loss over the validation batches, in evaluation mode *)
  validation_loss : list sample -> Z -> list (string * tensor) -> float64;
  (** the network's estimate for one window, in evaluation mode; the
      tensor holds it rounded to binary32 *)
  forward : list (string * tensor) -> list float64 -> float64;
  (** starting to iterate over a [DataLoader]: the iterator draws its base
      seed from the global generator *)
  dataloader_iter : rng -> rng;
  (** whether [torch.save] can write the file of this name *)
  writable : string -> bool
}.

Inductive event : Type :=
  | EvFloatTensor
  | EvNewNetwork (appliance_name : string)
  | EvTrainModel (appliance_name : string)
  | EvSave (filepath : string)
  | EvLoadStateDict (appliance_name : string).

Section Estimator.
Context `{RT : Runtime}.

(** The estimator together with the heap of tensors, the files written by
    [torch.save] (a file holds the values at the time of the call), the
    random generator and the log of the runtime calls made so far. *)
Record world : Type := World {
  self : RNN;
  heap : gmap loc tensor;
  disk : gmap string (list (string * tensor));
  rng_state : rng;
  log : list event
}.

Definition set_self (w : world) (s : RNN) : world :=
  World s (heap w) (disk w) (rng_state w) (log w).
Definition set_heap (w : world) (h : gmap loc tensor) : world :=
  World (self w) h (disk w) (rng_state w) (log w).
Definition set_disk (w : world) (d : gmap string (list (string * tensor))) : world :=
  World (self w) (heap w) d (rng_state w) (log w).
Definition set_rng (w : world) (r : rng) : world :=
  World (self w) (heap w) (disk w) r (log w).
Definition emit (w : world) (evs : list event) : world :=
  World (self w) (heap w) (disk w) (rng_state w) (log w ++ evs).

Definition set_models (s : RNN) (ms : list (string * module)) : RNN :=
  {| MODEL_NAME := MODEL_NAME s; models := ms; file_prefix := file_prefix s;
     chunk_wise_training := chunk_wise_training s;
     sequence_length := sequence_length s; n_epochs := n_epochs s;
     batch_size := batch_size s; appliance_params := appliance_params s;
     mains_mean := mains_mean s; mains_std := mains_std s |}.

Definition set_appliance_params_field (s : RNN) (ps : gmap string stats) : RNN :=
  {| MODEL_NAME := MODEL_NAME s; models := models s; file_prefix := file_prefix s;
     chunk_wise_training := chunk_wise_training s;
     sequence_length := sequence_length s; n_epochs := n_epochs s;
     batch_size := batch_size s; appliance_params := ps;
     mains_mean := mains_mean s; mains_std := mains_std s |}.

(** *** Tensors on the heap *)

(** The values a dictionary of tensors refers to. *)
Definition deref (h : gmap loc tensor) (sd : list (string * loc))
  : list (string * tensor) :=
  omap (fun '(k, l) => (fun v => (k, v)) <$> h !! l) sd.

(** Allocation of the tensors of a new network. *)
Fixpoint alloc (h : gmap loc tensor) (named : list (string * tensor))
  : module * gmap loc tensor :=
  match named with
  | [] => ([], h)
  | (k, v) :: rest =>
      let l := fresh (dom h) in
      let '(m, h') := alloc (<[l := v]> h) rest in
      ((k, l) :: m, h')
  end.

(** In-place update of a network's parameters (the optimizer's steps):
    the tensors stay where they are, their contents change. *)
Definition write_params (h : gmap loc tensor) (m : module)
    (vals : list (string * tensor)) : gmap loc tensor :=
  foldl (fun h '(k, v) =>
           match od_get m k with
           | Some l => <[l := v]> h
           | None => h
           end) h vals.

(** [model.state_dict()]: the names with the parameter tensors themselves
    (detached views of the same storage). *)
Definition state_dict (m : module) : list (string * loc) := m.

(** [OrderedDict.copy()]: a new dictionary with the same values, here the
    same tensors. *)
Definition dict_copy {V} (d : list (string * V)) : list (string * V) := d.

(** [param.copy_(input_param)] *)
Definition copy_ (h : gmap loc tensor) (dst src : loc) : gmap loc tensor :=
  match h !! src with
  | Some v => <[dst := v]> h
  | None => h
  end.

(** [model.load_state_dict(sd)]: the keys must be the network's, then each
    parameter is overwritten in place by the dictionary's tensor. *)
Definition load_state_dict (h : gmap loc tensor) (m : module)
    (sd : list (string * loc)) : result (gmap loc tensor) :=
  if bool_decide (Forall (fun k => is_Some (od_get sd k)) m.*1
                  /\ Forall (fun k => is_Some (od_get m k)) sd.*1)
  then Ok (foldl (fun h '(k, dst) =>
                    match od_get sd k with
                    | Some src => copy_ h dst src
                    | None => h
                    end) h m)
  else Raise RuntimeError.

(** [self.return_network()] *)
Definition return_network (w : world) : module * world :=
  let '(named, r) := new_network (sequence_length (self w)) (rng_state w) in
  let '(m, h) := alloc (heap w) named in
  (m, set_rng (set_heap w h) r).

(** *** The training loop (train_model) *)

(** [appliance_name.replace(' ', '_')] *)
Fixpoint replace_spaces (s : string) : string :=
  match s with
  | EmptyString => EmptyString
  | String c s' =>
      String (if decide (c = " "%char) then "_"%char else c) (replace_spaces s')
  end.

(** The checkpoint's file name. *)
Definition checkpoint_path (s : RNN) (appliance_name : string) (current_epoch : Z)
  : string :=
  file_prefix s +:+ "-" +:+ replace_spaces appliance_name
    +:+ "-epoch" +:+ pretty current_epoch +:+ ".pth".

(** The variables of the loop: the best validation loss seen so far, the
    state dictionary kept at that epoch, and the optimizer. *)
Record best : Type := Best {
  best_val_loss : float64;
  best_model_state : option (list (string * loc));
  opt : optimizer
}.

(** One epoch: the training batches update the parameters in place (on an
    empty loader there is no batch), the validation batches are run, and the
    two summed losses are divided by the number of batches of their loader,
    which Python refuses when a loader is empty; then an improvement is
    recorded and saved, and [torch.save] raises when it cannot write. *)
Definition epoch (model : module) (train val : list sample)
    (appliance_name : string) (current_epoch : Z) (st : best * world)
  : result best * world :=
  let '(b, w) := st in
  let bs := batch_size (self w) in
  let '(vals, opt', r') :=
    train_epoch train bs (opt b) (rng_state w) (deref (heap w) model) in
  let w := set_rng (set_heap w (write_params (heap w) model vals)) r' in
  let w := set_rng w (dataloader_iter (rng_state w)) in
  match train, val with
  | [], _ | _, [] => (Raise ZeroDivisionError, w)
  | _ :: _, _ :: _ =>
      let val_loss := validation_loss val bs (deref (heap w) model) in
      if F64.ltb val_loss (best_val_loss b) then
        let sd := dict_copy (state_dict model) in
        let filepath := checkpoint_path (self w) appliance_name current_epoch in
        if writable filepath then
          (Ok (Best val_loss (Some sd) opt'),
           emit (set_disk w (<[filepath := deref (heap w) sd]> (disk w)))
             [EvSave filepath])
        else (Raise RuntimeError, w)
      else (Ok (Best (best_val_loss b) (best_model_state b) opt'), w)
  end.

(** [for epoch in range(k)]; an exception ends the loop. *)
Fixpoint epoch_loop (k : nat) (model : module) (train val : list sample)
    (appliance_name : string) (current_epoch : Z) (st : best * world)
  : result best * world :=
  match k with
  | O => (Ok st.1, st.2)
  | S k' =>
      match epoch model train val appliance_name current_epoch st with
      | (Ok b, w) =>
          epoch_loop k' model train val appliance_name current_epoch (b, w)
      | (Raise e, w) => (Raise e, w)
      end
  end.

(** [train_model] *)
Definition train_model (model : module) (train val : list sample)
    (appliance_name : string) (current_epoch : Z) (w : world)
  : result unit * world :=
  let w := emit w [EvTrainModel appliance_name] in
  let st0 := (Best F64.inf None (adam (deref (heap w) model)), w) in
  match epoch_loop (Z.to_nat (n_epochs (self w))) model train val
          appliance_name current_epoch st0 with
  | (Raise e, w) => (Raise e, w)
  | (Ok b, w) =>
      match best_model_state b with
      | Some sd =>
          match load_state_dict (heap w) model sd with
          | Ok h => (Ok (), emit (set_heap w h) [EvLoadStateDict appliance_name])
          | Raise e => (Raise e, w)
          end
      | None => (Ok (), w)
      end
  end.

(** *** Training (partial_fit) *)

(** The body of the loop over the appliances. *)
Definition fit_appliance (train_main : list (list float64)) (current_epoch : Z)
    (appliance : string * list float64) (w : world) : result unit * world :=
  let '(appliance_name, power) := appliance in
  let w :=
    if od_mem (models (self w)) appliance_name then w
    else
      let '(m, w') := return_network (emit w [EvNewNetwork appliance_name]) in
      set_self w' (set_models (self w') (od_set (models (self w')) appliance_name m)) in
  match od_get (models (self w)) appliance_name with
  | None => (Raise KeyError, w)
  | Some model =>
      let size := Z.of_nat (length train_main) * sequence_length (self w) in
      if 0 <? size then
        if 10 <? Z.of_nat (length train_main) then
          let w := emit w [EvFloatTensor; EvFloatTensor] in
          if bool_decide (length train_main = length power) then
            let '(train, val) := train_test_split (zip train_main power) in
            let w := emit w [EvFloatTensor; EvFloatTensor; EvFloatTensor; EvFloatTensor] in
            if batch_size (self w) <=? 0 then (Raise ValueError, w)
            else train_model model train val appliance_name current_epoch w
          else (Raise ValueError, w)
        else (Ok (), w)
      else (Ok (), w)
  end.

(** [for appliance_name, power in train_appliances] *)
Fixpoint fit_appliances (train_main : list (list float64)) (current_epoch : Z)
    (train_appliances : list (string * list float64)) (w : world)
  : result unit * world :=
  match train_appliances with
  | [] => (Ok (), w)
  | a :: rest =>
      match fit_appliance train_main current_epoch a w with
      | (Ok _, w') => fit_appliances train_main current_epoch rest w'
      | (Raise e, w') => (Raise e, w')
      end
  end.

(** The statistics are computed when the store is empty. *)
Definition ensure_params (train_appliances : list (string * list frame))
    (w : world) : result unit * world :=
  if bool_decide (size (appliance_params (self w)) = 0%nat) then
    let '(r, store) := set_appliance_params (appliance_params (self w)) train_appliances in
    (r, set_self w (set_appliance_params_field (self w) store))
  else (Ok (), w).

(** What the loop over the appliances is run on: the windows of all mains
    chunks and, per appliance, its column of targets. *)
Definition training_arrays (s : RNN) (train_main : list frame)
    (train_appliances : list (string * list frame)) (do_preprocessing : bool)
  : result (list (list float64) * list (string * list float64)) :=
  '(train_main, train_appliances) ←
    (if do_preprocessing
     then call_preprocessing_train s train_main train_appliances
     else Ok (train_main, train_appliances));
  train_main ← pd_concat train_main;
  train_main ← reshape_windows (concat train_main) (sequence_length s);
  new_train_appliances ←
    mapM (fun '(app_name, app_df) =>
            app_df ← pd_concat app_df;
            Ok (app_name, reshape_column app_df)) train_appliances;
  Ok (train_main, new_train_appliances).

Definition partial_fit (train_main : list frame)
    (train_appliances : list (string * list frame)) (do_preprocessing : bool)
    (current_epoch : Z) (w : world) : result unit * world :=
  match ensure_params train_appliances w with
  | (Raise e, w) => (Raise e, w)
  | (Ok _, w) =>
      match training_arrays (self w) train_main train_appliances do_preprocessing with
      | Raise e => (Raise e, w)
      | Ok (train_main, train_appliances) =>
          fit_appliances train_main current_epoch train_appliances w
      end
  end.

(** *** Inference (disaggregate_chunk) *)

(** The batches of a [DataLoader] that does not shuffle: consecutive runs
    of [bs] items, the last one shorter. *)
Definition batches {A} (bs : Z) (l : list A) : list (list A) :=
  rows_of (Z.to_nat ((Z.of_nat (length l) + bs - 1) / bs)) (Z.to_nat bs) l.

(** [np.concatenate(arrays, axis=0)] needs at least one array. *)
Definition np_concatenate {A} (arrays : list (list A)) : result (list A) :=
  match arrays with
  | [] => Raise ValueError
  | _ => Ok (concat arrays)
  end.

(** [np.where(v > 0, v, 0)] on one value. *)
Definition clamp (v : float64) : float64 :=
  if F64.ltb F64.zero v then v else F64.zero.

(** [mean + prediction * std] on the binary32 array of predictions.  A
    Python number is taken to binary32 and the operation made there; a NumPy
    float64 scalar takes the array to binary64.  The result is given as a
    binary64 number, which every binary32 number is. *)
Definition np_denormalize (prediction : float64) (mean std : scalar) : float64 :=
  match std, mean with
  | PyNumber s, PyNumber m =>
      F64.of_float32 (F32.add (to_float32 m) (F32.mul prediction (to_float32 s)))
  | PyNumber s, NpFloat64 m =>
      F64.add m (F64.of_float32 (F32.mul prediction (to_float32 s)))
  | NpFloat64 s, _ =>
      F64.add (value mean) (F64.mul (F64.of_float32 prediction) s)
  end.

(** The body of the loop over the networks: batched prediction, then
    denormalization with the appliance's statistics, then clamping.  The
    loader refuses a batch size that is not positive; iterating over it
    draws from the global generator. *)
Definition disaggregate_appliance (w : world) (test_main : list (list float64))
    (appliance : string) (model : module) : result (list float64) * world :=
  if batch_size (self w) <=? 0 then (Raise ValueError, w)
  else
    let w := set_rng w (dataloader_iter (rng_state w)) in
    let predictions : list (list float64) :=
      (fun batch_x : list (list float64) =>
         (fun window => to_float32 (forward (deref (heap w) model) window)) <$> batch_x)
      <$> batches (batch_size (self w)) test_main in
    match np_concatenate predictions with
    | Raise e => (Raise e, w)
    | Ok prediction =>
        match appliance_params (self w) !! appliance with
        | None => (Raise KeyError, w)
        | Some st =>
            let prediction : list float64 :=
              (fun p => np_denormalize p (mean_entry st) (std_entry st))
              <$> prediction in
            (Ok (clamp <$> prediction), w)
        end
    end.

(** [for appliance, model in self.models.items()], filling the dictionary
    of columns. *)
Fixpoint disaggregate_appliances (w : world) (test_main : list (list float64))
    (items : list (string * module)) (disggregation_dict : list (string * list float64))
  : result (list (string * list float64)) * world :=
  match items with
  | [] => (Ok disggregation_dict, w)
  | (appliance, model) :: rest =>
      match disaggregate_appliance w test_main appliance model with
      | (Raise e, w) => (Raise e, w)
      | (Ok df, w) =>
          disaggregate_appliances w test_main rest
            (od_set disggregation_dict appliance df)
      end
  end.

(** [pd.DataFrame(disggregation_dict, dtype='float32')] *)
Definition DataFrame_float32 (d : list (string * list float64))
  : list (string * list float64) :=
  (fun kc : string * list float64 => (kc.1, to_float32 <$> kc.2)) <$> d.

(** [for test_main in test_main_list] *)
Fixpoint disaggregate_chunks (test_main_list : list frame) (w : world)
  : result (list (list (string * list float64))) * world :=
  match test_main_list with
  | [] => (Ok [], w)
  | test_main :: rest =>
      match reshape_windows (concat test_main) (sequence_length (self w)) with
      | Raise e => (Raise e, w)
      | Ok windows =>
          let w := emit w [EvFloatTensor] in
          match disaggregate_appliances w windows (models (self w)) [] with
          | (Raise e, w) => (Raise e, w)
          | (Ok d, w) =>
              match disaggregate_chunks rest w with
              | (Ok tl, w') => (Ok (DataFrame_float32 d :: tl), w')
              | (Raise e, w') => (Raise e, w')
              end
          end
      end
  end.

Definition disaggregate_chunk (test_main_list : list frame)
    (model : option (list (string * module))) (do_preprocessing : bool)
    (w : world) : result (list (list (string * list float64))) * world :=
  let w :=
    match model with
    | Some ms => set_self w (set_models (self w) ms)
    | None => w
    end in
  match (if do_preprocessing
         then call_preprocessing_test (self w) test_main_list
         else Ok test_main_list) with
  | Raise e => (Raise e, w)
  | Ok test_main_list => disaggregate_chunks test_main_list w
  end.
End Estimator.

(** * Example inputs *)

(** A chunk of readings given as integers: one column. *)
Definition column (l : list Z) : frame := (fun v => [F64.of_Z v]) <$> l.

(** Rows of integer values. *)
Definition rows (l : list (list Z)) : frame := map F64.of_Z <$> l.

(** The constructor's dictionary with only [sequence_length] given. *)
Definition params_with_length (n : Z) : params :=
  {| p_chunk_wise_training := None; p_sequence_length := Some n;
     p_n_epochs := None; p_batch_size := None; p_appliance_params := None;
     p_mains_mean := None; p_mains_std := None |}.

(** Two appliances with little variation in their readings. *)
Definition example_appliances : list (string * list frame) :=
  [("kettle"%string, [column [10; 10; 10]]);
   ("fridge"%string, [column [7; 8]; column [7; 8]])].

(** [|r - x| <= tol] in binary64. *)
Definition within_tolerance (tol r x : float64) : bool :=
  F64.leb (SFabs (F64.sub r x)) tol.

(** The sign of a float, when it has one. *)
Definition has_sign (s : bool) (x : float64) : Prop :=
  match x with
  | S754_zero s' | S754_infinity s' | S754_finite s' _ _ => s' = s
  | S754_nan => False
  end.

(** A runtime small enough to run.  A network has one integer weight; an
    epoch of training on a loader that is not empty adds one to it; the
    validation loss is the distance of the weight from 1; the estimate for a
    window is its centre value minus the weight; the first two samples are
    held out for validation; the generator counts the draws; a file can be
    written when its name has no directory part. *)
Definition toy : Runtime := {|
  tensor := Z;
  rng := nat;
  optimizer := unit;
  new_network := fun _ r => ([("fc.weight"%string, 0)], S r);
  adam := fun _ => tt;
  train_test_split := fun l => (drop 2 l, take 2 l);
  train_epoch := fun train _ o r ps =>
    (match train with
     | [] => ps
     | _ :: _ => (fun kv : string * Z => (kv.1, kv.2 + 1)) <$> ps
     end, o, S r);
  validation_loss := fun _ _ ps =>
    match ps with
    | [(_, v)] => F64.of_Z (Z.abs (v - 1))
    | _ => F64.nan
    end;
  forward := fun ps window =>
    match ps with
    | [(_, v)] => F64.sub (nth (length window / 2) window F64.zero) (F64.of_Z v)
    | _ => F64.nan
    end;
  dataloader_iter := S;
  writable := fun filepath =>
    match index 0 "/" filepath with
    | None => true
    | Some _ => false
    end
|}.

(** An estimator with window length 3, three epochs, mains mean 0 and
    std 1, and the given registry and parameter store. *)
Definition toy_estimator (ms : list (string * module)) (store : gmap string stats)
  : RNN :=
  {| MODEL_NAME := "RNN"; models := ms; file_prefix := "rnn-temp-weights";
     chunk_wise_training := false; sequence_length := 3; n_epochs := 3;
     batch_size := 512; appliance_params := store;
     mains_mean := F64.of_Z 0; mains_std := F64.of_Z 1 |}.

(** A world of the toy runtime: nothing written to disk, nothing logged. *)
Definition toy_world (ms : list (string * module)) (store : gmap string stats)
    (h : gmap loc Z) : @world toy :=
  @World toy (toy_estimator ms store) h ∅ O [].

(** A registry with one trained network, for the fridge, of weight 3. *)
Definition fridge_registry : list (string * module) :=
  [("fridge"%string, [("fc.weight"%string, 1%positive)])].

Definition fridge_heap : gmap loc Z := {[ 1%positive := 3 ]}.

(** The fridge's statistics, as [set_appliance_params] stores them for
    readings of mean 1 and little variation. *)
Definition fridge_store : gmap string stats :=
  {[ "fridge"%string :=
       {| mean_entry := NpFloat64 (F64.of_Z 1);
          std_entry := PyNumber (F64.of_Z 100) |} ]}.

(** A value is not below zero (and is not NaN). *)
Definition nonneg (v : float64) : Prop := F64.leb F64.zero v = true.

(** All values of a result table are non-negative. *)
Definition nonneg_table (t : list (string * list float64)) : Prop :=
  Forall (fun kc => Forall nonneg kc.2) t.

(** The fridge's network. *)
Definition fridge_network : module := [("fc.weight"%string, 1%positive)].

(** The same network before any training: weight 0. *)
Definition untrained_heap : gmap loc Z := {[ 1%positive := 0 ]}.

(** Twelve windows of three values, as preprocessing leaves them, and twelve
    targets. *)
Definition twelve_windows : frame := rows (replicate 12 [0; 0; 5]).
Definition twelve_targets : frame := column (replicate 12 7).

(** Inference on one chunk of three readings with the trained fridge. *)
Definition toy_inference :=
  disaggregate_chunk (RT := toy) [column [0; 5; 0]] None true
    (toy_world fridge_registry fridge_store fridge_heap).

(** Ten samples to train on and two to validate on, as the split leaves
    them for twelve windows. *)
Definition ten_samples : list sample :=
  replicate 10 (F64.of_Z <$> [0; 0; 5], F64.of_Z 7).
Definition two_samples : list sample :=
  replicate 2 (F64.of_Z <$> [0; 0; 5], F64.of_Z 7).

(** Three epochs of training for the fridge, from weight 0. *)
Definition toy_training :=
  train_model (RT := toy) fridge_network ten_samples two_samples "fridge" 0
    (toy_world fridge_registry fridge_store untrained_heap).

(** A training call without preprocessing, for a kettle the store (which
    knows the fridge only) has no statistics for. *)
Definition toy_fit_unchecked :=
  partial_fit (RT := toy) [twelve_windows] [("kettle"%string, [twelve_targets])]
    false 0 (toy_world [] fridge_store ∅).

(** A first training call on an estimator built without statistics, on one
    chunk of seven readings. *)
Definition toy_fit_first :=
  partial_fit (RT := toy) [column [0; 0; 0; 5; 0; 0; 0]]
    [("kettle"%string, [column [1; 1; 1; 2; 2; 2; 2]])] true 0
    (toy_world [] ∅ ∅).

Section Created.
Context `{RT : Runtime}.

(** [w'] differs from [w] by networks that were created and by nothing
    else: the files, the statistics and the configuration are the same,
    every tensor of [w] has its value, every registered network is still
    registered, and only creations were logged. *)
Definition only_new_networks (w w' : world) : Prop :=
  disk w' = disk w
  /\ heap w ⊆ heap w'
  /\ appliance_params (self w') = appliance_params (self w)
  /\ sequence_length (self w') = sequence_length (self w)
  /\ (forall name m, od_get (models (self w)) name = Some m ->
                     od_get (models (self w')) name = Some m)
  /\ exists evs, log w' = log w ++ evs
                 /\ Forall (fun e => exists name, e = EvNewNetwork name) evs.

(** The network [m] that [w'] has for [name] was created since [w], and not
    trained: [w] had no network for the name, the tensors of [m] were not on
    the heap of [w], they hold the values [new_network] drew for them, and
    the creation was logged. *)
Definition created_since (w w' : world) (name : string) (m : module) : Prop :=
  od_get (models (self w)) name = None
  /\ od_get (models (self w')) name = Some m
  /\ (forall l, l ∈ m.*2 -> heap w !! l = None /\ is_Some (heap w' !! l))
  /\ (exists r, deref (heap w') m = (new_network (sequence_length (self w)) r).1)
  /\ exists evs, log w' = log w ++ evs /\ EvNewNetwork name ∈ evs.
End Created.

(** The inputs of the first training call. *)
Definition seven_readings : list frame := [column [0; 0; 0; 5; 0; 0; 0]].
Definition kettle_readings : list (string * list frame) :=
  [("kettle"%string, [column [1; 1; 1; 2; 2; 2; 2]])].

(** The state of that call once the statistics are there. *)
Definition toy_first_ensured : @world toy :=
  (ensure_params (RT := toy) kettle_readings (toy_world [] ∅ ∅)).2.

(** The kettle's targets, normalized with its statistics. *)
Definition kettle_targets : list (string * list float64) :=
  let st := appliance_stats (column [1; 1; 1; 2; 2; 2; 2]) in
  [("kettle"%string,
    (fun x => normalize x (mean st) (std st)) <$> (F64.of_Z <$> [1; 1; 1; 2; 2; 2; 2]))].

(** A registry swapped in at inference: the fridge, which has statistics,
    and a kettle, which has none. *)
Definition swapped_registry : list (string * module) :=
  [("fridge"%string, fridge_network); ("kettle"%string, fridge_network)].

(** Everything of the estimator but its registry and its store. *)
Definition same_configuration (s s' : RNN) : Prop :=
  MODEL_NAME s' = MODEL_NAME s
  /\ file_prefix s' = file_prefix s
  /\ chunk_wise_training s' = chunk_wise_training s
  /\ sequence_length s' = sequence_length s
  /\ n_epochs s' = n_epochs s
  /\ batch_size s' = batch_size s
  /\ mains_mean s' = mains_mean s
  /\ mains_std s' = mains_std s.

(** Every network of the registry [ms] is in [ms'], the same network under
    the same name. *)
Definition registry_grows (ms ms' : list (string * module)) : Prop :=
  forall name m, od_get ms name = Some m -> od_get ms' name = Some m.

Section Files.
Context `{RT : Runtime}.

(** The files over the epochs: the disk is the one the call started with,
    or that one with the checkpoint's path overwritten by parameter values
    whose validation loss is below infinity. *)
Definition checkpointed (w0 : world) (appliance_name : string) (current_epoch : Z)
    (val : list sample) (w : world) : Prop :=
  disk w = disk w0
  \/ exists vals,
       disk w = <[checkpoint_path (self w0) appliance_name current_epoch := vals]> (disk w0)
       /\ F64.ltb (validation_loss val (batch_size (self w0)) vals) F64.inf = true.
End Files.

(** A heap with the untrained fridge network and a tensor of another
    network. *)
Definition two_network_heap : gmap loc Z := {[ 1%positive := 0; 2%positive := 7 ]}.

Section Estimate.
Context `{RT : Runtime}.

(** The prediction for one window: the network's estimate, as the binary32
    number the tensor holds, denormalized with the two entries of the
    appliance's statistics and clamped. *)
Definition prediction_of (w : world) (st : stats) (model : module)
    (window : list float64) : float64 :=
  clamp (np_denormalize (to_float32 (forward (deref (heap w) model) window))
           (mean_entry st) (std_entry st)).

(** The value of a result table for one window: the prediction, in
    binary32. *)
Definition estimate (w : world) (st : stats) (model : module) (window : list float64)
  : float64 :=
  to_float32 (prediction_of w st model window).

(** The table of one chunk: a column per network of the registry, in the
    registry's order, an estimate per window. *)
Definition table_of (w : world) (registry : list (string * module)) (windows : frame)
    (table : list (string * list float64)) : Prop :=
  Forall2 (fun (item : string * module) (column : string * list float64) =>
             column.1 = item.1
             /\ exists st, appliance_params (self w) !! item.1 = Some st
                  /\ column.2 = estimate w st item.2 <$> windows)
    registry table.
End Estimate.

(** An estimator like the toy one but with batch size 0. *)
Definition zero_batch_world : @world toy :=
  @World toy
    {| MODEL_NAME := "RNN"; models := fridge_registry; file_prefix := "rnn-temp-weights";
       chunk_wise_training := false; sequence_length := 3; n_epochs := 3;
       batch_size := 0; appliance_params := fridge_store;
       mains_mean := F64.of_Z 0; mains_std := F64.of_Z 1 |}
    fridge_heap ∅ O [].

(** Eleven targets, for twelve windows. *)
Definition eleven_targets : frame := column (replicate 11 7).

(** * The network (RNNModel), at the level of tensor shapes

    What each layer of [RNNModel.forward] does to the shape of its input; a
    call that PyTorch refuses gives [None]. *)

Abbreviation shape := (list Z).

(** [x.permute(0, 2, 1)] *)
Definition permute_0_2_1 (x : shape) : option shape :=
  match x with
  | [b; c; l] => Some [b; l; c]
  | _ => None
  end.

(** The length left by a convolution along the sequence. *)
Definition conv_length (kernel_size stride padding l : Z) : Z :=
  (l + 2 * padding - (kernel_size - 1) - 1) / stride + 1.

(** [nn.Conv1d(in_channels, out_channels, kernel_size, stride, padding)]:
    the channels must be the layer's, the sequence not empty, and the padded
    input not shorter than the kernel. *)
Definition conv1d (in_channels out_channels kernel_size stride padding : Z)
    (x : shape) : option shape :=
  match x with
  | [b; c; l] =>
      if bool_decide (c = in_channels /\ 0 < l /\ kernel_size <= l + 2 * padding)
      then Some [b; out_channels; conv_length kernel_size stride padding l]
      else None
  | [c; l] =>
      if bool_decide (c = in_channels /\ 0 < l /\ kernel_size <= l + 2 * padding)
      then Some [out_channels; conv_length kernel_size stride padding l]
      else None
  | _ => None
  end.

(** [nn.LSTM(input_size, hidden_size, batch_first=True, bidirectional=True)],
    its output sequence: the features must be the layer's and the sequence
    not empty; a sequence without batch dimension is accepted too. *)
Definition lstm (input_size hidden_size : Z) (x : shape) : option shape :=
  match x with
  | [b; t; f] =>
      if bool_decide (f = input_size /\ 0 < t) then Some [b; t; 2 * hidden_size]
      else None
  | [t; f] =>
      if bool_decide (f = input_size /\ 0 < t) then Some [t; 2 * hidden_size]
      else None
  | _ => None
  end.

(** [x[:, -1, :]] needs three dimensions and a step to take. *)
Definition select_last (x : shape) : option shape :=
  match x with
  | b :: t :: f :: rest => if bool_decide (0 < t) then Some (b :: f :: rest) else None
  | _ => None
  end.

(** [nn.Linear(in_features, out_features)] acts on the last dimension. *)
Definition linear (in_features out_features : Z) (x : shape) : option shape :=
  match reverse x with
  | f :: r =>
      if bool_decide (f = in_features) then Some (reverse (out_features :: r)) else None
  | [] => None
  end.

(** Dropout and tanh keep the shape. *)
Definition elementwise (x : shape) : option shape := Some x.

(** The shape after the convolution, back in (batch, sequence, channels). *)
Definition forward_conv (x : shape) : option shape :=
  x ← permute_0_2_1 x;
  x ← conv1d 1 16 4 1 2 x;
  permute_0_2_1 x.

(** [RNNModel.forward] *)
Definition forward_shape (x : shape) : option shape :=
  x ← forward_conv x;
  x ← lstm 16 128 x;
  x ← elementwise x;
  x ← lstm 256 256 x;
  x ← select_last x;
  x ← linear 512 128 x;
  x ← elementwise x;
  x ← elementwise x;
  linear 128 1 x.

Section Registry.
Context `{RT : Runtime}.

(** The tensors of all the networks of a registry. *)
Definition registry_locs (ms : list (string * module)) : list loc :=
  concat ((fun item : string * module => item.2.*2) <$> ms).

(** No tensor belongs to two networks or twice to one, and every tensor of
    a network is on the heap. *)
Definition registry_wf (w : world) : Prop :=
  NoDup (registry_locs (models (self w)))
  /\ forall l, l ∈ registry_locs (models (self w)) -> is_Some (heap w !! l).

(** The appliances [train_model] was entered for, in the order of the
    log. *)
Definition trained (evs : list event) : list string :=
  omap (fun e => match e with EvTrainModel name => Some name | _ => None end) evs.

(** The split of more than ten samples leaves samples on both sides
    (scikit-learn holds out 15 percent of them, rounded up). *)
Definition split_leaves_both : Prop :=
  forall l : list sample, (10 < length l)%nat ->
    (train_test_split l).1 <> [] /\ (train_test_split l).2 <> [].

(** The checkpoints of these appliances can be written. *)
Definition checkpoints_writable (s : RNN) (names : list string) (current_epoch : Z)
  : Prop :=
  forall name, name ∈ names ->
    writable (checkpoint_path s name current_epoch) = true.
End Registry.

(** ** The value of a binary64 number, and the rounding of a fraction *)

(** The unit roundoff of binary64, [2 ^ -53]. *)
Definition u64 : Q := 1 # 9007199254740992.

(** The rational number a finite binary64 number stands for. *)
Definition F2Q (x : spec_float) : Q :=
  match x with
  | S754_finite s m e => (inject_Z (cond_Zopp s (Z.pos m)) * 2 ^ e)%Q
  | _ => 0%Q
  end.

(** A normal number: finite, with a mantissa of all 53 bits. *)
Definition is_normal (x : spec_float) : bool :=
  match x with
  | S754_finite _ m _ => Z.pos (digits2_pos m) =? 53
  | _ => false
  end.

Definition is_zero (x : spec_float) : bool :=
  match x with S754_zero _ => true | _ => false end.

(** The exponent of a finite number is one of the format's. *)
Definition exponent_ok (x : spec_float) : Prop :=
  match x with S754_finite _ _ e => emin 53 1024 <= e | _ => True end.

(** A shift record at fraction [N / D]: the mantissa is the integer part,
    the two bits say where the fraction lies in the unit interval. *)
Definition located (N D : Z) (mrs : shr_record) : Prop :=
  0 < D /\ 0 <= N /\ shr_m mrs = N / D
  /\ match shr_r mrs, shr_s mrs with
     | false, false => N mod D = 0
     | false, true => 0 < 2 * (N mod D) < D
     | true, false => 2 * (N mod D) = D
     | true, true => D < 2 * (N mod D)
     end.

(** The round trip of [x] stays in the normal range: the difference
    [x - mean] is computed as zero, or it, its quotient by [std] and the
    product of the quotient with [std] are normal numbers and the final sum
    is a normal number or zero. *)
Definition in_normal_range (x mean std : float64) : Prop :=
  let d := F64.sub x mean in
  let z := normalize x mean std in
  let p := F64.mul z std in
  let r := denormalize z mean std in
  is_zero d = true
  \/ (is_normal d = true /\ is_normal z = true /\ is_normal p = true
      /\ (is_normal r = true \/ is_zero r = true)).

(** * Properties *)

(** ** Windowing *)

Lemma py_range_length k : length (py_range k) = Z.to_nat k.
Proof. unfold py_range. apply length_seqZ. Qed.

Lemma np_pad_ok {A} (zero : A) a p :
  0 <= p ->
  np_pad zero a p = Ok (replicate (Z.to_nat p) zero ++ a ++ replicate (Z.to_nat p) zero).
Proof. intros Hp. unfold np_pad. destruct (Z.ltb_spec p 0); [lia | reflexivity]. Qed.

Lemma py_slice_length {A} (a : list A) i n :
  0 <= i -> 0 <= n -> i + n <= Z.of_nat (length a) ->
  Z.of_nat (length (py_slice a i (i + n))) = n.
Proof.
  intros Hi Hn Hlen. unfold py_slice, py_bound.
  destruct (Z.ltb_spec i 0); [lia |].
  destruct (Z.ltb_spec (i + n) 0); [lia |].
  rewrite length_take, length_drop. lia.
Qed.

Lemma sliding_windows_length {A} (padded : list A) n :
  length (sliding_windows padded n) = Z.to_nat (Z.of_nat (length padded) - n + 1).
Proof. unfold sliding_windows. rewrite length_fmap. apply py_range_length. Qed.

Lemma sliding_windows_width {A} (padded : list A) n :
  0 <= n ->
  Forall (fun w => Z.of_nat (length w) = n) (sliding_windows padded n).
Proof.
  intros Hn. unfold sliding_windows, py_range.
  apply Forall_fmap, Forall_forall. intros i Hi.
  apply elem_of_seqZ in Hi. simpl. apply py_slice_length; lia.
Qed.

Lemma odd_half n : Z.odd n = true -> 2 * (n / 2) = n - 1.
Proof.
  intros Ho. rewrite Zodd_mod in Ho. apply Z.eqb_eq in Ho.
  pose proof (Z.div_mod n 2). lia.
Qed.

(** C1: for an odd window length [n], a mains chunk of [L] readings is
    turned into exactly [L] windows, each of [n] values. *)
Theorem preprocess_mains_window_count (n : Z) (mains_mean mains_std : float64)
    (mains : frame) :
  0 < n -> Z.odd n = true ->
  exists ws, preprocess_mains n mains_mean mains_std mains = Ok ws
    /\ length ws = length (values_flatten mains)
    /\ Forall (fun w => Z.of_nat (length w) = n) ws.
Proof.
  intros Hpos Hodd. pose proof (odd_half n Hodd) as Hhalf.
  unfold preprocess_mains, window_chunk.
  rewrite np_pad_ok by lia. simpl.
  eexists; split; [reflexivity |]. split.
  - rewrite length_fmap, sliding_windows_length, !length_app, !length_replicate. lia.
  - apply Forall_fmap. eapply Forall_impl; [apply sliding_windows_width; lia |].
    intros w Hw. simpl. by rewrite length_fmap.
Qed.

Lemma preprocess_mains_window_count_witness :
  exists ws,
    preprocess_mains 3 (F64.of_Z 0) (F64.of_Z 1)
      ((fun v => [F64.of_Z v]) <$> [0; 0; 0; 5; 0; 0; 0]) = Ok ws
    /\ length ws = 7%nat
    /\ Forall (fun w => Z.of_nat (length w) = 3) ws.
Proof.
  exact (preprocess_mains_window_count 3 (F64.of_Z 0) (F64.of_Z 1)
           ((fun v => [F64.of_Z v]) <$> [0; 0; 0; 5; 0; 0; 0])
           ltac:(lia) eq_refl).
Defined.

(** ** The scenario of the specification: one chunk, window length 3 *)

(** C9, as stated: the first and the last window listed by the
    specification have two values; the code's windows all have three. *)
Lemma scenario_windows_not_as_listed :
  preprocess_mains 3 (F64.of_Z 0) (F64.of_Z 1) (column [0; 0; 0; 5; 0; 0; 0])
  <> Ok (rows [[0; 0]; [0; 0; 0]; [0; 0; 5]; [0; 5; 0]; [5; 0; 0]; [0; 0; 0]; [0; 0]]).
Proof. vm_compute. discriminate. Qed.

(** C9, amended: the chunk [0,0,0,5,0,0,0] with window length 3, mean 0 and
    std 1 gives seven windows of three values, the outer two completed by
    the padding zero. *)
Theorem scenario_windows :
  preprocess_mains 3 (F64.of_Z 0) (F64.of_Z 1) (column [0; 0; 0; 5; 0; 0; 0])
  = Ok (rows [[0; 0; 0]; [0; 0; 0]; [0; 0; 5]; [0; 5; 0]; [5; 0; 0]; [0; 0; 0]; [0; 0; 0]]).
Proof. vm_compute. reflexivity. Qed.

(** ** Construction *)

Lemma mod2_even n : (n mod 2 =? 0) = Z.even n.
Proof. rewrite Zeven_mod. reflexivity. Qed.

(** C7: an even [sequence_length] makes the constructor raise
    [SequenceLengthError]; with an odd one it returns the estimator, with
    that window length and an empty registry. *)
Theorem init_sequence_length (p : params) (n : Z) :
  p_sequence_length p = Some n ->
  (Z.even n = true -> init p = Raise SequenceLengthError)
  /\ (Z.odd n = true ->
      exists self, init p = Ok self /\ sequence_length self = n /\ models self = []).
Proof.
  intros Hn. unfold init. rewrite Hn. cbn [sequence_length default from_option id].
  rewrite mod2_even. split; intros H.
  - by rewrite H.
  - rewrite <- Z.negb_odd, H. cbn. eauto.
Qed.

Lemma init_sequence_length_witness :
  init (params_with_length 4) = Raise SequenceLengthError
  /\ exists self, init (params_with_length 19) = Ok self
       /\ sequence_length self = 19 /\ models self = [].
Proof.
  split.
  - exact (proj1 (init_sequence_length (params_with_length 4) 4 eq_refl) eq_refl).
  - exact (proj2 (init_sequence_length (params_with_length 19) 19 eq_refl) eq_refl).
Defined.

(** The default window length, 19, is accepted. *)
Lemma init_default_length (p : params) :
  p_sequence_length p = None ->
  exists self, init p = Ok self /\ sequence_length self = 19.
Proof. intros Hn. unfold init. rewrite Hn. cbn. eauto. Qed.

(** ** The appliance parameter store *)

(** The floor itself: a computed std below 1 is never stored. *)
Lemma appliance_stats_floor (l : frame) :
  F64.ltb (np_std (concat l)) (F64.of_Z 1) = true ->
  appliance_stats l
  = {| mean_entry := NpFloat64 (np_mean (concat l));
       std_entry := PyNumber (F64.of_Z 100) |}.
Proof. intros Hlt. unfold appliance_stats. cbn [value]. by rewrite Hlt. Qed.

(** A computed std that is not below 1 is stored as it is. *)
Lemma appliance_stats_kept (l : frame) :
  F64.ltb (np_std (concat l)) (F64.of_Z 1) = false ->
  appliance_stats l
  = {| mean_entry := NpFloat64 (np_mean (concat l));
       std_entry := NpFloat64 (np_std (concat l)) |}.
Proof. intros Hlt. unfold appliance_stats. cbn [value]. by rewrite Hlt. Qed.

(** The summation does not depend on the fuel, once there is enough. *)
Lemma pairwise_sum_fuel (fuel : nat) (a : list float64) :
  (length a <= fuel)%nat -> pairwise_sum fuel a = pairwise_sum (length a) a.
Proof.
  assert (Hgen : forall f1 f2 (b : list float64),
             (length b <= f1)%nat -> (length b <= f2)%nat ->
             pairwise_sum f1 b = pairwise_sum f2 b).
  { induction f1 as [|f1 IH]; intros f2 b H1 H2.
    - destruct b; [| cbn in H1; lia]. by destruct f2.
    - destruct f2 as [|f2].
      + destruct b; [| cbn in H2; lia]. done.
      + cbn [pairwise_sum].
        destruct (Nat.ltb_spec (length b) 8) as [|H8]; [done |].
        destruct (Nat.leb_spec (length b) 128) as [|H128]; [done |].
        pose proof (Nat.Div0.mod_le (length b / 2) 8) as Hmod.
        pose proof (Nat.mod_upper_bound (length b / 2) 8 ltac:(lia)) as Hlt.
        pose proof (Nat.Div0.div_lt_upper_bound (length b) 2 (length b) ltac:(lia)) as Hhalf.
        assert (64 <= length b / 2)%nat as Hge.
        { apply Nat.div_le_lower_bound; lia. }
        f_equal; apply IH; rewrite ?length_take, ?length_drop; lia. }
  intros Hle. by apply Hgen.
Qed.

(** The summation is NumPy's pairwise one: the mean of ten readings 0.1 is
    0.1 (adding them one after the other gives the number below it). *)
Lemma np_mean_pairwise :
  let tenth := S754_finite false 7205759403792794 (-56) in
  np_mean (replicate 10 tenth) = tenth
  /\ F64.div (foldl F64.add F64.zero (replicate 10 tenth)) (F64.of_Z 10)
     = S754_finite false 7205759403792793 (-56).
Proof. by vm_compute. Qed.

(** Readings whose computed std is exactly 1 keep it: five times 2.4 and
    0.4. *)
Lemma appliance_stats_std_one :
  let high := S754_finite false 5404319552844595 (-51) in
  let low := S754_finite false 7205759403792794 (-54) in
  let l := (fun v => [v]) <$> concat (replicate 5 [high; low]) in
  np_std (concat l) = F64.of_Z 1
  /\ std_entry (appliance_stats l) = NpFloat64 (F64.of_Z 1).
Proof. by vm_compute. Qed.

(** An appliance that is not in the list keeps its entry. *)
Lemma set_appliance_params_other store train_appliances r store' app_name :
  set_appliance_params store train_appliances = (r, store') ->
  app_name ∉ train_appliances.*1 ->
  store' !! app_name = store !! app_name.
Proof.
  revert store. induction train_appliances as [|[k dfs] rest IH]; intros store Hrun Hnot.
  - by inversion Hrun.
  - cbn in Hrun. apply not_elem_of_cons in Hnot as [Hne Hnot]. cbn in Hne.
    destruct (pd_concat dfs) as [l|e]; [| by inversion Hrun].
    rewrite (IH _ Hrun Hnot). by rewrite lookup_insert_ne.
Qed.

Lemma set_appliance_params_stored store train_appliances store' app_name df_list :
  set_appliance_params store train_appliances = (Ok (), store') ->
  NoDup train_appliances.*1 ->
  (app_name, df_list) ∈ train_appliances ->
  exists l, pd_concat df_list = Ok l /\ store' !! app_name = Some (appliance_stats l).
Proof.
  revert store. induction train_appliances as [|[k dfs] rest IH]; intros store Hrun Hnd Hin.
  - by apply elem_of_nil in Hin.
  - cbn in Hrun. cbn in Hnd. apply NoDup_cons in Hnd as [Hk Hnd].
    destruct (pd_concat dfs) as [l|e] eqn:Hc.
    + apply elem_of_cons in Hin as [Heq | Hin].
      * inversion Heq; subst k dfs. exists l. split; [done |].
        rewrite (set_appliance_params_other _ _ _ _ _ Hrun Hk).
        by rewrite lookup_insert_eq.
      * eauto.
    + inversion Hrun.
Qed.

(** C5: an appliance whose readings, one column of values, have a computed
    standard deviation below 1 is stored with the integer 100 as std and the
    computed mean; readings [10, 10, 10] are stored as mean 10, std 100. *)
Theorem std_floor :
  (forall store train_appliances store' app_name df_list l,
     set_appliance_params store train_appliances = (Ok (), store') ->
     NoDup train_appliances.*1 ->
     (app_name, df_list) ∈ train_appliances ->
     pd_concat df_list = Ok l ->
     Forall (fun row => length row = 1%nat) l ->
     F64.ltb (np_std (concat l)) (F64.of_Z 1) = true ->
     store' !! app_name
     = Some {| mean_entry := NpFloat64 (np_mean (concat l));
               std_entry := PyNumber (F64.of_Z 100) |})
  /\ (forall app_name,
        np_std (concat (column [10; 10; 10])) = F64.of_Z 0
        /\ set_appliance_params ∅ [(app_name, [column [10; 10; 10]])]
           = (Ok (), {[ app_name := {| mean_entry := NpFloat64 (F64.of_Z 10);
                                       std_entry := PyNumber (F64.of_Z 100) |} ]})).
Proof.
  split.
  - intros store train_appliances store' app_name df_list l Hrun Hnd Hin Hc _ Hlt.
    destruct (set_appliance_params_stored _ _ _ _ _ Hrun Hnd Hin) as (l' & Hc' & ->).
    rewrite Hc in Hc'. inversion Hc'; subst l'. by rewrite appliance_stats_floor.
  - intros app_name. split; [by vm_compute |].
    cbn [set_appliance_params]. 
    replace (pd_concat [column [10; 10; 10]]) with (Ok (column [10; 10; 10])) by (by vm_compute).
    replace (appliance_stats (column [10; 10; 10]))
      with {| mean_entry := NpFloat64 (F64.of_Z 10);
              std_entry := PyNumber (F64.of_Z 100) |} by (by vm_compute).
    reflexivity.
Qed.

Lemma std_floor_witness :
  (set_appliance_params ∅ example_appliances).2 !! "fridge"
  = Some {| mean_entry := NpFloat64 (np_mean (concat (column [7; 8; 7; 8])));
            std_entry := PyNumber (F64.of_Z 100) |}.
Proof.
  refine (proj1 std_floor ∅ example_appliances _ "fridge"
            [column [7; 8]; column [7; 8]] (column [7; 8; 7; 8]) _ _ _ _ _ _).
  - vm_compute. reflexivity.
  - compute_done.
  - repeat constructor.
  - vm_compute. reflexivity.
  - repeat constructor.
  - vm_compute. reflexivity.
Defined.

(** ** Normalization and its inverse *)

(** *** Rounding in the executable specification of IEEE 754 *)

Lemma digits2_pos_size p : digits2_pos p = Pos.size p.
Proof. induction p as [p IH|p IH|]; cbn; by rewrite ?IH. Qed.

(** The number of binary digits of a non-negative integer. *)
Lemma Zdigits2_bounds z :
  0 <= z -> 0 <= Zdigits2 z /\ z < 2 ^ Zdigits2 z
            /\ (0 < z -> 2 ^ (Zdigits2 z - 1) <= z).
Proof.
  intros Hz. destruct z as [|p|p]; [cbn; lia | | lia].
  cbn [Zdigits2]. rewrite digits2_pos_size.
  pose proof (Pos.size_gt p) as Hgt. pose proof (Pos.size_le p) as Hle.
  split; [lia |]. split.
  - apply Pos2Z.pos_lt_pos in Hgt. by rewrite Pos2Z.inj_pow in Hgt.
  - intros _. apply Pos2Z.pos_le_pos in Hle. rewrite Pos2Z.inj_pow in Hle.
    replace (Z.pos (Pos.size p)) with (Z.pos (Pos.size p) - 1 + 1) in Hle by lia.
    rewrite Z.pow_add_r in Hle by lia. change (Z.pos p~0) with (2 * Z.pos p) in Hle.
    lia.
Qed.

Lemma Zdigits2_le z k : 0 <= z -> 0 <= k -> z < 2 ^ k -> Zdigits2 z <= k.
Proof.
  intros Hz Hk Hlt. destruct (Z.eq_dec z 0) as [->|Hne]; [cbn; lia |].
  destruct (Zdigits2_bounds z Hz) as (Hd & _ & Hlow). specialize (Hlow ltac:(lia)).
  destruct (Z.le_gt_cases (Zdigits2 z) k) as [|Hgt]; [done |].
  assert (2 ^ k <= 2 ^ (Zdigits2 z - 1)) by (apply Z.pow_le_mono_r; lia). lia.
Qed.

Section Rounding.
Variables prec emax : Z.

Local Abbreviation fexp := (fexp prec emax).
Local Abbreviation emin := (emin prec emax).

Lemma fexp_mono a b : a <= b -> fexp a <= fexp b.
Proof. unfold SpecFloat.fexp. lia. Qed.

Lemma fexp_succ a : fexp (a + 1) <= fexp a + 1.
Proof. unfold SpecFloat.fexp. lia. Qed.

Lemma shr_1_located N D mrs : located N D mrs -> located N (2 * D) (shr_1 mrs).
Proof.
  destruct mrs as [m r s]. intros (HD & HN & Hm & Hloc). cbn in Hm, Hloc.
  pose proof (Z.div_mod N D ltac:(lia)) as Hdm.
  pose proof (Z.mod_pos_bound N D HD) as Hrem.
  set (q := N / D) in *. set (rem := N mod D) in *.
  assert (forall m' b, m = 2 * m' + b -> 0 <= b < 2 ->
            N / (2 * D) = m' /\ N mod (2 * D) = b * D + rem) as Hsplit.
  { intros m' b Hmb Hb.
    assert (N = (2 * D) * m' + (b * D + rem)) as HNeq by nia.
    assert (0 <= b * D + rem < 2 * D) as Hbound by nia.
    split.
    - symmetry. apply (Z.div_unique N (2 * D) m' (b * D + rem)); [lia | exact HNeq].
    - symmetry. apply (Z.mod_unique N (2 * D) m' (b * D + rem)); [lia | exact HNeq]. }
  assert (0 <= m) as Hm0 by (subst m; apply Z.div_pos; lia).
  unfold located.
  destruct m as [|[p|p|]|p]; try lia; cbn [shr_1 shr_m shr_r shr_s].
  - destruct (Hsplit 0 0 ltac:(lia) ltac:(lia)) as [-> ->].
    split; [lia |]. split; [lia |]. split; [done |].
    destruct r, s; cbn; lia.
  - destruct (Hsplit (Z.pos p) 1 ltac:(lia) ltac:(lia)) as [-> ->].
    split; [lia |]. split; [lia |]. split; [done |].
    destruct r, s; cbn; lia.
  - destruct (Hsplit (Z.pos p) 0 ltac:(lia) ltac:(lia)) as [-> ->].
    split; [lia |]. split; [lia |]. split; [done |].
    destruct r, s; cbn; lia.
  - destruct (Hsplit 0 1 ltac:(lia) ltac:(lia)) as [-> ->].
    split; [lia |]. split; [lia |]. split; [done |].
    destruct r, s; cbn; lia.
Qed.

Lemma pow2_xO p : 2 ^ Z.pos p~0 = 2 ^ Z.pos p * 2 ^ Z.pos p.
Proof. rewrite <- Z.pow_add_r by lia. f_equal. lia. Qed.

Lemma pow2_xI p : 2 ^ Z.pos p~1 = 2 ^ Z.pos p * (2 ^ Z.pos p * 2).
Proof.
  replace (Z.pos p~1) with (Z.pos p + (Z.pos p + 1)) by lia.
  rewrite !Z.pow_add_r by lia. done.
Qed.

Lemma iter_pos_located N p : forall D mrs,
  located N D mrs -> located N (2 ^ Z.pos p * D) (SpecFloat.iter_pos shr_1 p mrs).
Proof.
  induction p as [p IH|p IH|]; intros D mrs Hl; cbn [SpecFloat.iter_pos].
  - apply shr_1_located in Hl. apply IH in Hl. apply IH in Hl.
    replace (2 ^ Z.pos p~1 * D) with (2 ^ Z.pos p * (2 ^ Z.pos p * (2 * D))); [done |].
    rewrite pow2_xI. ring.
  - apply IH in Hl. apply IH in Hl.
    replace (2 ^ Z.pos p~0 * D) with (2 ^ Z.pos p * (2 ^ Z.pos p * D)); [done |].
    rewrite pow2_xO. ring.
  - apply shr_1_located in Hl. by replace (2 ^ 1 * D) with (2 * D) by done.
Qed.

(** A shift to the right keeps the fraction and moves the exponent. *)
Lemma shr_located N D mrs e n :
  located N D mrs ->
  let r := shr mrs e n in
  e <= r.2 /\ located N (2 ^ (r.2 - e) * D) r.1
  /\ (0 < n -> r.2 = e + n) /\ (n <= 0 -> r = (mrs, e)).
Proof.
  intros Hl. destruct n as [|p|p]; cbn.
  - rewrite Z.sub_diag, Z.pow_0_r, Z.mul_1_l.
    split; [lia |]. split; [done |]. split; [lia | done].
  - replace (e + Z.pos p - e) with (Z.pos p) by lia.
    split; [lia |]. split; [by apply iter_pos_located |]. split; [done | lia].
  - rewrite Z.sub_diag, Z.pow_0_r, Z.mul_1_l.
    split; [lia |]. split; [done |]. split; [lia | done].
Qed.

Lemma round_nearest_even_located N D mrs :
  located N D mrs ->
  let m1 := round_nearest_even (shr_m mrs) (loc_of_shr_record mrs) in
  2 * Z.abs (m1 * D - N) <= D /\ (m1 = shr_m mrs \/ m1 = shr_m mrs + 1).
Proof.
  destruct mrs as [m r s]. intros (HD & HN & Hm & Hloc). cbn in Hm, Hloc |- *.
  pose proof (Z.div_mod N D ltac:(lia)) as Hdm.
  pose proof (Z.mod_pos_bound N D HD) as Hrem.
  rewrite <- Hm in Hdm.
  destruct r, s; cbn [loc_of_shr_record round_nearest_even].
  - split; [nia | by right].
  - destruct (Z.even m); [split; [nia | by left] | split; [nia | by right]].
  - split; [nia | by left].
  - split; [nia | by left].
Qed.

Lemma shr_record_of_loc_m m l : shr_m (shr_record_of_loc m l) = m.
Proof. by destruct l as [|[]]. Qed.

(** The second shift of [binary_round_aux] loses nothing: it is made only
    when rounding up has reached the next power of two. *)
Lemma second_shift m1 m' e' :
  0 < prec -> 0 <= m' -> fexp (Zdigits2 m' + e') <= e' ->
  m1 = m' \/ m1 = m' + 1 ->
  let r := shr_fexp prec emax m1 e' loc_Exact in
  e' <= r.2 /\ shr_m r.1 * 2 ^ (r.2 - e') = m1.
Proof.
  intros prec_pos Hm' HP1 Hm1. cbv zeta. unfold shr_fexp.
  set (n2 := fexp (Zdigits2 m1 + e') - e').
  assert (0 <= m1) as Hm1pos by lia.
  assert (n2 <= 0 \/ (n2 = 1 /\ Z.even m1 = true)) as Hn2.
  { destruct Hm1 as [-> | ->]; [left; subst n2; lia |].
    destruct (Zdigits2_bounds m' Hm') as (Hd0 & Hlt & _).
    destruct (Z.eq_dec (m' + 1) (2 ^ Zdigits2 m')) as [Heq|Hne].
    - assert (Zdigits2 (m' + 1) <= Zdigits2 m' + 1) as Hd1.
      { apply Zdigits2_le; [lia | lia |]. rewrite Heq. apply Z.pow_lt_mono_r; lia. }
      pose proof (fexp_mono _ _ (Zplus_le_compat_r _ _ e' Hd1)) as Hf1.
      pose proof (fexp_succ (Zdigits2 m' + e')) as Hf2.
      replace (Zdigits2 m' + 1 + e') with (Zdigits2 m' + e' + 1) in Hf1 by lia.
      destruct (Z.le_gt_cases n2 0) as [|Hgt]; [by left |]. right.
      split; [subst n2; lia |].
      destruct (Z.eq_dec (Zdigits2 m') 0) as [Hz|Hnz].
      + exfalso. rewrite Hz in Heq, HP1. cbn in Heq. assert (m' = 0) as -> by lia.
        cbn in Hgt. subst n2. cbn in Hgt.
        unfold SpecFloat.fexp in *. lia.
      + rewrite Heq. rewrite Z.even_pow by lia. done.
    - left. assert (Zdigits2 (m' + 1) <= Zdigits2 m') as Hd1.
      { apply Zdigits2_le; lia. }
      pose proof (fexp_mono _ _ (Zplus_le_compat_r _ _ e' Hd1)). subst n2. lia. }
  assert (located m1 1 (shr_record_of_loc m1 loc_Exact)) as Hl.
  { cbn. unfold located. cbn. rewrite Z.div_1_r, Z.mod_1_r. lia. }
  destruct Hn2 as [Hle | [-> Heven]].
  - destruct (shr_located m1 1 _ e' n2 Hl) as (_ & _ & _ & Heq).
    rewrite (Heq Hle). cbn. rewrite Z.sub_diag, Z.pow_0_r. lia.
  - cbn [shr SpecFloat.iter_pos fst snd].
    apply shr_1_located in Hl. destruct Hl as (_ & _ & Hm & _).
    rewrite Hm. replace (e' + 1 - e') with 1 by lia.
    split; [lia |]. change (2 * 1) with 2. change (2 ^ 1) with 2.
    apply Z.even_spec in Heven as [k ->].
    assert (2 * k / 2 = k) as -> by (rewrite (Z.mul_comm 2 k); apply Z.div_mul; lia).
    lia.
Qed.

(** After the first shift the exponent is the one the format gives to the
    truncated mantissa, or larger. *)
Lemma first_shift mx ex lx N D :
  0 < prec ->
  located N D (shr_record_of_loc mx lx) ->
  let r := shr (shr_record_of_loc mx lx) ex (fexp (Zdigits2 mx + ex) - ex) in
  fexp (Zdigits2 (shr_m r.1) + r.2) <= r.2.
Proof.
  intros prec_pos Hloc. cbv zeta.
  pose proof Hloc as (HD & HN & Hmx & _). rewrite shr_record_of_loc_m in Hmx.
  assert (0 <= mx) as Hmx0 by (rewrite Hmx; apply Z.div_pos; lia).
  set (n1 := fexp (Zdigits2 mx + ex) - ex) in *.
  destruct (shr_located N D _ ex n1 Hloc) as (He1 & Hl1 & Hpos1 & Hneg1).
  destruct (Z.le_gt_cases n1 0) as [Hle|Hgt].
  - rewrite (Hneg1 Hle). cbn [fst snd]. rewrite shr_record_of_loc_m. subst n1. lia.
  - specialize (Hpos1 Hgt). destruct Hl1 as (_ & _ & Hm' & _).
    rewrite Hm', Hpos1. replace (ex + n1 - ex) with n1 by lia.
    destruct (Zdigits2_bounds mx Hmx0) as (Hd0 & Hlt & _).
    assert (0 < 2 ^ n1) by (apply Z.pow_pos_nonneg; lia).
    assert (N < 2 ^ Zdigits2 mx * D) as HNlt.
    { pose proof (Z.div_mod N D ltac:(lia)) as Hdm. rewrite <- Hmx in Hdm.
      pose proof (Z.mod_pos_bound N D HD). nia. }
    assert (0 <= N / (2 ^ n1 * D)) by (apply Z.div_pos; nia).
    destruct (Z.le_gt_cases n1 (Zdigits2 mx)) as [Hdn|Hdn].
    + assert (Zdigits2 (N / (2 ^ n1 * D)) <= Zdigits2 mx - n1) as Hdig.
      { apply Zdigits2_le; [done | lia |].
        apply Z.div_lt_upper_bound; [nia |].
        replace (2 ^ n1 * D * 2 ^ (Zdigits2 mx - n1)) with (2 ^ Zdigits2 mx * D);
          [done |].
        replace (Zdigits2 mx) with (n1 + (Zdigits2 mx - n1)) at 1 by lia.
        rewrite Z.pow_add_r by lia. ring. }
      pose proof (fexp_mono _ _ (Zplus_le_compat_r _ _ (ex + n1) Hdig)) as Hf.
      replace (Zdigits2 mx - n1 + (ex + n1)) with (Zdigits2 mx + ex) in Hf by lia.
      subst n1. lia.
    + assert (N / (2 ^ n1 * D) = 0) as ->.
      { apply Z.div_small. split; [done |].
        assert (2 ^ Zdigits2 mx <= 2 ^ n1) by (apply Z.pow_le_mono_r; lia). nia. }
      cbn [Zdigits2]. subst n1. unfold SpecFloat.fexp in *. lia.
Qed.

(** The error of [binary_round_aux] on a fraction, when the result is a
    normal number: at most [2 ^ - prec] of the result. *)
Lemma binary_round_aux_error sx mx ex lx N D s m e :
  0 < prec ->
  located N D (shr_record_of_loc mx lx) ->
  binary_round_aux prec emax sx mx ex lx = S754_finite s m e ->
  Z.pos (digits2_pos m) = prec ->
  s = sx /\ ex <= e
  /\ 2 ^ prec * Z.abs (Z.pos m * 2 ^ (e - ex) * D - N) <= Z.pos m * 2 ^ (e - ex) * D.
Proof.
  intros prec_pos Hloc Hround Hnormal. unfold binary_round_aux in Hround.
  pose proof Hloc as (HD & HN & Hmx & _). rewrite shr_record_of_loc_m in Hmx.
  assert (0 <= mx) as Hmx0 by (rewrite Hmx; apply Z.div_pos; lia).
  pose proof (first_shift mx ex lx N D prec_pos Hloc) as HP1. cbv zeta in HP1.
  unfold shr_fexp at 1 in Hround.
  set (n1 := fexp (Zdigits2 mx + ex) - ex) in *.
  destruct (shr_located N D _ ex n1 Hloc) as (He1 & Hl1 & Hpos1 & Hneg1).
  destruct (shr (shr_record_of_loc mx lx) ex n1) as [mrs' e']. cbn [fst snd] in *.
  pose proof (round_nearest_even_located _ _ _ Hl1) as [Herr Hm1].
  set (m1 := round_nearest_even (shr_m mrs') (loc_of_shr_record mrs')) in *.
  assert (0 <= shr_m mrs') as Hm'0.
  { destruct Hl1 as (? & ? & -> & _). apply Z.div_pos; lia. }
  destruct (second_shift m1 (shr_m mrs') e' prec_pos Hm'0 HP1 Hm1) as [He2 Hexact].
  destruct (shr_fexp prec emax m1 e' loc_Exact) as [mrs'' e'']. cbn [fst snd] in *.
  destruct (shr_m mrs'') as [|m''|m''] eqn:Hm''; [done | | done].
  destruct (e'' <=? emax - prec); [| done].
  injection Hround as <- <- <-.
  split; [done |]. split; [lia |].
  destruct (Zdigits2_bounds (Z.pos m'') ltac:(lia)) as (_ & _ & Hlow).
  specialize (Hlow ltac:(lia)). cbn [Zdigits2] in Hlow. rewrite Hnormal in Hlow.
  replace (e'' - ex) with ((e'' - e') + (e' - ex)) by lia.
  rewrite Z.pow_add_r by lia.
  set (D' := 2 ^ (e' - ex) * D) in *.
  assert (0 < D') by (destruct Hl1 as (? & _); done).
  replace (Z.pos m'' * (2 ^ (e'' - e') * 2 ^ (e' - ex)) * D) with (m1 * D')
    by (rewrite <- Hexact; subst D'; ring).
  assert (2 ^ prec = 2 * 2 ^ (prec - 1)) as ->.
  { replace prec with (1 + (prec - 1)) at 1 by lia. by rewrite Z.pow_add_r by lia. }
  assert (0 < 2 ^ (e'' - e')) by (apply Z.pow_pos_nonneg; lia).
  assert (0 < 2 ^ (prec - 1)) by (apply Z.pow_pos_nonneg; lia).
  assert (2 ^ (prec - 1) <= m1) by nia.
  nia.
Qed.
(** A fraction that rounds to zero is at most half of the unit of the first
    shift. *)
Lemma binary_round_aux_zero sx mx ex lx N D s :
  0 < prec ->
  located N D (shr_record_of_loc mx lx) ->
  binary_round_aux prec emax sx mx ex lx = S754_zero s ->
  2 * N <= 2 ^ Z.max 0 (fexp (Zdigits2 mx + ex) - ex) * D.
Proof.
  intros prec_pos Hloc Hround. unfold binary_round_aux in Hround.
  pose proof Hloc as (HD & HN & Hmx & _). rewrite shr_record_of_loc_m in Hmx.
  pose proof (first_shift mx ex lx N D prec_pos Hloc) as HP1. cbv zeta in HP1.
  unfold shr_fexp at 1 in Hround.
  set (n1 := fexp (Zdigits2 mx + ex) - ex) in *.
  destruct (shr_located N D _ ex n1 Hloc) as (He1 & Hl1 & Hpos1 & Hneg1).
  assert ((shr (shr_record_of_loc mx lx) ex n1).2 - ex = Z.max 0 n1) as Hexp.
  { destruct (Z.le_gt_cases n1 0) as [Hle|Hgt].
    - rewrite (Hneg1 Hle). cbn [snd]. lia.
    - rewrite (Hpos1 Hgt). lia. }
  destruct (shr (shr_record_of_loc mx lx) ex n1) as [mrs' e']. cbn [fst snd] in *.
  pose proof (round_nearest_even_located _ _ _ Hl1) as [Herr Hm1].
  set (m1 := round_nearest_even (shr_m mrs') (loc_of_shr_record mrs')) in *.
  assert (0 <= shr_m mrs') as Hm'0.
  { destruct Hl1 as (? & ? & -> & _). apply Z.div_pos; lia. }
  destruct (second_shift m1 (shr_m mrs') e' prec_pos Hm'0 HP1 Hm1) as [He2 Hexact].
  destruct (shr_fexp prec emax m1 e' loc_Exact) as [mrs'' e'']. cbn [fst snd] in *.
  destruct (shr_m mrs'') as [|m''|m''] eqn:Hm''; [| by destruct (e'' <=? emax - prec) | done].
  rewrite Hexp in Herr. lia.
Qed.

(** The exponent of a finite result is at least the smallest one. *)
Lemma binary_round_aux_emin sx mx ex lx s m e :
  binary_round_aux prec emax sx mx ex lx = S754_finite s m e -> emin <= e.
Proof.
  unfold binary_round_aux. intros Hround.
  unfold shr_fexp at 1 in Hround.
  set (n1 := fexp (Zdigits2 mx + ex) - ex) in *.
  assert (emin <= (shr (shr_record_of_loc mx lx) ex n1).2) as He1.
  { subst n1. unfold SpecFloat.fexp.
    destruct (Z.max (Zdigits2 mx + ex - prec) emin - ex) as [|p|p] eqn:En;
      cbn [shr snd]; lia. }
  destruct (shr (shr_record_of_loc mx lx) ex n1) as [mrs' e']. cbn [fst snd] in *.
  unfold shr_fexp in Hround.
  set (m1 := round_nearest_even (shr_m mrs') (loc_of_shr_record mrs')) in *.
  set (n2 := fexp (Zdigits2 m1 + e') - e') in *.
  assert (e' <= (shr (shr_record_of_loc m1 loc_Exact) e' n2).2) as He2.
  { destruct n2 as [|p|p]; cbn [shr snd]; lia. }
  destruct (shr (shr_record_of_loc m1 loc_Exact) e' n2) as [mrs'' e''].
  cbn [fst snd] in *.
  destruct (shr_m mrs'') as [|m''|m'']; [done | | done].
  destruct (e'' <=? emax - prec); [| done].
  injection Hround as <- <- <-. lia.
Qed.
End Rounding.

(** *** The relative error of one operation *)

Lemma inject_Z_sub (x y : Z) : inject_Z (x - y) = (inject_Z x - inject_Z y)%Q.
Proof. unfold Z.sub, Qminus. by rewrite inject_Z_plus, inject_Z_opp. Qed.

Lemma Qpow2_pos (e : Z) : (0 < 2 ^ e)%Q.
Proof. apply Qpower_0_lt. reflexivity. Qed.

Lemma Qpow2_add (a b : Z) : (2 ^ (a + b) == 2 ^ a * 2 ^ b)%Q.
Proof. apply Qpower_plus. discriminate. Qed.

Lemma Qpow2_inject (k : Z) : 0 <= k -> (inject_Z (2 ^ k) == 2 ^ k)%Q.
Proof. intros Hk. by rewrite Zpower_Qpower. Qed.

(** From the integers to the rationals: the rounding error at exponent
    [ex] of a fraction [N / D]. *)
Lemma round_error_Q (s : bool) (m : positive) (e ex N D : Z) :
  0 < D -> 0 <= N -> ex <= e ->
  2 ^ 53 * Z.abs (Z.pos m * 2 ^ (e - ex) * D - N) <= Z.pos m * 2 ^ (e - ex) * D ->
  (Qabs (F2Q (S754_finite s m e)
         - inject_Z (cond_Zopp s N) / inject_Z D * 2 ^ ex)
   <= u64 * Qabs (F2Q (S754_finite s m e)))%Q.
Proof.
  intros HD HN He Hz. cbn [F2Q].
  set (A := Z.pos m * 2 ^ (e - ex) * D) in *.
  assert (0 < 2 ^ (e - ex)) as HP by (apply Z.pow_pos_nonneg; lia).
  assert (0 < A) as HA by (subst A; nia).
  set (c := (2 ^ ex / inject_Z D)%Q).
  assert (0 < inject_Z D)%Q as HDq.
  { change (inject_Z 0 < inject_Z D)%Q. by rewrite <- Zlt_Qlt. }
  assert (0 < c)%Q as Hc.
  { subst c. apply Qlt_shift_div_l; [done |]. rewrite Qmult_0_l. apply Qpow2_pos. }
  assert (inject_Z (cond_Zopp s (Z.pos m)) * 2 ^ e
          == c * inject_Z (cond_Zopp s A))%Q as ->.
  { subst c A. replace e with ((e - ex) + ex) at 1 by lia.
    rewrite Qpow2_add, <- (Qpow2_inject (e - ex)) by lia.
    destruct s; cbn [cond_Zopp]; rewrite ?inject_Z_opp, !inject_Z_mult; field; lra. }
  assert (inject_Z (cond_Zopp s N) / inject_Z D * 2 ^ ex
          == c * inject_Z (cond_Zopp s N))%Q as ->.
  { subst c. field. lra. }
  assert (forall z : Z, (Qabs (inject_Z (cond_Zopp s z)) == Qabs (inject_Z z))%Q) as Habs.
  { intros z. destruct s; cbn [cond_Zopp]; [| reflexivity].
    rewrite inject_Z_opp. apply Qabs_opp. }
  assert (c * inject_Z (cond_Zopp s A) - c * inject_Z (cond_Zopp s N)
          == c * inject_Z (cond_Zopp s (A - N)))%Q as ->.
  { destruct s; cbn [cond_Zopp]; rewrite ?inject_Z_opp, ?inject_Z_sub; ring. }
  rewrite !Qabs_Qmult, !Habs, (Qabs_pos c) by lra.
  assert (Qabs (inject_Z (A - N)) <= u64 * Qabs (inject_Z A))%Q as Hq.
  { rewrite (Qabs_pos (inject_Z A)).
    2: { change (inject_Z 0 <= inject_Z A)%Q. rewrite <- Zle_Qle. lia. }
    apply Qabs_Qle_condition.
    assert (2 ^ 53 * (A - N) <= A) as H1 by lia.
    assert (2 ^ 53 * (N - A) <= A) as H2 by lia.
    rewrite Zle_Qle in H1, H2. rewrite inject_Z_mult, inject_Z_sub in H1, H2.
    change (inject_Z (2 ^ 53)) with (9007199254740992 # 1)%Q in H1, H2.
    rewrite inject_Z_sub. unfold u64. split; lra. }
  assert (u64 * (c * Qabs (inject_Z A)) == c * (u64 * Qabs (inject_Z A)))%Q as ->
    by ring.
  apply Qmult_le_l; done.
Qed.

Lemma located_exact (N : Z) : 0 <= N -> located N 1 (shr_record_of_loc N loc_Exact).
Proof. intros HN. unfold located. cbn. rewrite Z.div_1_r, Z.mod_1_r. lia. Qed.

Lemma is_normal_finite r :
  is_normal r = true ->
  exists s m e, r = S754_finite s m e /\ Z.pos (digits2_pos m) = 53.
Proof.
  destruct r as [| | |s m e]; try done. unfold is_normal. intros H%Z.eqb_eq.
  by exists s, m, e.
Qed.

(** The product. *)
Lemma mul_error (x y : spec_float) :
  is_normal (SFmul 53 1024 x y) = true ->
  (Qabs (F2Q (SFmul 53 1024 x y) - F2Q x * F2Q y)
   <= u64 * Qabs (F2Q (SFmul 53 1024 x y)))%Q.
Proof.
  intros Hn. destruct x as [sx|sx| |sx mx ex], y as [sy|sy| |sy my ey]; try done.
  cbn [SFmul] in *.
  destruct (is_normal_finite _ Hn) as (s & m & e & Hr & Hd). rewrite Hr.
  assert (0 < 53) as Hp by lia.
  assert (0 <= Z.pos (mx * my)) as HN by lia.
  destruct (binary_round_aux_error 53 1024 _ _ _ _ (Z.pos (mx * my)) 1 s m e
              Hp (located_exact _ HN) Hr Hd) as (-> & He & Hz).
  assert (0 < 1) as H1 by lia.
  pose proof (round_error_Q (xorb sx sy) m e (ex + ey) (Z.pos (mx * my)) 1
                H1 HN He Hz) as Hq.
  assert (F2Q (S754_finite sx mx ex) * F2Q (S754_finite sy my ey)
          == inject_Z (cond_Zopp (xorb sx sy) (Z.pos (mx * my))) / inject_Z 1
             * 2 ^ (ex + ey))%Q as ->; [| done].
  cbn [F2Q]. rewrite Qpow2_add, Pos2Z.inj_mul.
  destruct sx, sy; cbn [xorb cond_Zopp]; rewrite ?inject_Z_opp, inject_Z_mult;
    change (inject_Z 1) with 1%Q; field.
Qed.

Lemma iter_xO (mx d : positive) : Z.pos (Pos.iter xO mx d) = Z.pos mx * 2 ^ Z.pos d.
Proof.
  induction d as [|d IH] using Pos.peano_ind.
  - cbn. lia.
  - rewrite Pos.iter_succ, Pos2Z.inj_xO, IH, Pos2Z.inj_succ, Z.pow_succ_r by lia. ring.
Qed.

(** Aligning a mantissa to a smaller exponent keeps the value. *)
Lemma shl_align_value (mx : positive) (ex ez : Z) :
  let r := shl_align mx ex ez in
  r.2 = Z.min ex ez /\ Z.pos r.1 = Z.pos mx * 2 ^ (ex - r.2).
Proof.
  cbv zeta. unfold shl_align. destruct (ez - ex) as [|d|d] eqn:E; cbn [fst snd].
  - split; [lia |]. rewrite Z.sub_diag. lia.
  - split; [lia |]. rewrite Z.sub_diag. lia.
  - split; [lia |]. rewrite iter_xO. f_equal. f_equal. lia.
Qed.

Lemma binary_round_error (s : bool) (p : positive) (ez : Z) :
  is_normal (binary_round 53 1024 s p ez) = true ->
  (Qabs (F2Q (binary_round 53 1024 s p ez) - inject_Z (cond_Zopp s (Z.pos p)) * 2 ^ ez)
   <= u64 * Qabs (F2Q (binary_round 53 1024 s p ez)))%Q.
Proof.
  intros Hn. unfold binary_round in *.
  pose proof (shl_align_value p ez (fexp 53 1024 (Z.pos (digits2_pos p) + ez)))
    as [He' Hm'].
  destruct (shl_align p ez _) as [mz ez']. cbn [fst snd] in *.
  destruct (is_normal_finite _ Hn) as (s' & m & e & Hr & Hd). rewrite Hr.
  assert (0 < 53) as Hp by lia.
  assert (0 <= Z.pos mz) as HN by lia.
  destruct (binary_round_aux_error 53 1024 _ _ _ _ (Z.pos mz) 1 s' m e
              Hp (located_exact _ HN) Hr Hd) as (-> & He & Hz).
  assert (0 < 1) as H1 by lia.
  pose proof (round_error_Q s m e ez' (Z.pos mz) 1 H1 HN He Hz) as Hq.
  assert (inject_Z (cond_Zopp s (Z.pos p)) * 2 ^ ez
          == inject_Z (cond_Zopp s (Z.pos mz)) / inject_Z 1 * 2 ^ ez')%Q as ->; [| done].
  rewrite Hm'. replace ez with ((ez - ez') + ez') at 1 by lia.
  rewrite Qpow2_add, <- (Qpow2_inject (ez - ez')) by lia.
  destruct s; cbn [cond_Zopp]; rewrite ?inject_Z_opp, inject_Z_mult;
    change (inject_Z 1) with 1%Q; field.
Qed.

Lemma binary_normalize_error (M ez : Z) :
  is_normal (binary_normalize 53 1024 M ez false) = true ->
  (Qabs (F2Q (binary_normalize 53 1024 M ez false) - inject_Z M * 2 ^ ez)
   <= u64 * Qabs (F2Q (binary_normalize 53 1024 M ez false)))%Q.
Proof.
  destruct M as [|p|p]; cbn [binary_normalize]; [done | |].
  - apply (binary_round_error false).
  - apply (binary_round_error true).
Qed.

(** The value of an aligned operand. *)
Lemma aligned_value (s : bool) (m : positive) (e ez : Z) :
  ez <= e ->
  (inject_Z (cond_Zopp s (Z.pos (shl_align m e ez).1)) * 2 ^ ez
   == F2Q (S754_finite s m e))%Q.
Proof.
  intros Hle. pose proof (shl_align_value m e ez) as [He Hm]. cbv zeta in *.
  rewrite Hm, He. replace (Z.min e ez) with ez by lia. cbn [F2Q].
  replace e with ((e - ez) + ez) at 2 by lia.
  rewrite Qpow2_add, <- (Qpow2_inject (e - ez)) by lia.
  destruct s; cbn [cond_Zopp]; rewrite ?inject_Z_opp, inject_Z_mult; ring.
Qed.

Lemma F2Q_opp s m e : (F2Q (S754_finite (negb s) m e) == - F2Q (S754_finite s m e))%Q.
Proof. cbn [F2Q]. destruct s; cbn [negb cond_Zopp]; rewrite ?inject_Z_opp; ring. Qed.

Lemma Qabs_zero_le (a : Q) : (Qabs 0 <= u64 * Qabs a)%Q.
Proof.
  change (Qabs 0) with 0%Q. apply Qmult_le_0_compat; [done | apply Qabs_nonneg].
Qed.

(** The sum and the difference. *)
Lemma add_error (x y : spec_float) :
  is_normal (SFadd 53 1024 x y) = true ->
  (Qabs (F2Q (SFadd 53 1024 x y) - (F2Q x + F2Q y))
   <= u64 * Qabs (F2Q (SFadd 53 1024 x y)))%Q.
Proof.
  intros Hn. destruct x as [sx|sx| |sx mx ex], y as [sy|sy| |sy my ey];
    try done; try (by destruct sx, sy).
  - cbn [SFadd] in *. change (F2Q (S754_zero sx)) with 0%Q.
    assert (F2Q (S754_finite sy my ey) - (0 + F2Q (S754_finite sy my ey)) == 0)%Q
      as -> by ring. apply Qabs_zero_le.
  - cbn [SFadd] in *. change (F2Q (S754_zero sy)) with 0%Q.
    assert (F2Q (S754_finite sx mx ex) - (F2Q (S754_finite sx mx ex) + 0) == 0)%Q
      as -> by ring. apply Qabs_zero_le.
  - cbn [SFadd] in *. pose proof (binary_normalize_error _ _ Hn) as Hq.
    rewrite inject_Z_plus, Qmult_plus_distr_l in Hq.
    rewrite !aligned_value in Hq by lia. done.
Qed.

Lemma sub_error (x y : spec_float) :
  is_normal (SFsub 53 1024 x y) = true ->
  (Qabs (F2Q (SFsub 53 1024 x y) - (F2Q x - F2Q y))
   <= u64 * Qabs (F2Q (SFsub 53 1024 x y)))%Q.
Proof.
  intros Hn. destruct x as [sx|sx| |sx mx ex], y as [sy|sy| |sy my ey];
    try done; try (by destruct sx, sy).
  - cbn [SFsub] in *. change (F2Q (S754_zero sx)) with 0%Q.
    assert (F2Q (S754_finite (negb sy) my ey) - (0 - F2Q (S754_finite sy my ey)) == 0)%Q
      as -> by (rewrite F2Q_opp; ring). apply Qabs_zero_le.
  - cbn [SFsub] in *. change (F2Q (S754_zero sy)) with 0%Q.
    assert (F2Q (S754_finite sx mx ex) - (F2Q (S754_finite sx mx ex) - 0) == 0)%Q
      as -> by ring. apply Qabs_zero_le.
  - cbn [SFsub] in *. pose proof (binary_normalize_error _ _ Hn) as Hq.
    rewrite inject_Z_sub in Hq.
    assert (forall a b c : Q, (a - b) * c == a * c - b * c)%Q as Hdist
      by (intros; ring).
    rewrite Hdist in Hq. rewrite !aligned_value in Hq by lia. done.
Qed.

Lemma new_location_located (N D : Z) :
  0 < D -> 0 <= N ->
  located N D (shr_record_of_loc (N / D) (new_location D (N mod D))).
Proof.
  intros HD HN. pose proof (Z.mod_pos_bound N D HD) as Hk.
  unfold located. split; [done |]. split; [done |].
  unfold new_location, new_location_even, new_location_odd.
  change IntDef.Z.even with Z.even.
  destruct (Z.even D) eqn:Hev.
  - destruct (Z.eqb_spec (N mod D) 0) as [Hz|Hz]; cbn; [lia |].
    destruct (Z.compare_spec (2 * (N mod D)) D); cbn; lia.
  - assert (Z.odd D = true) as [c Hc]%Z.odd_spec by (by rewrite <- Z.negb_even, Hev).
    destruct (Z.eqb_spec (N mod D) 0) as [Hz|Hz]; cbn; [lia |].
    destruct (Z.compare_spec (2 * (N mod D) + 1) D); cbn; lia.
Qed.

(** The quotient. *)
Lemma div_error (x y : spec_float) :
  is_normal (SFdiv 53 1024 x y) = true ->
  ~ (F2Q y == 0)%Q
  /\ (Qabs (F2Q (SFdiv 53 1024 x y) - F2Q x / F2Q y)
      <= u64 * Qabs (F2Q (SFdiv 53 1024 x y)))%Q.
Proof.
  intros Hn. destruct x as [sx|sx| |sx mx ex], y as [sy|sy| |sy my ey]; try done.
  assert (~ (F2Q (S754_finite sy my ey) == 0)%Q) as Hy.
  { cbn [F2Q]. pose proof (Qpow2_pos ey) as Hpos. intros Hz.
    apply Qmult_integral in Hz as [Hz|Hz]; [| rewrite Hz in Hpos; by apply Qlt_irrefl in Hpos].
    destruct sy; cbn [cond_Zopp] in Hz; by vm_compute in Hz. }
  split; [done |].
  cbn [SFdiv] in *. unfold SFdiv_core_binary in *. cbv zeta in *.
  set (e' := IntDef.Z.min _ _) in *.
  set (s := ex - ey - e') in *.
  assert (0 <= s) as Hs by (subst s e'; change IntDef.Z.min with Z.min; lia).
  set (m' := match s with 0 => Z.pos mx | Z.pos _ => IntDef.Z.shiftl (Z.pos mx) s
                     | Z.neg _ => 0 end) in *.
  assert (m' = Z.pos mx * 2 ^ s) as Hm'.
  { subst m'. destruct s as [|ps|ps] eqn:Es; [cbn; lia | | lia].
    change IntDef.Z.shiftl with Z.shiftl. by rewrite Z.shiftl_mul_pow2 by lia. }
  assert (0 < m') as Hm'pos by (rewrite Hm'; apply Z.mul_pos_pos; [lia | by apply Z.pow_pos_nonneg]).
  clearbody m'.
  change IntDef.Z.div_eucl with Z.div_eucl in *.
  pose proof (new_location_located m' (Z.pos my) ltac:(done) (Z.lt_le_incl _ _ Hm'pos)) as Hloc.
  unfold Z.div, Z.modulo in Hloc.
  destruct (Z.div_eucl m' (Z.pos my)) as [q r].
  destruct (is_normal_finite _ Hn) as (s' & m & e & Hr & Hd). rewrite Hr.
  assert (0 < 53) as Hp by lia.
  destruct (binary_round_aux_error 53 1024 _ _ _ _ m' (Z.pos my) s' m e
              Hp Hloc Hr Hd) as (-> & He & Hz).
  assert (0 < Z.pos my) as HD by lia.
  pose proof (round_error_Q (xorb sx sy) m e e' m' (Z.pos my)
                HD (Z.lt_le_incl _ _ Hm'pos) He Hz) as Hq.
  assert (F2Q (S754_finite sx mx ex) / F2Q (S754_finite sy my ey)
          == inject_Z (cond_Zopp (xorb sx sy) m') / inject_Z (Z.pos my) * 2 ^ e')%Q
    as ->; [| done].
  cbn [F2Q]. rewrite Hm'. replace ex with (s + e' + ey) by (subst s; lia).
  rewrite !Qpow2_add, <- (Qpow2_inject s) by lia.
  pose proof (Qpow2_pos ey) as Hey.
  assert (~ (2 ^ ey == 0)%Q) as Hey' by (intros Hz'; rewrite Hz' in Hey; by apply Qlt_irrefl in Hey).
  assert (~ (inject_Z (Z.pos my) == 0)%Q) as Hmy by (by vm_compute).
  destruct sx, sy; cbn [xorb cond_Zopp]; rewrite ?inject_Z_opp, ?inject_Z_mult;
    field; auto.
Qed.

(** *** Results that are zero *)

Lemma binary_round_nonzero (s s' : bool) (p : positive) (ez : Z) :
  emin 53 1024 <= ez ->
  binary_round 53 1024 s p ez <> S754_zero s'.
Proof.
  intros Hez Hz. unfold binary_round in Hz.
  pose proof (shl_align_value p ez (fexp 53 1024 (Z.pos (digits2_pos p) + ez)))
    as [He' _].
  destruct (shl_align p ez _) as [mz ez']. cbn [fst snd] in *.
  assert (0 < 53) as Hp by lia.
  assert (0 <= Z.pos mz) as HN by lia.
  pose proof (binary_round_aux_zero 53 1024 _ _ _ _ (Z.pos mz) 1 s'
                Hp (located_exact _ HN) Hz) as Hhalf.
  destruct (Zdigits2_bounds (Z.pos mz) HN) as (Hd0 & _ & Hlow).
  specialize (Hlow ltac:(lia)).
  assert (emin 53 1024 <= ez') as Hez'.
  { rewrite He'. unfold fexp. lia. }
  set (dz := Zdigits2 (Z.pos mz)) in *.
  destruct (Z.le_gt_cases (fexp 53 1024 (dz + ez') - ez') 0) as [Hle|Hgt].
  - rewrite Z.max_l in Hhalf by lia. cbn in Hhalf. lia.
  - rewrite Z.max_r in Hhalf by lia.
    assert (fexp 53 1024 (dz + ez') - ez' = dz - 53) as Hn by (unfold fexp in *; lia).
    rewrite Hn in Hhalf.
    assert (2 ^ (dz - 53) <= 2 ^ (dz - 1)) by (apply Z.pow_le_mono_r; lia).
    lia.
Qed.

Lemma binary_normalize_zero (M ez : Z) (s : bool) :
  emin 53 1024 <= ez ->
  binary_normalize 53 1024 M ez false = S754_zero s -> M = 0.
Proof.
  intros Hez. destruct M as [|p|p]; cbn [binary_normalize]; [done | |];
    intros Hz; by apply binary_round_nonzero in Hz.
Qed.

(** A sum that is computed as zero is zero. *)
Lemma add_zero_exact (x y : spec_float) :
  exponent_ok x -> exponent_ok y ->
  is_zero (SFadd 53 1024 x y) = true -> (F2Q x + F2Q y == 0)%Q.
Proof.
  intros Hx Hy Hz. destruct x as [sx|sx| |sx mx ex], y as [sy|sy| |sy my ey];
    try done; try (by destruct sx, sy).
  cbn [SFadd exponent_ok] in *.
  destruct (binary_normalize _ _ _ _ _) as [s| | |] eqn:Hn; try done.
  apply binary_normalize_zero in Hn; [| lia].
  rewrite <- (aligned_value sx mx ex (Z.min ex ey)) by lia.
  rewrite <- (aligned_value sy my ey (Z.min ex ey)) by lia.
  rewrite <- Qmult_plus_distr_l, <- inject_Z_plus, Hn. ring.
Qed.

Lemma sub_zero_exact (x y : spec_float) :
  exponent_ok x -> exponent_ok y ->
  is_zero (SFsub 53 1024 x y) = true -> (F2Q x - F2Q y == 0)%Q.
Proof.
  intros Hx Hy Hz. destruct x as [sx|sx| |sx mx ex], y as [sy|sy| |sy my ey];
    try done; try (by destruct sx, sy).
  cbn [SFsub exponent_ok] in *.
  destruct (binary_normalize _ _ _ _ _) as [s| | |] eqn:Hn; try done.
  apply binary_normalize_zero in Hn; [| lia].
  rewrite <- (aligned_value sx mx ex (Z.min ex ey)) by lia.
  rewrite <- (aligned_value sy my ey (Z.min ex ey)) by lia.
  assert (forall a b c : Q, a * c - b * c == (a - b) * c)%Q as -> by (intros; ring).
  rewrite <- inject_Z_sub, Hn. ring.
Qed.

Lemma valid_exponent_ok (x : spec_float) :
  valid_binary 53 1024 x = true -> exponent_ok x.
Proof.
  destruct x as [| | |s m e]; try done. cbn [valid_binary exponent_ok].
  unfold bounded, canonical_mantissa.
  intros [Hc _]%andb_prop. apply Z.eqb_eq in Hc. unfold fexp in Hc. lia.
Qed.

Lemma mul_exponent_ok (x y : spec_float) : exponent_ok (SFmul 53 1024 x y).
Proof.
  destruct x as [sx|sx| |sx mx ex], y as [sy|sy| |sy my ey]; try done.
  cbn [SFmul]. destruct (binary_round_aux _ _ _ _ _ _) as [| | |s m e] eqn:Hr; try done.
  cbn [exponent_ok]. by apply binary_round_aux_emin in Hr.
Qed.

(** *** The round trip *)

Lemma Qabs_cases (a : Q) :
  (0 <= a /\ Qabs a == a)%Q \/ (a <= 0 /\ Qabs a == - a)%Q.
Proof.
  destruct (Qlt_le_dec a 0) as [Hlt|Hle].
  - right. split; [by apply Qlt_le_weak |]. apply Qabs_neg. by apply Qlt_le_weak.
  - left. split; [done |]. by apply Qabs_pos.
Qed.

Lemma Qabs_bounds (a b : Q) : (Qabs a <= b -> - b <= a /\ a <= b)%Q.
Proof. intros Hab. by apply Qabs_Qle_condition. Qed.

(** Four operations, each with a relative error of at most [u64] of its
    result, return to within [2 u64 (|x| + 3 |x - mean|)] of [x]. *)
Lemma round_trip_bound (X M S d q p r : Q) :
  ~ (S == 0)%Q ->
  (Qabs (d - (X - M)) <= u64 * Qabs d)%Q ->
  (Qabs (q - d / S) <= u64 * Qabs q)%Q ->
  (Qabs (p - q * S) <= u64 * Qabs p)%Q ->
  (Qabs (r - (M + p)) <= u64 * Qabs r)%Q ->
  (Qabs (r - X) <= (1 # 4503599627370496) * (Qabs X + 3 * Qabs (X - M)))%Q.
Proof.
  intros HS H1 H2 H3 H4.
  assert (Qabs (q * S - d) <= u64 * Qabs (q * S))%Q as H2'.
  { assert (q * S - d == (q - d / S) * S)%Q as -> by (field; done).
    rewrite !Qabs_Qmult.
    assert (u64 * (Qabs q * Qabs S) == (u64 * Qabs q) * Qabs S)%Q as -> by ring.
    apply Qmult_le_compat_r; [done | apply Qabs_nonneg]. }
  clear H2. set (t := (q * S)%Q) in *. clearbody t.
  apply Qabs_bounds in H1 as [H1a H1b], H2' as [H2a H2b], H3 as [H3a H3b],
    H4 as [H4a H4b].
  pose proof (Qle_Qabs X) as HX1.
  pose proof (Qle_Qabs (- X)) as HX2. rewrite Qabs_opp in HX2.
  pose proof (Qle_Qabs (X - M)) as HD1.
  pose proof (Qle_Qabs (- (X - M))) as HD2. rewrite Qabs_opp in HD2.
  unfold u64 in *.
  apply Qabs_Qle_condition.
  destruct (Qabs_cases d) as [[Hd Hd']|[Hd Hd']],
           (Qabs_cases t) as [[Ht Ht']|[Ht Ht']],
           (Qabs_cases p) as [[Hp Hp']|[Hp Hp']],
           (Qabs_cases r) as [[Hr Hr']|[Hr Hr']];
    split; lra.
Qed.

Lemma Qabs_diff_zero (a b c : Q) : (a - b == 0 -> 0 <= c -> Qabs (b - a) <= c)%Q.
Proof.
  intros Hab Hc. assert (b - a == 0)%Q as -> by lra. done.
Qed.

Lemma round_trip_tolerance_nonneg (X M : Q) :
  (0 <= (1 # 4503599627370496) * (Qabs X + 3 * Qabs (X - M)))%Q.
Proof.
  pose proof (Qabs_nonneg X). pose proof (Qabs_nonneg (X - M)). lra.
Qed.

(** The round trip in binary64, from the four rounding errors. *)
Lemma round_trip_binary64 (x mean std : float64) :
  valid_binary F64.prec F64.emax x = true ->
  valid_binary F64.prec F64.emax mean = true ->
  F64.is_finite std = true ->
  SFeqb std F64.zero = false ->
  in_normal_range x mean std ->
  (Qabs (F2Q (denormalize (normalize x mean std) mean std) - F2Q x)
   <= (1 # 4503599627370496) * (Qabs (F2Q x) + 3 * Qabs (F2Q x - F2Q mean)))%Q.
Proof.
  intros Hx%valid_exponent_ok Hmean%valid_exponent_ok Hfin Hnz Hrange.
  unfold in_normal_range, denormalize, normalize in *.
  cbn [d_add d_sub d_mul d_div float64_dtype] in *.
  unfold F64.add, F64.sub, F64.mul, F64.div, F64.prec, F64.emax in *.
  destruct Hrange as [Hd | (Hd & Hq & Hp & Hr)].
  - pose proof (sub_zero_exact x mean Hx Hmean Hd) as Hexact.
    destruct (SFsub 53 1024 x mean) as [sd| | |] eqn:Ed; try done.
    destruct std as [ss|ss| |ss ms es]; try done.
    cbn [SFdiv SFmul].
    destruct mean as [sm|sm| |sm mm em].
    + destruct sm, sd, ss;
        (apply Qabs_diff_zero; [exact Hexact | apply round_trip_tolerance_nonneg]).
    + by destruct x as [sx|sx| |sx mx ex], sm; try destruct sx.
    + by destruct x.
    + cbn [SFadd]. apply Qabs_diff_zero; [done | apply round_trip_tolerance_nonneg].
  - pose proof (sub_error x mean Hd) as H1.
    pose proof (div_error _ std Hq) as [HS H2].
    pose proof (mul_error _ std Hp) as H3.
    apply (round_trip_bound _ _ (F2Q std) _ _ _ _ HS H1 H2 H3).
    destruct Hr as [Hr | Hr].
    + apply (add_error _ _ Hr).
    + pose proof (add_zero_exact mean _ Hmean (mul_exponent_ok _ std) Hr) as Hexact.
      destruct (SFadd 53 1024 mean _) as [sr| | |]; try done.
      change (F2Q (S754_zero sr)) with 0%Q.
      assert (0 - (F2Q mean + F2Q (SFmul 53 1024 (SFdiv 53 1024 (SFsub 53 1024 x mean) std) std)) == 0)%Q
        as -> by lra.
      apply Qabs_zero_le.
Qed.

(** C8, amended: in binary64, for valid numbers [x] and [mean] and a finite
    non-zero [std], when the round trip stays in the normal range (no
    overflow, no underflow: [in_normal_range]), denormalizing the
    normalized value returns [x] to within [2 ^ -52 * (|x| + 3 * |x - mean|)]:
    a tolerance relative to [x] and to its distance from the mean. *)
Theorem denormalize_normalize_binary64 (x mean std : float64) :
  valid_binary F64.prec F64.emax x = true ->
  valid_binary F64.prec F64.emax mean = true ->
  F64.is_finite std = true ->
  SFeqb std F64.zero = false ->
  in_normal_range x mean std ->
  (Qabs (F2Q (denormalize (normalize x mean std) mean std) - F2Q x)
   <= (1 # 4503599627370496) * (Qabs (F2Q x) + 3 * Qabs (F2Q x - F2Q mean)))%Q.
Proof. apply round_trip_binary64. Qed.

Lemma denormalize_normalize_binary64_witness :
  (Qabs (F2Q (denormalize (normalize (F64.of_Z 2000) (F64.of_Z 1800) (F64.of_Z 700))
                (F64.of_Z 1800) (F64.of_Z 700))
         - F2Q (F64.of_Z 2000))
   <= (1 # 4503599627370496)
      * (Qabs (F2Q (F64.of_Z 2000)) + 3 * Qabs (F2Q (F64.of_Z 2000) - F2Q (F64.of_Z 1800))))%Q.
Proof.
  apply (denormalize_normalize_binary64 (F64.of_Z 2000) (F64.of_Z 1800) (F64.of_Z 700)).
  - vm_compute. reflexivity.
  - vm_compute. reflexivity.
  - vm_compute. reflexivity.
  - vm_compute. reflexivity.
  - right. vm_compute. repeat split; try reflexivity. left. reflexivity.
Defined.

(** In exact arithmetic denormalization undoes normalization for every
    value, every mean and every non-zero std. *)
Lemma denormalize_normalize_exact (x mean std : Q) :
  ~ (std == 0)%Q ->
  (denormalize (normalize x mean std) mean std == x)%Q.
Proof.
  intros Hstd. unfold denormalize, normalize. cbn [d_add d_sub d_mul d_div Q_dtype].
  field. exact Hstd.
Qed.

(** C8, as stated, fails outside the normal range: the difference
    [x - mean] of two finite values can overflow; the round trip then
    returns infinity, which is within no finite tolerance of [x]. *)
Lemma denormalize_normalize_overflow :
  let x := F64.of_Z (10 ^ 308) in
  let mean := F64.of_Z (- 10 ^ 308) in
  let std := F64.of_Z 1 in
  F64.is_finite x = true /\ F64.is_finite mean = true /\ F64.is_finite std = true
  /\ SFeqb std F64.zero = false
  /\ denormalize (normalize x mean std) mean std = F64.inf
  /\ forall tol, F64.is_finite tol = true ->
       within_tolerance tol (denormalize (normalize x mean std) mean std) x = false.
Proof.
  cbv zeta. repeat split; try (vm_compute; reflexivity).
  intros tol Htol.
  replace (denormalize (normalize (F64.of_Z (10 ^ 308)) (F64.of_Z (- 10 ^ 308)) (F64.of_Z 1))
             (F64.of_Z (- 10 ^ 308)) (F64.of_Z 1)) with F64.inf by (vm_compute; reflexivity).
  by destruct tol as [[]|[]| |[] m e].
Qed.

(** Within the normal range too the tolerance is relative to the distance
    from the mean, not to [x]: next to a large mean a small value is
    absorbed by the subtraction, and the round trip returns 0 for 1. *)
Lemma denormalize_normalize_absorption :
  in_normal_range (F64.of_Z 1) (F64.of_Z (2 ^ 60)) (F64.of_Z 1)
  /\ denormalize (normalize (F64.of_Z 1) (F64.of_Z (2 ^ 60)) (F64.of_Z 1))
       (F64.of_Z (2 ^ 60)) (F64.of_Z 1) = F64.of_Z 0.
Proof.
  split; [| vm_compute; reflexivity].
  right. vm_compute. repeat split; try reflexivity. right. reflexivity.
Qed.

(** The denormalization of the inference path is the binary64 formula when
    the std of the appliance is a NumPy float64 scalar (a std computed by
    set_appliance_params that was not floored). *)
Lemma np_denormalize_float64 (prediction : float64) (mean : scalar) (s : float64) :
  np_denormalize prediction mean (NpFloat64 s)
  = denormalize (F64.of_float32 prediction) (value mean) s.
Proof. reflexivity. Qed.

(** So a prediction that is the normalized value of [x] is denormalized to
    within the tolerance of [x]. *)
Lemma np_denormalize_normalize (x prediction s : float64) (st : stats) :
  std_entry st = NpFloat64 s ->
  F64.of_float32 prediction = normalize x (mean st) (std st) ->
  valid_binary F64.prec F64.emax x = true ->
  valid_binary F64.prec F64.emax (mean st) = true ->
  F64.is_finite s = true ->
  SFeqb s F64.zero = false ->
  in_normal_range x (mean st) s ->
  (Qabs (F2Q (np_denormalize prediction (mean_entry st) (std_entry st)) - F2Q x)
   <= (1 # 4503599627370496)
      * (Qabs (F2Q x) + 3 * Qabs (F2Q x - F2Q (mean st))))%Q.
Proof.
  intros Hs Hp Hx Hmean Hfin Hnz Hrange.
  unfold std in Hp. rewrite Hs in *. cbn [value] in Hp.
  rewrite np_denormalize_float64, Hp.
  by apply round_trip_binary64.
Qed.

(** With the constants of the estimator's defaults the round trip of a
    typical reading is exact in binary64 as well. *)
Lemma denormalize_normalize_typical :
  denormalize (normalize (F64.of_Z 2400) (F64.of_Z 1800) (F64.of_Z 600))
    (F64.of_Z 1800) (F64.of_Z 600) = F64.of_Z 2400.
Proof. vm_compute. reflexivity. Qed.

(** ** Non-negative output *)

(** *** Rounding keeps the sign *)

Lemma shr_1_nonneg mrs : 0 <= shr_m mrs -> 0 <= shr_m (shr_1 mrs).
Proof. destruct mrs as [[|[p|p|]|[p|p|]] r s]; cbn; lia. Qed.

Lemma iter_pos_invariant {A} (P : A -> Prop) (f : A -> A) :
  (forall x, P x -> P (f x)) -> forall p x, P x -> P (SpecFloat.iter_pos f p x).
Proof.
  intros Hf p. induction p as [p IH|p IH|]; intros x Hx; cbn; auto.
Qed.

Lemma shr_nonneg mrs e n : 0 <= shr_m mrs -> 0 <= shr_m (shr mrs e n).1.
Proof.
  intros Hm. destruct n as [|p|p]; cbn; try done.
  by apply (iter_pos_invariant (fun r => 0 <= shr_m r) shr_1 shr_1_nonneg).
Qed.

Lemma shr_fexp_nonneg prec emax m e l :
  0 <= m -> 0 <= shr_m (shr_fexp prec emax m e l).1.
Proof.
  intros Hm. unfold shr_fexp. apply shr_nonneg.
  by destruct l as [|[]].
Qed.

Lemma round_nearest_even_nonneg m l : 0 <= m -> 0 <= round_nearest_even m l.
Proof.
  intros Hm. destruct l as [|[]]; cbn; try done; [destruct (Z.even m) |]; lia.
Qed.

Lemma binary_round_aux_sign prec emax sx mx ex lx :
  0 <= mx -> has_sign sx (binary_round_aux prec emax sx mx ex lx).
Proof.
  intros Hm. unfold binary_round_aux.
  pose proof (shr_fexp_nonneg prec emax mx ex lx Hm) as H1.
  destruct (shr_fexp prec emax mx ex lx) as [mrs' e'] eqn:E1. cbn in H1.
  pose proof (shr_fexp_nonneg prec emax
                (round_nearest_even (shr_m mrs') (loc_of_shr_record mrs')) e' loc_Exact
                (round_nearest_even_nonneg _ _ H1)) as H2.
  destruct (shr_fexp prec emax _ e' loc_Exact) as [mrs'' e''] eqn:E2. cbn in H2.
  destruct (shr_m mrs'') as [|m|m]; cbn; [done | | lia].
  by destruct (e'' <=? emax - prec).
Qed.

Lemma binary_round_sign prec emax sx mx ex :
  has_sign sx (binary_round prec emax sx mx ex).
Proof.
  unfold binary_round.
  destruct (shl_align mx ex _) as [mz ez].
  by apply binary_round_aux_sign.
Qed.

Lemma has_sign_nonneg x : has_sign false x -> F64.leb F64.zero x = true.
Proof. destruct x as [s|s| |s m e]; cbn; try done; by intros ->. Qed.

Lemma nonneg_has_sign_finite s m e :
  F64.leb F64.zero (S754_finite s m e) = true -> s = false.
Proof. by destruct s. Qed.

Lemma to_float32_nonneg v :
  F64.leb F64.zero v = true -> F64.leb F64.zero (to_float32 v) = true.
Proof.
  destruct v as [s|s| |s m e]; cbn [to_float32]; try done.
  intros ->%nonneg_has_sign_finite.
  apply has_sign_nonneg, binary_round_sign.
Qed.

(** An estimate below zero becomes zero, one above zero is kept. *)
Lemma clamp_negative v : F64.ltb v F64.zero = true -> clamp v = F64.zero.
Proof. by destruct v as [[]|[]| |[] m e]. Qed.

Lemma clamp_positive v : F64.ltb F64.zero v = true -> clamp v = v.
Proof. intros H. unfold clamp. by rewrite H. Qed.

Lemma clamp_nonneg v : F64.leb F64.zero (clamp v) = true.
Proof.
  unfold clamp, F64.ltb, F64.leb, SFltb, SFleb.
  destruct (SFcompare F64.zero v) as [[]|] eqn:E; rewrite ?E; reflexivity.
Qed.
(** *** The result tables *)

Section Inference.
Context `{RT : Runtime}.

Lemma od_set_Forall {V} (P : string * V -> Prop) d k v :
  Forall P d -> P (k, v) -> Forall P (od_set d k v).
Proof.
  intros Hd Hv. induction Hd as [|[k' v'] d Hx Hd IH]; cbn.
  - by constructor.
  - destruct (decide (k' = k)); constructor; auto.
Qed.

Lemma disaggregate_appliance_nonneg w test_main appliance model col w' :
  disaggregate_appliance w test_main appliance model = (Ok col, w') ->
  Forall nonneg col.
Proof.
  unfold disaggregate_appliance.
  destruct (batch_size (self w) <=? 0); [done |].
  destruct (np_concatenate _) as [prediction|e]; [| done]. cbn.
  destruct (appliance_params (self w) !! appliance) as [st|]; [| done].
  intros [= <- _]. apply Forall_fmap, Forall_forall. intros v _.
  apply clamp_nonneg.
Qed.

Lemma disaggregate_appliances_nonneg w test_main items d d' w' :
  disaggregate_appliances w test_main items d = (Ok d', w') ->
  nonneg_table d -> nonneg_table d'.
Proof.
  revert w d. induction items as [|[appliance model] rest IH]; intros w d; cbn.
  - by intros [= <- _].
  - destruct (disaggregate_appliance w test_main appliance model) as [[col|e] w1] eqn:E;
      [| done].
    intros Hrest Hd. apply (IH _ _ Hrest).
    apply od_set_Forall; [done |]. cbn.
    by apply disaggregate_appliance_nonneg in E.
Qed.

Lemma DataFrame_float32_nonneg d :
  nonneg_table d -> nonneg_table (DataFrame_float32 d).
Proof.
  intros Hd. unfold DataFrame_float32. apply Forall_fmap.
  eapply Forall_impl; [exact Hd |]. intros [k col] Hcol. cbn in *.
  apply Forall_fmap. eapply Forall_impl; [exact Hcol |].
  intros v. apply to_float32_nonneg.
Qed.

Lemma disaggregate_chunks_nonneg test_main_list w tables w' :
  disaggregate_chunks test_main_list w = (Ok tables, w') ->
  Forall nonneg_table tables.
Proof.
  revert w tables w'. induction test_main_list as [|test_main rest IH];
    intros w tables w'; cbn.
  - intros [= <- _]. constructor.
  - destruct (reshape_windows _ _) as [windows|e]; [| done].
    destruct (disaggregate_appliances _ windows _ []) as [[d|e] w1] eqn:Ed; [| done].
    destruct (disaggregate_chunks rest _) as [[tl|e] w''] eqn:Er; [| by intros [=]].
    intros [= <- _]. constructor; [| by eapply IH].
    apply DataFrame_float32_nonneg.
    eapply disaggregate_appliances_nonneg; [exact Ed | constructor].
Qed.

(** C6: every value of every appliance column of every table returned by an
    inference call is non-negative. *)
Theorem disaggregate_chunk_nonneg test_main_list model do_preprocessing w
    tables w' table appliance col v :
  disaggregate_chunk test_main_list model do_preprocessing w = (Ok tables, w') ->
  table ∈ tables -> (appliance, col) ∈ table -> v ∈ col ->
  F64.leb F64.zero v = true.
Proof.
  unfold disaggregate_chunk. intros Hrun Htable Hcol Hv.
  destruct (if do_preprocessing then _ else _) as [l|e]; [| done].
  apply disaggregate_chunks_nonneg in Hrun.
  rewrite Forall_forall in Hrun. specialize (Hrun _ Htable).
  unfold nonneg_table in Hrun. rewrite Forall_forall in Hrun.
  specialize (Hrun _ Hcol). cbn in Hrun.
  rewrite Forall_forall in Hrun. exact (Hrun _ Hv).
Qed.
End Inference.

(** The toy inference call returns one table, with the fridge's column. *)
Lemma toy_inference_tables :
  toy_inference.1 = Ok [[("fridge"%string, to_float32 <$> (F64.of_Z <$> [0; 201; 0]))]].
Proof. vm_compute. reflexivity. Qed.

Lemma disaggregate_chunk_nonneg_witness :
  Forall (fun v => F64.leb F64.zero v = true)
    (to_float32 <$> (F64.of_Z <$> [0; 201; 0])).
Proof.
  apply Forall_forall. intros v Hv.
  apply (disaggregate_chunk_nonneg (RT := toy) [column [0; 5; 0]] None true
           (toy_world fridge_registry fridge_store fridge_heap)
           [[("fridge"%string, to_float32 <$> (F64.of_Z <$> [0; 201; 0]))]] toy_inference.2
           [("fridge"%string, to_float32 <$> (F64.of_Z <$> [0; 201; 0]))] "fridge"
           (to_float32 <$> (F64.of_Z <$> [0; 201; 0])) v).
  - rewrite <- toy_inference_tables. apply surjective_pairing.
  - apply list_elem_of_here.
  - apply list_elem_of_here.
  - exact Hv.
Defined.

(** ** The training loop *)

Section Training.
Context `{RT : Runtime}.

Lemma od_get_elem_of {V} (d : list (string * V)) k v :
  NoDup d.*1 -> (k, v) ∈ d -> od_get d k = Some v.
Proof.
  induction d as [|[k' v'] d IH]; cbn; intros Hnd Hin.
  - by apply elem_of_nil in Hin.
  - apply NoDup_cons in Hnd as [Hk' Hnd].
    apply elem_of_cons in Hin as [[= -> ->]|Hin].
    + by rewrite decide_True.
    + rewrite decide_False; [by apply IH |].
      intros ->. apply Hk'. apply list_elem_of_fmap. by exists (k, v).
Qed.

Lemma copy_same (h : gmap loc tensor) l : copy_ h l l = h.
Proof.
  unfold copy_. destruct (h !! l) as [v|] eqn:E; [| done]. by apply insert_id.
Qed.

(** Copying each parameter from the tensor the dictionary holds for its
    name changes nothing when the dictionary holds the parameters
    themselves. *)
Lemma load_own_tensors (h : gmap loc tensor) (m sd : module) :
  (forall k l, (k, l) ∈ m -> od_get sd k = Some l) ->
  foldl (fun h '(k, dst) =>
           match od_get sd k with
           | Some src => copy_ h dst src
           | None => h
           end) h m = h.
Proof.
  induction m as [|[k l] m IH]; intros Hsd; cbn; [done |].
  rewrite (Hsd k l) by apply list_elem_of_here.
  rewrite copy_same. apply IH. intros k' l' Hin. apply Hsd. by apply list_elem_of_further.
Qed.

Lemma load_state_dict_own (h : gmap loc tensor) (m : module) :
  NoDup m.*1 ->
  load_state_dict h m (dict_copy (state_dict m)) = Ok h.
Proof.
  intros Hnd. unfold load_state_dict, dict_copy, state_dict.
  rewrite bool_decide_eq_true_2.
  - f_equal. apply load_own_tensors. intros k l. by apply od_get_elem_of.
  - assert (Forall (fun k => is_Some (od_get m k)) m.*1) as Hall.
    { apply Forall_forall. intros k Hk.
      apply list_elem_of_fmap in Hk as [[k' l] [-> Hin]]. cbn.
      rewrite (od_get_elem_of _ _ _ Hnd Hin). by eexists. }
    by split.
Qed.

(** The dictionary kept by the loop is never anything but the network's own
    tensors. *)
Lemma epoch_best_state model train val appliance_name current_epoch st b' w' :
  (best_model_state st.1 = None
   \/ best_model_state st.1 = Some (dict_copy (state_dict model))) ->
  epoch model train val appliance_name current_epoch st = (Ok b', w') ->
  best_model_state b' = None
  \/ best_model_state b' = Some (dict_copy (state_dict model)).
Proof.
  destruct st as [b w]. cbn. intros Hb. unfold epoch.
  destruct (train_epoch _ _ _ _ _) as [[vals opt'] r'].
  destruct train as [|? ?]; [done |]. destruct val as [|? ?]; [done |].
  destruct (F64.ltb _ _).
  - destruct (writable _); [| done]. intros [= <- _]. cbn. auto.
  - intros [= <- _]. cbn. auto.
Qed.

Lemma epoch_loop_best_state k model train val appliance_name current_epoch st b' w' :
  (best_model_state st.1 = None
   \/ best_model_state st.1 = Some (dict_copy (state_dict model))) ->
  epoch_loop k model train val appliance_name current_epoch st = (Ok b', w') ->
  best_model_state b' = None
  \/ best_model_state b' = Some (dict_copy (state_dict model)).
Proof.
  revert st. induction k as [|k IH]; intros st Hb; cbn.
  - by intros [= <- _].
  - destruct (epoch _ _ _ _ _ st) as [[b1|e] w1] eqn:E; [| done].
    apply IH. cbn. by eapply epoch_best_state.
Qed.

(** Whatever the validation losses were, the parameters of the network
    after [train_model] are those the last epoch left: the reload copies
    every tensor onto itself. *)
Lemma train_model_live_parameters model train val appliance_name current_epoch w
    b w1 :
  NoDup model.*1 ->
  epoch_loop (Z.to_nat (n_epochs (self w))) model train val appliance_name
    current_epoch
    (Best F64.inf None (adam (deref (heap w) model)),
     emit w [EvTrainModel appliance_name]) = (Ok b, w1) ->
  exists w',
    train_model model train val appliance_name current_epoch w = (Ok (), w')
    /\ heap w' = heap w1 /\ disk w' = disk w1 /\ self w' = self w1.
Proof.
  intros Hnd Hloop. unfold train_model.
  change (heap (emit w [EvTrainModel appliance_name])) with (heap w).
  change (self (emit w [EvTrainModel appliance_name])) with (self w).
  rewrite Hloop.
  pose proof (epoch_loop_best_state _ model _ _ _ _
                (Best F64.inf None (adam (deref (heap w) model)),
                 emit w [EvTrainModel appliance_name]) _ _
                (or_introl eq_refl) Hloop) as Hb.
  destruct Hb as [-> | ->].
  - eauto.
  - rewrite load_state_dict_own by done. eauto.
Qed.
End Training.

Section Checkpoints.
Context `{RT : Runtime}.

(** What one epoch on loaders that are not empty does to the loop's
    variables: the parameters are those the training batches produced; a
    validation loss strictly below the best one becomes the best one and the
    current values are written to the checkpoint file, if it can be written;
    otherwise the best loss, the kept dictionary and the disk stay as they
    are. *)
Lemma epoch_checkpoint model train val appliance_name current_epoch b w :
  train <> [] -> val <> [] ->
  let h' :=
    write_params (heap w) model
      (train_epoch train (batch_size (self w)) (opt b) (rng_state w)
         (deref (heap w) model)).1.1 in
  let val_loss := validation_loss val (batch_size (self w)) (deref h' model) in
  let filepath := checkpoint_path (self w) appliance_name current_epoch in
  let st' := epoch model train val appliance_name current_epoch (b, w) in
  heap st'.2 = h'
  /\ (F64.ltb val_loss (best_val_loss b) = true -> writable filepath = true ->
      exists b', st'.1 = Ok b'
        /\ best_val_loss b' = val_loss
        /\ disk st'.2 = <[filepath := deref h' model]> (disk w))
  /\ (F64.ltb val_loss (best_val_loss b) = true -> writable filepath = false ->
      st'.1 = Raise RuntimeError /\ disk st'.2 = disk w)
  /\ (F64.ltb val_loss (best_val_loss b) = false ->
      exists b', st'.1 = Ok b'
        /\ best_val_loss b' = best_val_loss b
        /\ best_model_state b' = best_model_state b
        /\ disk st'.2 = disk w).
Proof.
  intros Htrain Hval. cbv zeta. unfold epoch.
  destruct (train_epoch _ _ _ _ _) as [[vals opt'] r']. cbn [fst snd].
  destruct train as [|? ?]; [done |]. destruct val as [|? ?]; [done |].
  cbn [heap self set_rng set_heap].
  destruct (F64.ltb _ _) eqn:E; [destruct (writable _) eqn:Ew |]; cbn;
    repeat split; intros; try congruence; eexists; repeat split; congruence.
Qed.

(** On an empty loader the division of the summed loss by the number of
    batches raises, and nothing is saved. *)
Lemma epoch_empty_loader model train val appliance_name current_epoch b w :
  train = [] \/ val = [] ->
  let st' := epoch model train val appliance_name current_epoch (b, w) in
  st'.1 = Raise ZeroDivisionError /\ disk st'.2 = disk w /\ log st'.2 = log w.
Proof.
  intros Hempty. cbv zeta. unfold epoch.
  destruct (train_epoch _ _ _ _ _) as [[vals opt'] r'].
  destruct train as [|? ?]; [done |]. destruct val as [|? ?]; [done |].
  by destruct Hempty.
Qed.
End Checkpoints.

(** C2, evaluated on ten training samples and two validation samples:
    three epochs take the weight from 0 to 1, 2 and 3, with validation
    losses 0, 1 and 2.  The first epoch is the only improvement: its weight,
    1, is what the checkpoint file holds.  The network is left with the
    weight of the last epoch, 3, although the reload ran: the kept state
    dictionary is a shallow copy, whose tensors are the network's own and
    followed the later epochs. *)
Theorem train_model_reloads_last_epoch :
  ten_samples <> [] /\ two_samples <> []
  /\ @validation_loss toy two_samples 512 [("fc.weight"%string, 1)] = F64.of_Z 0
  /\ @validation_loss toy two_samples 512 [("fc.weight"%string, 2)] = F64.of_Z 1
  /\ @validation_loss toy two_samples 512 [("fc.weight"%string, 3)] = F64.of_Z 2
  /\ toy_training.1 = Ok ()
  /\ log toy_training.2
     = [EvTrainModel "fridge"; EvSave "rnn-temp-weights-fridge-epoch0.pth";
        EvLoadStateDict "fridge"]
  /\ disk toy_training.2 !! "rnn-temp-weights-fridge-epoch0.pth"%string
     = Some [("fc.weight"%string, 1)]
  /\ deref (heap toy_training.2) fridge_network = [("fc.weight"%string, 3)].
Proof. repeat split; try discriminate; vm_compute; reflexivity. Qed.

(** ** Training: unknown appliances *)

Lemma mapM_ok {A B} (f : A -> result B) (l : list A) :
  (forall a, a ∈ l -> exists b, f a = Ok b) ->
  exists bs, mapM f l = Ok bs /\ Forall2 (fun a b => f a = Ok b) l bs.
Proof.
  induction l as [|a l IH]; intros Hf; cbn.
  - exists []. by split.
  - destruct (Hf a) as [b Hb]; [apply list_elem_of_here |].
    destruct IH as (bs & Hbs & Hall).
    { intros a' Ha'. apply Hf. by apply list_elem_of_further. }
    exists (b :: bs). rewrite Hb. cbn. rewrite Hbs. cbn. split; [done |].
    by constructor.
Qed.

(** With a window length that is not negative, windowing raises nothing. *)
Lemma preprocess_mains_ok n mains_mean mains_std mains :
  0 <= n ->
  exists ws, preprocess_mains n mains_mean mains_std mains = Ok ws.
Proof.
  intros Hn. unfold preprocess_mains, window_chunk.
  rewrite np_pad_ok by (apply Z.div_pos; lia). cbn. eauto.
Qed.

Lemma preprocess_appliances_unknown store submeters_lst app_name app_df_list :
  (app_name, app_df_list) ∈ submeters_lst ->
  store !! app_name = None ->
  preprocess_appliances store submeters_lst = Raise ApplianceNotFoundError.
Proof.
  intros Hin Hnone. induction submeters_lst as [|[k dfs] rest IH]; cbn.
  - by apply elem_of_nil in Hin.
  - apply elem_of_cons in Hin as [[= <- <-]|Hin].
    + by rewrite Hnone.
    + destruct (store !! k); [| done]. by rewrite (IH Hin).
Qed.

Section UnknownAppliance.
Context `{RT : Runtime}.

(** C3, amended: with preprocessing enabled and a store that is not empty,
    an appliance without statistics makes the training call raise
    [ApplianceNotFoundError] and leaves the whole state as it was before the
    call: no tensor was built, no network created, nothing trained or
    written, and the store has no entry added. *)
Theorem partial_fit_unknown_appliance train_main train_appliances current_epoch
    (w : world) app_name app_df_list :
  0 <= sequence_length (self w) ->
  size (appliance_params (self w)) <> 0%nat ->
  (app_name, app_df_list) ∈ train_appliances ->
  appliance_params (self w) !! app_name = None ->
  partial_fit train_main train_appliances true current_epoch w
  = (Raise ApplianceNotFoundError, w).
Proof.
  intros Hn Hsize Hin Hnone. unfold partial_fit, ensure_params.
  rewrite bool_decide_eq_false_2 by done.
  unfold training_arrays, call_preprocessing_train.
  destruct (mapM_ok (preprocess_mains (sequence_length (self w)) (mains_mean (self w))
                       (mains_std (self w))) train_main) as (ws & -> & _).
  { intros a _. by apply preprocess_mains_ok. }
  cbn. by rewrite (preprocess_appliances_unknown _ _ _ _ Hin Hnone).
Qed.
End UnknownAppliance.

Lemma partial_fit_unknown_appliance_witness :
  partial_fit (RT := toy) [column [0; 0; 0; 5; 0; 0; 0]]
    [("fridge"%string, [column [1; 1; 1; 2; 2; 2; 2]]);
     ("kettle"%string, [column [1; 1; 1; 2; 2; 2; 2]])] true 0
    (toy_world [] fridge_store ∅)
  = (Raise ApplianceNotFoundError, toy_world [] fridge_store ∅).
Proof.
  apply (partial_fit_unknown_appliance (RT := toy) _ _ 0 (toy_world [] fridge_store ∅)
           "kettle" [column [1; 1; 1; 2; 2; 2; 2]]).
  - vm_compute. discriminate.
  - vm_compute. discriminate.
  - apply list_elem_of_further, list_elem_of_here.
  - vm_compute. reflexivity.
Defined.

(** C3, as stated: an appliance without an entry in the store is not always
    refused.  A call made with [do_preprocessing=False] checks nothing: the
    kettle has no statistics, the call returns normally, the kettle's
    network was created and trained, and the store still has no entry for
    it.  And when the store is empty, as it is after construction without
    [appliance_params], no appliance has an entry and the statistics are
    computed from the call's own readings. *)
Lemma partial_fit_unknown_appliance_not_refused :
  (appliance_params (self (toy_world [] fridge_store ∅)) !! "kettle"%string = None
   /\ toy_fit_unchecked.1 = Ok ()
   /\ log toy_fit_unchecked.2
      = [EvNewNetwork "kettle"; EvFloatTensor; EvFloatTensor; EvFloatTensor;
         EvFloatTensor; EvFloatTensor; EvFloatTensor; EvTrainModel "kettle";
         EvSave "rnn-temp-weights-kettle-epoch0.pth"; EvLoadStateDict "kettle"]
   /\ appliance_params (self toy_fit_unchecked.2) !! "kettle"%string = None)
  /\ (appliance_params (self (toy_world [] ∅ ∅)) !! "kettle"%string = None
      /\ toy_fit_first.1 = Ok ()
      /\ is_Some (appliance_params (self toy_fit_first.2) !! "kettle"%string)).
Proof. repeat split; vm_compute; try reflexivity; eauto. Qed.

(** ** Training: too few windows *)

Lemma od_get_set_eq {V} (d : list (string * V)) k v :
  od_get (od_set d k v) k = Some v.
Proof.
  induction d as [|[k' v'] d IH]; cbn.
  - by rewrite decide_True.
  - destruct (decide (k' = k)) as [->|Hne]; cbn.
    + by rewrite decide_True.
    + by rewrite decide_False.
Qed.

Lemma od_get_set_ne {V} (d : list (string * V)) k k' v :
  k <> k' -> od_get (od_set d k v) k' = od_get d k'.
Proof.
  intros Hne. induction d as [|[k0 v0] d IH]; cbn.
  - by rewrite decide_False.
  - destruct (decide (k0 = k)) as [->|Hne0]; cbn.
    + by rewrite !decide_False.
    + destruct (decide (k0 = k')); [done | apply IH].
Qed.

Lemma od_mem_false {V} (d : list (string * V)) k :
  od_mem d k = false -> od_get d k = None.
Proof.
  unfold od_mem. intros H%bool_decide_eq_false.
  destruct (od_get d k); [| done]. exfalso. apply H. by eexists.
Qed.

Lemma od_mem_true {V} (d : list (string * V)) k :
  od_mem d k = true -> is_Some (od_get d k).
Proof. unfold od_mem. by intros H%bool_decide_eq_true. Qed.

Section FewWindows.
Context `{RT : Runtime}.

Lemma alloc_subseteq (h : gmap loc tensor) named : h ⊆ (alloc h named).2.
Proof.
  revert h. induction named as [|[k v] rest IH]; intros h; cbn; [done |].
  specialize (IH (<[fresh (dom h) := v]> h)).
  destruct (alloc _ rest) as [m h']. cbn in *.
  etrans; [| exact IH]. apply insert_subseteq.
  apply not_elem_of_dom, is_fresh.
Qed.

Lemma only_new_networks_refl (w : world) : only_new_networks w w.
Proof.
  repeat split; auto. exists []. split; [by rewrite app_nil_r | constructor].
Qed.

Lemma only_new_networks_trans (w1 w2 w3 : world) :
  only_new_networks w1 w2 -> only_new_networks w2 w3 -> only_new_networks w1 w3.
Proof.
  intros (Hd1 & Hh1 & Hp1 & Hn1 & Hm1 & evs1 & Hl1 & He1)
         (Hd2 & Hh2 & Hp2 & Hn2 & Hm2 & evs2 & Hl2 & He2).
  repeat split; try congruence.
  - by etrans.
  - auto.
  - exists (evs1 ++ evs2). split.
    + by rewrite Hl2, Hl1, app_assoc.
    + by apply Forall_app.
Qed.

Lemma deref_cons (h : gmap loc tensor) k l (m : module) :
  deref h ((k, l) :: m)
  = match h !! l with
    | Some v => (k, v) :: deref h m
    | None => deref h m
    end.
Proof. unfold deref. cbn. by destruct (h !! l). Qed.

(** The tensors of a new network hold the values they were allocated
    with, and were not on the heap before. *)
Lemma alloc_deref (h : gmap loc tensor) named :
  deref (alloc h named).2 (alloc h named).1 = named
  /\ forall l, l ∈ (alloc h named).1.*2 ->
       h !! l = None /\ is_Some ((alloc h named).2 !! l).
Proof.
  revert h. induction named as [|[k v] rest IH]; intros h.
  - split; [done |]. by intros l ?%elem_of_nil.
  - cbn [alloc].
    destruct (IH (<[fresh (dom h) := v]> h)) as [Hderef Hfresh].
    pose proof (alloc_subseteq (<[fresh (dom h) := v]> h) rest) as Hsub.
    destruct (alloc _ rest) as [m h']. cbn [fst snd] in *.
    assert (h !! fresh (dom h) = None) as Hnone by apply not_elem_of_dom, is_fresh.
    assert (h' !! fresh (dom h) = Some v) as Hv.
    { eapply lookup_weaken; [| exact Hsub]. apply lookup_insert_eq. }
    split.
    + by rewrite deref_cons, Hv, Hderef.
    + rewrite fmap_cons. cbn [snd].
      intros l [->|Hin]%elem_of_cons; [by split; [| eexists] |].
      destruct (Hfresh l Hin) as [Hl Hsome]. split; [| done].
      destruct (decide (fresh (dom h) = l)) as [<-|Hne]; [done |].
      by rewrite lookup_insert_ne in Hl.
Qed.

(** A heap that grew gives the tensors it had the values they had. *)
Lemma deref_subseteq (h h' : gmap loc tensor) (m : module) :
  h ⊆ h' -> (forall l, l ∈ m.*2 -> is_Some (h !! l)) -> deref h' m = deref h m.
Proof.
  intros Hsub. induction m as [|[k l] m IH]; intros Hall; [done |].
  destruct (Hall l) as [v Hv]; [apply list_elem_of_here |].
  rewrite !deref_cons, Hv, (lookup_weaken _ _ _ _ Hv Hsub).
  rewrite IH; [done |]. intros l' Hl'. apply Hall. by apply list_elem_of_further.
Qed.

(** The first half of the loop's body: the network is looked up and, when
    there is none, created and registered; with ten windows or fewer that
    is all the body does. *)
Lemma fit_appliance_few_windows train_main current_epoch appliance_name power
    (w : world) :
  (length train_main <= 10)%nat ->
  exists w',
    fit_appliance train_main current_epoch (appliance_name, power) w = (Ok (), w')
    /\ only_new_networks w w'
    /\ (forall name, name <> appliance_name ->
          od_get (models (self w')) name = od_get (models (self w)) name)
    /\ match od_get (models (self w)) appliance_name with
       | Some m => w' = w
       | None => exists m, created_since w w' appliance_name m
       end.
Proof.
  intros Hlen. unfold fit_appliance.
  destruct (od_mem (models (self w)) appliance_name) eqn:Hmem.
  - apply od_mem_true in Hmem as [model Hmodel]. rewrite Hmodel.
    exists w. split.
    + destruct (0 <? _); [| done].
      destruct (Z.ltb_spec 10 (Z.of_nat (length train_main))); [lia | done].
    + split; [apply only_new_networks_refl |]. by split.
  - apply od_mem_false in Hmem. rewrite Hmem. unfold return_network.
    cbn [self emit rng_state heap].
    destruct (new_network (sequence_length (self w)) (rng_state w)) as [named r] eqn:Hnew.
    pose proof (alloc_subseteq (heap w) named) as Hsub.
    pose proof (alloc_deref (heap w) named) as [Hderef Hfresh].
    destruct (alloc (heap w) named) as [m h]. cbn [fst snd] in Hsub, Hderef, Hfresh.
    cbn [self set_self set_rng set_heap set_models models sequence_length].
    rewrite od_get_set_eq. eexists. split.
    + destruct (0 <? _); [| reflexivity].
      destruct (Z.ltb_spec 10 (Z.of_nat (length train_main))); [lia | reflexivity].
    + split; [| split].
      * repeat split; cbn; auto.
        -- intros name m' Hget. rewrite od_get_set_ne; [done |].
           intros <-. congruence.
        -- exists [EvNewNetwork appliance_name]. split; [done |].
           constructor; [by eexists | constructor].
      * intros name Hne. cbn. by rewrite od_get_set_ne.
      * exists m. unfold created_since.
        cbn [self set_self set_rng set_heap set_models models sequence_length heap
             log emit].
        rewrite od_get_set_eq.
        split; [done |]. split; [done |]. split; [done |]. split.
        -- exists (rng_state w). by rewrite Hderef, Hnew.
        -- exists [EvNewNetwork appliance_name]. split; [done |].
           apply list_elem_of_here.
Qed.

(** A network created in a first stretch of the loop is still as it was
    created after a second stretch that created networks only. *)
Lemma created_since_later (w w1 w2 : world) name m :
  created_since w w1 name m -> only_new_networks w1 w2 -> created_since w w2 name m.
Proof.
  intros (Hnone & Hget & Hlocs & [r Hr] & evs & Hlog & Hev)
         (_ & Hheap & _ & _ & Hkeep & evs' & Hlog' & _).
  split; [done |]. split; [by apply Hkeep |]. split; [| split].
  - intros l Hl. destruct (Hlocs l Hl) as [Hl0 [v Hv]]. split; [done |].
    exists v. by eapply lookup_weaken.
  - exists r. rewrite <- Hr. apply deref_subseteq; [done |].
    intros l Hl. by apply Hlocs.
  - exists (evs ++ evs'). split; [by rewrite Hlog', Hlog, app_assoc |].
    apply elem_of_app. by left.
Qed.

(** A network created in a second stretch of the loop was created since the
    start of the first, when the first created networks only. *)
Lemma created_since_earlier (w w1 w2 : world) name m :
  only_new_networks w w1 -> created_since w1 w2 name m -> created_since w w2 name m.
Proof.
  intros (_ & Hheap & _ & Hn & Hkeep & evs & Hlog & _)
         (Hnone & Hget & Hlocs & [r Hr] & evs' & Hlog' & Hev).
  split; [| split; [done |]; split; [| split]].
  - destruct (od_get (models (self w)) name) as [m0|] eqn:E; [| done].
    apply Hkeep in E. congruence.
  - intros l Hl. destruct (Hlocs l Hl) as [Hl1 Hsome]. split; [| done].
    destruct (heap w !! l) as [v|] eqn:E; [| done].
    rewrite (lookup_weaken _ _ _ _ E Hheap) in Hl1. done.
  - exists r. by rewrite <- Hn.
  - exists (evs ++ evs'). split; [by rewrite Hlog', Hlog, app_assoc |].
    apply elem_of_app. by right.
Qed.

Lemma fit_appliances_few_windows train_main current_epoch train_appliances
    (w : world) :
  (length train_main <= 10)%nat ->
  exists w',
    fit_appliances train_main current_epoch train_appliances w = (Ok (), w')
    /\ only_new_networks w w'
    /\ forall name, name ∈ train_appliances.*1 ->
         match od_get (models (self w)) name with
         | Some m => od_get (models (self w')) name = Some m
         | None => exists m, created_since w w' name m
         end.
Proof.
  intros Hlen. revert w.
  induction train_appliances as [|[a power] rest IH]; intros w;
    cbn [fit_appliances].
  - exists w. split; [done |]. split; [apply only_new_networks_refl |].
    intros name Hin. by apply elem_of_nil in Hin.
  - destruct (fit_appliance_few_windows train_main current_epoch a power w Hlen)
      as (w1 & -> & Hnew1 & Hother1 & Ha).
    destruct (IH w1) as (w2 & -> & Hnew2 & Hall2).
    exists w2. split; [done |]. split; [by eapply only_new_networks_trans |].
    intros name Hin.
    destruct (decide (name = a)) as [->|Hne].
    + destruct (od_get (models (self w)) a) as [m|] eqn:Ea.
      * subst w1. destruct Hnew2 as (_ & _ & _ & _ & Hkeep & _). by apply Hkeep.
      * destruct Ha as [m Hm]. exists m. by eapply created_since_later.
    + cbn in Hin. apply elem_of_cons in Hin as [->|Hin]; [done |].
      specialize (Hall2 name Hin). rewrite (Hother1 name Hne) in Hall2.
      destruct (od_get (models (self w)) name) as [m|] eqn:En; [done |].
      destruct Hall2 as [m Hm]. exists m. by eapply created_since_earlier.
Qed.

(** C4, amended: when the arrays of a training call hold at most ten
    windows, the call returns normally and trains nothing: no tensor is
    built, no file is written, every tensor and every registered network is
    as it was after the statistics were ensured.  An appliance that had a
    network keeps it; an appliance that had none is given a new one, whose
    tensors are new on the heap and hold the values they were created with,
    and is in the registry afterwards. *)
Theorem partial_fit_too_few_windows train_main train_appliances do_preprocessing
    current_epoch (w w1 : world) windows targets :
  ensure_params train_appliances w = (Ok (), w1) ->
  training_arrays (self w1) train_main train_appliances do_preprocessing
  = Ok (windows, targets) ->
  (length windows <= 10)%nat ->
  exists w',
    partial_fit train_main train_appliances do_preprocessing current_epoch w
    = (Ok (), w')
    /\ only_new_networks w1 w'
    /\ forall name, name ∈ targets.*1 ->
         match od_get (models (self w1)) name with
         | Some m => od_get (models (self w')) name = Some m
         | None => exists m, created_since w1 w' name m
         end.
Proof.
  intros Hens Harr Hlen. unfold partial_fit. rewrite Hens, Harr.
  by apply fit_appliances_few_windows.
Qed.
End FewWindows.

(** An outcome and the state after the call, given the outcome. *)
Lemma outcome_and_state {A B} (p : A * B) (a : A) : p.1 = a -> p = (a, p.2).
Proof. intros <-. apply surjective_pairing. Qed.

Lemma partial_fit_too_few_windows_witness :
  exists w',
    partial_fit (RT := toy) seven_readings kettle_readings true 0 (toy_world [] ∅ ∅)
    = (Ok (), w')
    /\ only_new_networks toy_first_ensured w'
    /\ forall name, name ∈ kettle_targets.*1 ->
         match od_get (models (self toy_first_ensured)) name with
         | Some m => od_get (models (self w')) name = Some m
         | None => exists m, created_since toy_first_ensured w' name m
         end.
Proof.
  apply (partial_fit_too_few_windows (RT := toy) seven_readings kettle_readings true 0
           (toy_world [] ∅ ∅) toy_first_ensured
           (rows [[0; 0; 0]; [0; 0; 0]; [0; 0; 5]; [0; 5; 0]; [5; 0; 0]; [0; 0; 0];
                  [0; 0; 0]])
           kettle_targets).
  - apply outcome_and_state. vm_compute. reflexivity.
  - vm_compute. reflexivity.
  - vm_compute. lia.
Defined.

(** C4, as stated: the first training call of an estimator, on seven
    readings, has seven windows and an empty registry; it trains nothing,
    and the registry has the kettle afterwards, with a network whose weight
    is the initial one. *)
Lemma partial_fit_registers_untrained_network :
  training_arrays (self toy_first_ensured) seven_readings kettle_readings true
  = Ok (rows [[0; 0; 0]; [0; 0; 0]; [0; 0; 5]; [0; 5; 0]; [5; 0; 0]; [0; 0; 0];
              [0; 0; 0]], kettle_targets)
  /\ models (self (toy_world [] ∅ ∅)) = []
  /\ toy_fit_first.1 = Ok ()
  /\ log toy_fit_first.2 = [EvNewNetwork "kettle"]
  /\ models (self toy_fit_first.2) = [("kettle"%string, [("fc.weight"%string, 1%positive)])]
  /\ deref (heap toy_fit_first.2) [("fc.weight"%string, 1%positive)]
     = [("fc.weight"%string, 0)].
Proof. repeat split; vm_compute; reflexivity. Qed.

(** Without any mains chunk there are fewer than eleven windows too, and
    the call raises: [pd.concat] refuses an empty list. *)
Lemma partial_fit_without_chunks_raises :
  (partial_fit (RT := toy) [] kettle_readings true 0 (toy_world [] ∅ ∅)).1
  = Raise ValueError.
Proof. vm_compute. reflexivity. Qed.

(** ** Inference: unknown appliances *)

Lemma rows_of_length {A} (count n : nat) (flat : list A) :
  length (rows_of count n flat) = count.
Proof. revert flat. induction count as [|c IH]; intros flat; cbn; auto. Qed.

Lemma concat_length_uniform {A} (n : nat) (ws : list (list A)) :
  Forall (fun w => length w = n) ws -> length (concat ws) = (length ws * n)%nat.
Proof.
  induction 1 as [|w ws Hw _ IH]; cbn; [done |]. rewrite length_app, IH, Hw. lia.
Qed.

(** The windows of a chunk are read back row by row: as many as were
    built. *)
Lemma reshape_windows_uniform {A} (n : Z) (ws : list (list A)) :
  0 < n ->
  Forall (fun w => Z.of_nat (length w) = n) ws ->
  exists windows,
    reshape_windows (concat ws) n = Ok windows /\ length windows = length ws.
Proof.
  intros Hn Hall. unfold reshape_windows.
  assert (length (concat ws) = (length ws * Z.to_nat n)%nat) as Hlen.
  { apply concat_length_uniform. eapply Forall_impl; [exact Hall |].
    intros w Hw. cbn in Hw. lia. }
  assert (Z.of_nat (length (concat ws)) = Z.of_nat (length ws) * n) as HlenZ by lia.
  destruct (Z.leb_spec n 0); [lia |].
  rewrite HlenZ, Z.mod_mul by lia. cbn.
  eexists. split; [reflexivity |].
  rewrite rows_of_length, Z.div_mul by lia. lia.
Qed.

(** A chunk with a reading has a window, whatever the parity of the window
    length. *)
Lemma preprocess_mains_nonempty n mains_mean mains_std mains :
  0 < n -> values_flatten mains <> [] ->
  exists ws, preprocess_mains n mains_mean mains_std mains = Ok ws
    /\ ws <> []
    /\ Forall (fun w => Z.of_nat (length w) = n) ws.
Proof.
  intros Hn Hne. unfold preprocess_mains, window_chunk.
  rewrite np_pad_ok by (apply Z.div_pos; lia). cbn.
  eexists. split; [reflexivity |]. split.
  - intros Hnil%(f_equal length). revert Hnil.
    rewrite length_fmap, sliding_windows_length, !length_app, !length_replicate.
    destruct (values_flatten mains) as [|x l]; [done |]. cbn [length].
    pose proof (Z.mod_pos_bound n 2). pose proof (Z.div_mod n 2).
    assert (0 <= n / 2) by (apply Z.div_pos; lia). lia.
  - apply Forall_fmap. eapply Forall_impl; [apply sliding_windows_width; lia |].
    intros w Hw. cbn. by rewrite length_fmap.
Qed.

Lemma batches_nonempty {A} (bs : Z) (l : list A) :
  0 < bs -> l <> [] -> batches bs l <> [].
Proof.
  intros Hbs Hl. unfold batches.
  assert (1 <= Z.of_nat (length l)) by (destruct l; [done | cbn; lia]).
  assert (1 <= (Z.of_nat (length l) + bs - 1) / bs) as Hc.
  { apply Z.div_le_lower_bound; lia. }
  destruct (Z.to_nat _) as [|c] eqn:E; [lia | done].
Qed.

Section UnknownAtInference.
Context `{RT : Runtime}.

(** The loop's body changes the generator's state and nothing else. *)
Lemma disaggregate_appliance_world (w : world) test_main appliance model :
  let w' := (disaggregate_appliance w test_main appliance model).2 in
  self w' = self w /\ heap w' = heap w /\ disk w' = disk w /\ log w' = log w.
Proof.
  cbv zeta. unfold disaggregate_appliance.
  destruct (batch_size (self w) <=? 0); [done |].
  destruct (np_concatenate _); [| done].
  cbn [self set_rng]. by destruct (appliance_params (self w) !! appliance).
Qed.

Lemma disaggregate_appliance_lookup (w : world) test_main appliance model :
  0 < batch_size (self w) -> test_main <> [] ->
  match appliance_params (self w) !! appliance with
  | Some _ =>
      exists col, (disaggregate_appliance w test_main appliance model).1 = Ok col
  | None => (disaggregate_appliance w test_main appliance model).1 = Raise KeyError
  end.
Proof.
  intros Hbs Hne. unfold disaggregate_appliance.
  destruct (Z.leb_spec (batch_size (self w)) 0); [lia |].
  cbn [self set_rng].
  pose proof (batches_nonempty (batch_size (self w)) test_main Hbs Hne) as Hb.
  destruct (batches (batch_size (self w)) test_main) as [|b bs']; [done |].
  cbn. destruct (appliance_params (self w) !! appliance); eauto.
Qed.

Lemma disaggregate_appliances_unknown (w : world) test_main items d appliance m :
  0 < batch_size (self w) -> test_main <> [] ->
  (appliance, m) ∈ items ->
  appliance_params (self w) !! appliance = None ->
  (disaggregate_appliances w test_main items d).1 = Raise KeyError.
Proof.
  intros Hbs Hne Hin Hnone. revert w d Hbs Hnone.
  induction items as [|[a model] rest IH]; intros w d Hbs Hnone;
    cbn [disaggregate_appliances].
  - by apply elem_of_nil in Hin.
  - pose proof (disaggregate_appliance_lookup w test_main a model Hbs Hne) as Hl.
    pose proof (disaggregate_appliance_world w test_main a model) as (Hself & _).
    destruct (disaggregate_appliance w test_main a model) as [[col|e] w1].
    + cbn [fst snd] in *.
      apply elem_of_cons in Hin as [[= -> ->]|Hin].
      * rewrite Hnone in Hl. done.
      * apply IH; [done | by rewrite Hself | by rewrite Hself].
    + cbn [fst snd] in *.
      destruct (appliance_params (self w) !! a) as [st|] eqn:Est.
      * by destruct Hl.
      * congruence.
Qed.

(** The loop over the chunks fails at the first chunk when that chunk has a
    window and the registry an appliance without statistics. *)
Lemma disaggregate_chunks_unknown (w : world) c cs windows appliance m :
  reshape_windows (concat c) (sequence_length (self w)) = Ok windows ->
  windows <> [] ->
  0 < batch_size (self w) ->
  (appliance, m) ∈ models (self w) ->
  appliance_params (self w) !! appliance = None ->
  (disaggregate_chunks (c :: cs) w).1 = Raise KeyError.
Proof.
  intros Hreshape Hne Hbs Hin Hnone. cbn [disaggregate_chunks].
  rewrite Hreshape.
  pose proof (disaggregate_appliances_unknown (emit w [EvFloatTensor]) windows
                (models (self w)) [] appliance m Hbs Hne Hin Hnone) as Hraise.
  cbn [self emit] in *.
  destruct (disaggregate_appliances _ windows _ []) as [[d|e] w1]; cbn in *; congruence.
Qed.

(** The registry swap changes nothing preprocessing reads. *)
Lemma swap_keeps_configuration (w : world) (model : option (list (string * module))) :
  let w0 := match model with
            | Some ms => set_self w (set_models (self w) ms)
            | None => w
            end in
  sequence_length (self w0) = sequence_length (self w)
  /\ batch_size (self w0) = batch_size (self w)
  /\ appliance_params (self w0) = appliance_params (self w)
  /\ call_preprocessing_test (self w0) = call_preprocessing_test (self w)
  /\ models (self w0) = default (models (self w)) model.
Proof. by destruct model. Qed.

(** C10, amended: an inference call whose first chunk, once preprocessed,
    holds at least one window, made with a positive batch size, raises
    [KeyError] when the registry in use (the one passed to the call, if
    any) has an appliance without statistics. *)
Theorem disaggregate_chunk_unknown_appliance (test_main_list : list frame) model
    (do_preprocessing : bool) (w : world) (c : frame) (cs : list frame) windows
    appliance m :
  (if do_preprocessing then call_preprocessing_test (self w) test_main_list
   else Ok test_main_list) = Ok (c :: cs) ->
  reshape_windows (concat c) (sequence_length (self w)) = Ok windows ->
  windows <> [] ->
  0 < batch_size (self w) ->
  (appliance, m) ∈ default (models (self w)) model ->
  appliance_params (self w) !! appliance = None ->
  (disaggregate_chunk test_main_list model do_preprocessing w).1 = Raise KeyError.
Proof.
  intros Hpre Hreshape Hne Hbs Hin Hnone. unfold disaggregate_chunk.
  destruct (swap_keeps_configuration w model) as (Hn0 & Hbs0 & Hp0 & Hc0 & Hm0).
  cbv zeta in Hn0, Hbs0, Hp0, Hc0, Hm0.
  rewrite Hc0, Hpre.
  eapply disaggregate_chunks_unknown.
  - rewrite Hn0. exact Hreshape.
  - done.
  - by rewrite Hbs0.
  - rewrite Hm0. exact Hin.
  - by rewrite Hp0.
Qed.

(** With preprocessing, the default, it is enough that the first chunk has
    a reading and that the window length is positive. *)
Lemma disaggregate_chunk_unknown_appliance_default chunk rest model (w : world)
    appliance m :
  0 < sequence_length (self w) ->
  0 < batch_size (self w) ->
  values_flatten chunk <> [] ->
  (appliance, m) ∈ default (models (self w)) model ->
  appliance_params (self w) !! appliance = None ->
  (disaggregate_chunk (chunk :: rest) model true w).1 = Raise KeyError.
Proof.
  intros Hn Hbs Hchunk Hin Hnone. unfold disaggregate_chunk.
  destruct (swap_keeps_configuration w model) as (Hn0 & Hbs0 & Hp0 & Hc0 & Hm0).
  cbv zeta in Hn0, Hbs0, Hp0, Hc0, Hm0.
  rewrite Hc0. unfold call_preprocessing_test. cbn [mapM].
  destruct (preprocess_mains_nonempty (sequence_length (self w)) (mains_mean (self w))
              (mains_std (self w)) chunk) as (ws & -> & Hws & Hwidth); [lia | done |].
  cbn.
  destruct (mapM_ok (preprocess_mains (sequence_length (self w)) (mains_mean (self w))
                       (mains_std (self w))) rest) as (wss & -> & _).
  { intros a _. apply preprocess_mains_ok. lia. }
  cbn [mbind result_bind].
  destruct (reshape_windows_uniform (sequence_length (self w)) ws) as (windows & Hr & Hlen);
    [lia | done |].
  eapply disaggregate_chunks_unknown.
  - rewrite Hn0. exact Hr.
  - intros ->. by destruct ws.
  - by rewrite Hbs0.
  - rewrite Hm0. exact Hin.
  - by rewrite Hp0.
Qed.
End UnknownAtInference.

Lemma disaggregate_chunk_unknown_appliance_witness :
  (disaggregate_chunk (RT := toy) [column [1]] (Some swapped_registry) true
     (toy_world [] fridge_store fridge_heap)).1 = Raise KeyError.
Proof.
  apply (disaggregate_chunk_unknown_appliance (RT := toy) [column [1]]
           (Some swapped_registry) true (toy_world [] fridge_store fridge_heap)
           (rows [[0; 1; 0]]) [] (rows [[0; 1; 0]]) "kettle" fridge_network).
  - vm_compute. reflexivity.
  - vm_compute. reflexivity.
  - discriminate.
  - vm_compute. reflexivity.
  - apply list_elem_of_further, list_elem_of_here.
  - vm_compute. reflexivity.
Defined.

(** C10, as stated: the kettle of the swapped registry has no statistics,
    yet a call without chunks returns the empty list of tables, and a call
    whose only chunk is empty fails earlier, with the [ValueError] of
    concatenating no batch. *)
Lemma disaggregate_chunk_unknown_appliance_unnoticed :
  fridge_store !! "kettle"%string = None
  /\ (disaggregate_chunk (RT := toy) [] (Some swapped_registry) true
        (toy_world [] fridge_store fridge_heap)).1 = Ok []
  /\ (disaggregate_chunk (RT := toy) [column []] (Some swapped_registry) true
        (toy_world [] fridge_store fridge_heap)).1 = Raise ValueError.
Proof. repeat split; vm_compute; reflexivity. Qed.

(** * Further properties of the code *)

(** ** Windowing: what a window holds *)

Lemma sliding_windows_lookup {A} (padded : list A) (n : Z) (i : nat) :
  0 <= n -> Z.of_nat i + n <= Z.of_nat (length padded) ->
  sliding_windows padded n !! i = Some (take (Z.to_nat n) (drop i padded)).
Proof.
  intros Hn Hi. unfold sliding_windows, py_range.
  rewrite list_lookup_fmap, lookup_seqZ_lt by lia. cbn.
  unfold py_slice, py_bound.
  destruct (Z.ltb_spec (0 + Z.of_nat i) 0); [lia |].
  destruct (Z.ltb_spec (0 + Z.of_nat i + n) 0); [lia |].
  replace (Z.to_nat (Z.min (0 + Z.of_nat i) (Z.of_nat (length padded)))) with i by lia.
  replace (Z.to_nat (Z.min (0 + Z.of_nat i + n) (Z.of_nat (length padded))
                     - Z.min (0 + Z.of_nat i) (Z.of_nat (length padded))))
    with (Z.to_nat n) by lia.
  done.
Qed.

Lemma padded_lookup {A} (zero : A) (a : list A) (p k : nat) :
  (k < p + length a + p)%nat ->
  (replicate p zero ++ a ++ replicate p zero) !! k
  = Some (if decide (p <= k)%nat then default zero (a !! (k - p)%nat) else zero).
Proof.
  intros Hk. destruct (decide (p <= k)%nat) as [Hpk|Hpk].
  - rewrite lookup_app_r by (rewrite length_replicate; lia).
    rewrite length_replicate.
    destruct (decide (k - p < length a)%nat) as [Hin|Hout].
    + rewrite lookup_app_l by done.
      destruct (lookup_lt_is_Some_2 a (k - p)%nat Hin) as [x ->]. done.
    + rewrite lookup_app_r by lia.
      rewrite (lookup_ge_None_2 a (k - p)%nat) by lia. cbn.
      apply lookup_replicate_2. lia.
  - rewrite lookup_app_l by (rewrite length_replicate; lia).
    apply lookup_replicate_2. lia.
Qed.

(** Window [i] holds, at position [j], the normalized reading
    [i + j - n // 2] of the chunk, and the normalized padding zero where
    that index falls outside the chunk; its centre is reading [i]. *)
Theorem preprocess_mains_window_contents (n : Z) (mains_mean mains_std : float64)
    (mains : frame) (ws : frame) (i : nat) (w : list float64) :
  0 < n -> Z.odd n = true ->
  preprocess_mains n mains_mean mains_std mains = Ok ws ->
  ws !! i = Some w ->
  let p := Z.to_nat (n / 2) in
  (forall j, (j < Z.to_nat n)%nat ->
     w !! j
     = Some (normalize
               (if decide (p <= i + j)%nat
                then default F64.zero (values_flatten mains !! (i + j - p)%nat)
                else F64.zero) mains_mean mains_std))
  /\ exists x, values_flatten mains !! i = Some x
               /\ w !! p = Some (normalize x mains_mean mains_std).
Proof.
  intros Hpos Hodd Hrun Hw p. pose proof (odd_half n Hodd) as Hhalf.
  revert Hrun. unfold preprocess_mains, window_chunk.
  rewrite np_pad_ok by lia. cbn. intros [= <-].
  fold p in Hw.
  assert (i < length (values_flatten mains))%nat as Hi.
  { apply lookup_lt_Some in Hw. revert Hw.
    rewrite length_fmap, sliding_windows_length, !length_app, !length_replicate.
    subst p. lia. }
  rewrite list_lookup_fmap, sliding_windows_lookup in Hw.
  2: lia.
  2: { rewrite !length_app, !length_replicate. subst p. lia. }
  cbn in Hw. injection Hw as <-.
  assert (forall j, (j < Z.to_nat n)%nat ->
            (map (fun x => normalize x mains_mean mains_std)
               (take (Z.to_nat n)
                  (drop i (replicate p F64.zero ++ values_flatten mains
                           ++ replicate p F64.zero)))) !! j
            = Some (normalize
                      (if decide (p <= i + j)%nat
                       then default F64.zero (values_flatten mains !! (i + j - p)%nat)
                       else F64.zero) mains_mean mains_std)) as Hall.
  { intros j Hj.
    rewrite list_lookup_fmap, lookup_take_lt, lookup_drop by done.
    rewrite padded_lookup by (subst p; lia). done. }
  split; [exact Hall |].
  destruct (lookup_lt_is_Some_2 (values_flatten mains) i Hi) as [x Hx].
  exists x. split; [done |].
  rewrite Hall by (subst p; lia).
  rewrite decide_True by lia.
  replace (i + p - p)%nat with i by lia. by rewrite Hx.
Qed.

Lemma preprocess_mains_window_contents_witness :
  exists x, values_flatten (column [0; 0; 0; 5; 0; 0; 0]) !! 3%nat = Some x
    /\ (F64.of_Z <$> [0; 5; 0]) !! 1%nat
       = Some (normalize x (F64.of_Z 0) (F64.of_Z 1)).
Proof.
  exact (proj2 (preprocess_mains_window_contents 3 (F64.of_Z 0) (F64.of_Z 1)
                  (column [0; 0; 0; 5; 0; 0; 0])
                  (rows [[0; 0; 0]; [0; 0; 0]; [0; 0; 5]; [0; 5; 0]; [5; 0; 0];
                         [0; 0; 0]; [0; 0; 0]])
                  3%nat (F64.of_Z <$> [0; 5; 0])
                  ltac:(lia) eq_refl ltac:(vm_compute; reflexivity) eq_refl)).
Defined.

(** An even window length, which the constructor refuses, would give one
    window more than there are readings. *)
Theorem preprocess_mains_window_count_even (n : Z) (mains_mean mains_std : float64)
    (mains : frame) :
  0 < n -> Z.even n = true ->
  exists ws, preprocess_mains n mains_mean mains_std mains = Ok ws
    /\ length ws = S (length (values_flatten mains)).
Proof.
  intros Hpos Heven.
  assert (2 * (n / 2) = n) as Hhalf.
  { rewrite Zeven_mod in Heven. apply Z.eqb_eq in Heven.
    pose proof (Z.div_mod n 2). lia. }
  unfold preprocess_mains, window_chunk.
  rewrite np_pad_ok by lia. cbn.
  eexists; split; [reflexivity |].
  rewrite length_fmap, sliding_windows_length, !length_app, !length_replicate. lia.
Qed.

Lemma preprocess_mains_window_count_even_witness :
  exists ws, preprocess_mains 4 (F64.of_Z 0) (F64.of_Z 1) (column [1; 2; 3]) = Ok ws
    /\ length ws = 4%nat.
Proof.
  exact (preprocess_mains_window_count_even 4 (F64.of_Z 0) (F64.of_Z 1)
           (column [1; 2; 3]) ltac:(lia) eq_refl).
Defined.

(** A negative odd window length passes the constructor; preprocessing any
    chunk then raises [ValueError], from [np.pad]. *)
Theorem negative_sequence_length (p : params) (n : Z) :
  p_sequence_length p = Some n -> n < 0 -> Z.odd n = true ->
  exists self, init p = Ok self
    /\ forall chunk rest,
         call_preprocessing_test self (chunk :: rest) = Raise ValueError
         /\ forall submeters_lst,
              call_preprocessing_train self (chunk :: rest) submeters_lst
              = Raise ValueError.
Proof.
  intros Hn Hneg Hodd.
  assert (exists self, init p = Ok self /\ sequence_length self = n)
    as (self & Hinit & Hlen).
  { unfold init. rewrite Hn. cbn [sequence_length default from_option id].
    rewrite mod2_even, <- Z.negb_odd, Hodd. cbn. eauto. }
  exists self. split; [done |]. intros chunk rest.
  assert (preprocess_mains (sequence_length self) (mains_mean self) (mains_std self) chunk
          = Raise ValueError) as Hraise.
  { unfold preprocess_mains, window_chunk, np_pad. rewrite Hlen.
    destruct (Z.ltb_spec (n / 2) 0); [done |].
    pose proof (Z.div_lt_upper_bound n 2 0). lia. }
  unfold call_preprocessing_train, call_preprocessing_test. cbn [mapM].
  by rewrite Hraise.
Qed.

Lemma negative_sequence_length_witness :
  exists self, init (params_with_length (-3)) = Ok self
    /\ forall chunk rest,
         call_preprocessing_test self (chunk :: rest) = Raise ValueError
         /\ forall submeters_lst,
              call_preprocessing_train self (chunk :: rest) submeters_lst
              = Raise ValueError.
Proof.
  exact (negative_sequence_length (params_with_length (-3)) (-3) eq_refl
           ltac:(lia) eq_refl).
Defined.

(** ** From preprocessing to the training arrays *)

Lemma mapM_inv {A B} (f : A -> result B) (l : list A) (bs : list B) :
  mapM f l = Ok bs -> Forall2 (fun a b => f a = Ok b) l bs.
Proof.
  revert bs. induction l as [|a l IH]; intros bs; cbn.
  - intros [= <-]. constructor.
  - destruct (f a) as [b|e] eqn:Ea; [| done]. cbn.
    destruct (mapM f l) as [bs'|e]; [| done]. cbn.
    intros [= <-]. constructor; auto.
Qed.

Lemma rows_of_concat {A} (n : nat) (ws : list (list A)) :
  Forall (fun w => length w = n) ws ->
  rows_of (length ws) n (concat ws) = ws.
Proof.
  induction 1 as [|w ws Hw _ IH]; cbn; [done |].
  rewrite take_app_length', drop_app_length' by done. by rewrite IH.
Qed.

(** Rows of [n] values are read back from the flat array as they were. *)
Lemma reshape_windows_concat {A} (n : Z) (ws : list (list A)) :
  0 < n ->
  Forall (fun w => Z.of_nat (length w) = n) ws ->
  reshape_windows (concat ws) n = Ok ws.
Proof.
  intros Hn Hall.
  assert (Forall (fun w => length w = Z.to_nat n) ws) as Hall'.
  { eapply Forall_impl; [exact Hall |]. intros w Hw. cbn in Hw. lia. }
  unfold reshape_windows.
  assert (Z.of_nat (length (concat ws)) = Z.of_nat (length ws) * n) as HlenZ.
  { rewrite (concat_length_uniform (Z.to_nat n)) by done. lia. }
  destruct (Z.leb_spec n 0); [lia |].
  rewrite HlenZ, Z.mod_mul by lia. cbn.
  rewrite Z.div_mul, Nat2Z.id by lia. by rewrite rows_of_concat.
Qed.

Lemma max_list_le (l : list nat) (n : nat) :
  Forall (fun k => k <= n)%nat l -> (max_list l <= n)%nat.
Proof. induction 1; cbn; lia. Qed.

(** Frames whose rows all have [n] values are stacked as they are. *)
Lemma pd_concat_uniform (n : nat) (frames : list frame) :
  frames <> [] ->
  Forall (Forall (fun row => length row = n)) frames ->
  pd_concat frames = Ok (concat frames).
Proof.
  intros Hne Hall. unfold pd_concat. destruct frames as [|df frames]; [done |].
  f_equal. set (fs := df :: frames) in *.
  assert (max_list (frame_width <$> fs) <= n)%nat as Hw.
  { apply max_list_le, Forall_fmap. eapply Forall_impl; [exact Hall |].
    intros df' Hdf. cbn. apply max_list_le, Forall_fmap.
    eapply Forall_impl; [exact Hdf |]. intros row Hrow. cbn in *. lia. }
  assert (Forall (fun row => length row = n) (concat fs)) as Hrows.
  { by apply Forall_concat. }
  set (wd := max_list (frame_width <$> fs)) in *. clearbody wd.
  induction Hrows as [|row rest Hrow _ IH]; cbn; [done |].
  f_equal; [| exact IH]. unfold pad_row.
  replace (wd - length row)%nat with 0%nat by lia.
  apply app_nil_r.
Qed.

Lemma preprocess_mains_width n mains_mean mains_std mains ws :
  0 <= n ->
  preprocess_mains n mains_mean mains_std mains = Ok ws ->
  Forall (fun w => Z.of_nat (length w) = n) ws.
Proof.
  intros Hn. unfold preprocess_mains, window_chunk.
  destruct (np_pad _ _ _) as [padded|e]; [| done]. cbn. intros [= <-].
  apply Forall_fmap. eapply Forall_impl; [by apply sliding_windows_width |].
  intros w Hw. cbn. by rewrite length_fmap.
Qed.

Lemma concat_singletons {A B} (f : A -> B) (l : list A) :
  concat ((fun x => [f x]) <$> l) = f <$> l.
Proof. induction l as [|x l IH]; cbn; [done | by rewrite IH]. Qed.

Lemma concat_columns {A B} (f : A -> B) (dfs : list (list (list A))) :
  concat (concat ((fun df => (fun x => [f x]) <$> concat df) <$> dfs))
  = f <$> concat (concat dfs).
Proof.
  induction dfs as [|df dfs IH]; [done |].
  cbn [fmap list_fmap concat]. change (list_fmap _ _ ?g ?l) with (g <$> l) in *.
  rewrite !concat_app, fmap_app, concat_singletons. by rewrite IH.
Qed.

(** The column of targets built from one appliance's normalized chunks. *)
Lemma appliance_column (st : stats) (app_df_list : list frame) :
  app_df_list <> [] ->
  exists app_df,
    pd_concat (preprocess_appliance st app_df_list) = Ok app_df
    /\ reshape_column app_df
       = (fun x => normalize x (mean st) (std st)) <$> concat (concat app_df_list).
Proof.
  intros Hne. unfold preprocess_appliance, reshape_column.
  eexists. split.
  - apply (pd_concat_uniform 1).
    + by destruct app_df_list.
    + apply Forall_fmap, Forall_forall. intros df _. cbn.
      apply Forall_fmap, Forall_forall. by intros x _.
  - apply concat_columns.
Qed.

Lemma preprocess_mains_length_odd n mains_mean mains_std mains ws :
  0 < n -> Z.odd n = true ->
  preprocess_mains n mains_mean mains_std mains = Ok ws ->
  length ws = length (values_flatten mains).
Proof.
  intros Hn Hodd. pose proof (odd_half n Hodd). unfold preprocess_mains, window_chunk.
  rewrite np_pad_ok by lia. cbn. intros [= <-].
  rewrite length_fmap, sliding_windows_length, !length_app, !length_replicate. lia.
Qed.

(** With preprocessing, the arrays the training loop runs on are the
    windows of the chunks, one chunk after the other, and per appliance the
    normalized readings of all its chunks in order; for an odd window length
    there are as many windows as mains readings. *)
Theorem training_arrays_preprocessed (s : RNN) (train_main : list frame)
    (train_appliances : list (string * list frame)) windows targets :
  0 < sequence_length s ->
  training_arrays s train_main train_appliances true = Ok (windows, targets) ->
  (exists wss,
     Forall2 (fun chunk ws =>
                preprocess_mains (sequence_length s) (mains_mean s) (mains_std s) chunk
                = Ok ws) train_main wss
     /\ windows = concat wss)
  /\ (Z.odd (sequence_length s) = true ->
      length windows = length (concat (values_flatten <$> train_main)))
  /\ Forall2 (fun (a : string * list frame) (t : string * list float64) =>
                t.1 = a.1
                /\ exists st, appliance_params s !! a.1 = Some st
                     /\ t.2 = (fun x => normalize x (mean st) (std st))
                              <$> concat (concat a.2))
       train_appliances targets.
Proof.
  intros Hn. unfold training_arrays, call_preprocessing_train.
  destruct (mapM _ train_main) as [wss|e] eqn:Emains; [| done]. cbn.
  destruct (preprocess_appliances _ _) as [apps|e] eqn:Eapps; [| done]. cbn.
  apply mapM_inv in Emains.
  assert (Forall (Forall (fun w => Z.of_nat (length w) = sequence_length s)) wss) as Hw.
  { clear -Emains Hn. induction Emains as [|c ws cs wss Hc _ IH]; constructor; auto.
    eapply preprocess_mains_width; [lia | exact Hc]. }
  destruct (pd_concat wss) as [tm|e] eqn:Econcat; [| done]. cbn.
  assert (tm = concat wss) as ->.
  { destruct wss as [|ws0 wss']; [done |].
    rewrite (pd_concat_uniform (Z.to_nat (sequence_length s))) in Econcat.
    - by injection Econcat as <-.
    - done.
    - eapply Forall_impl; [exact Hw |]. intros ws Hws. cbn in Hws.
      eapply Forall_impl; [exact Hws |]. intros w Hlen. cbn in Hlen. lia. }
  rewrite reshape_windows_concat by (done || by apply Forall_concat). cbn.
  destruct (mapM _ apps) as [new|e] eqn:Enew; [| done]. cbn.
  intros [= <- <-]. split; [by exists wss |]. split.
  { intros Hodd. clear -Emains Hn Hodd.
    induction Emains as [|c ws cs wss Hc _ IH]; [done |].
    cbn. rewrite !length_app, IH.
    by rewrite (preprocess_mains_length_odd _ _ _ _ _ Hn Hodd Hc). }
  clear -Eapps Enew. revert apps new Eapps Enew.
  induction train_appliances as [|[name dfs] rest IH]; intros apps new; cbn.
  - intros [= <-]. cbn. intros [= <-]. constructor.
  - destruct (appliance_params s !! name) as [st|] eqn:Est; [| done].
    destruct (preprocess_appliances _ rest) as [tl|e] eqn:Etl; [| done]. cbn.
    intros [= <-]. cbn [mapM].
    destruct dfs as [|df dfs'].
    + cbn. done.
    + destruct (appliance_column st (df :: dfs')) as (col & -> & Hcol); [done |].
      cbn [mbind result_bind].
      destruct (mapM _ tl) as [new'|e] eqn:Enew'; [| done]. cbn [mbind result_bind].
      intros [= <-]. constructor; [| by eapply IH].
      cbn [fst snd]. split; [done |]. by exists st.
Qed.

Lemma training_arrays_preprocessed_witness :
  (exists wss,
     Forall2 (fun chunk ws =>
                preprocess_mains 3 (F64.of_Z 0) (F64.of_Z 1) chunk = Ok ws)
       seven_readings wss
     /\ rows [[0; 0; 0]; [0; 0; 0]; [0; 0; 5]; [0; 5; 0]; [5; 0; 0]; [0; 0; 0];
              [0; 0; 0]] = concat wss)
  /\ (Z.odd 3 = true ->
      length (rows [[0; 0; 0]; [0; 0; 0]; [0; 0; 5]; [0; 5; 0]; [5; 0; 0]; [0; 0; 0];
                    [0; 0; 0]])
      = length (concat (values_flatten <$> seven_readings)))
  /\ Forall2 (fun (a : string * list frame) (t : string * list float64) =>
                t.1 = a.1
                /\ exists st, appliance_params (self toy_first_ensured) !! a.1 = Some st
                     /\ t.2 = (fun x => normalize x (mean st) (std st))
                              <$> concat (concat a.2))
       kettle_readings kettle_targets.
Proof.
  apply (training_arrays_preprocessed (self toy_first_ensured) seven_readings
           kettle_readings).
  - vm_compute. reflexivity.
  - vm_compute. reflexivity.
Defined.

(** ** The parameter store over a training call *)

Lemma set_appliance_params_grows store train_appliances r store' :
  set_appliance_params store train_appliances = (r, store') ->
  forall k, is_Some (store !! k) -> is_Some (store' !! k).
Proof.
  revert store. induction train_appliances as [|[name dfs] rest IH]; intros store; cbn.
  - by intros [= _ <-].
  - destruct (pd_concat dfs) as [l|e]; [| by intros [= _ <-]].
    intros Hrun k Hk. apply (IH _ Hrun). rewrite lookup_insert_is_Some.
    destruct (decide (name = k)); auto.
Qed.

Lemma set_appliance_params_all_stored store train_appliances store' :
  set_appliance_params store train_appliances = (Ok (), store') ->
  forall name, name ∈ train_appliances.*1 -> is_Some (store' !! name).
Proof.
  revert store. induction train_appliances as [|[k dfs] rest IH]; intros store; cbn.
  - intros _ name Hin. by apply elem_of_nil in Hin.
  - destruct (pd_concat dfs) as [l|e]; [| done].
    intros Hrun name [->|Hin]%elem_of_cons; [| by eapply IH].
    eapply set_appliance_params_grows; [exact Hrun |].
    rewrite lookup_insert_eq. by eexists.
Qed.

Lemma set_appliance_params_error store train_appliances e store' :
  set_appliance_params store train_appliances = (Raise e, store') -> e = ValueError.
Proof.
  revert store. induction train_appliances as [|[k dfs] rest IH]; intros store; cbn.
  - done.
  - destruct dfs as [|df dfs]; cbn; [by intros [= <- _] | eauto].
Qed.

(** An appliance given without any chunk stops the computation of the
    statistics with [ValueError]: the appliances before it are stored, the
    ones after it are not looked at. *)
Theorem set_appliance_params_no_chunks store before app_name after :
  Forall (fun a : string * list frame => a.2 <> []) before ->
  set_appliance_params store (before ++ (app_name, []) :: after)
  = (Raise ValueError, (set_appliance_params store before).2)
  /\ (set_appliance_params store before).1 = Ok ()
  /\ forall name, name ∈ before.*1 ->
       is_Some ((set_appliance_params store before).2 !! name).
Proof.
  intros Hall. revert store.
  induction Hall as [|[k dfs] rest Hdfs _ IH]; intros store.
  - cbn. split; [done |]. split; [done |].
    intros name Hin. by apply elem_of_nil in Hin.
  - cbn in Hdfs. cbn [app set_appliance_params].
    destruct dfs as [|df dfs]; [done |]. cbn [pd_concat].
    destruct (IH (<[k := appliance_stats
                           (pad_row (max_list (frame_width <$> df :: dfs))
                            <$> concat (df :: dfs))]> store)) as (Hrun & Hok & Hin).
    split; [done |]. split; [done |].
    intros name [->|Hname]%elem_of_cons; [| by apply Hin].
    eapply set_appliance_params_grows; [apply surjective_pairing |].
    rewrite lookup_insert_eq. by eexists.
Qed.

Lemma set_appliance_params_no_chunks_witness :
  set_appliance_params ∅ (example_appliances ++ [("oven"%string, [])])
  = (Raise ValueError, (set_appliance_params ∅ example_appliances).2)
  /\ (set_appliance_params ∅ example_appliances).1 = Ok ()
  /\ forall name, name ∈ example_appliances.*1 ->
       is_Some ((set_appliance_params ∅ example_appliances).2 !! name).
Proof.
  apply (set_appliance_params_no_chunks ∅ example_appliances "oven" []).
  repeat constructor; discriminate.
Defined.
Lemma mapM_error {A B} (f : A -> result B) (l : list A) (e : exn) :
  mapM f l = Raise e -> exists a, a ∈ l /\ f a = Raise e.
Proof.
  induction l as [|a l IH]; cbn; [done |].
  destruct (f a) as [b|e'] eqn:Ea; cbn.
  - destruct (mapM f l) as [bs|e'] eqn:El; cbn; [done |].
    intros [= ->]. destruct IH as (a' & Hin & Ha'); [done |].
    exists a'. split; [by apply list_elem_of_further | done].
  - intros [= ->]. exists a. split; [apply list_elem_of_here | done].
Qed.

Lemma preprocess_mains_error n mains_mean mains_std mains e :
  preprocess_mains n mains_mean mains_std mains = Raise e -> e = ValueError.
Proof.
  unfold preprocess_mains, window_chunk, np_pad.
  destruct (n / 2 <? 0); cbn; [by intros [= <-] | done].
Qed.

Lemma pd_concat_error frames e : pd_concat frames = Raise e -> e = ValueError.
Proof. destruct frames; cbn; [by intros [= <-] | done]. Qed.

Lemma reshape_windows_error {A} (flat : list A) n e :
  reshape_windows flat n = Raise e -> e = ValueError.
Proof.
  unfold reshape_windows. destruct (n <=? 0); [by intros [= <-] |].
  destruct (_ =? 0); [done | by intros [= <-]].
Qed.

Lemma preprocess_appliances_error store submeters_lst e :
  preprocess_appliances store submeters_lst = Raise e ->
  e = ApplianceNotFoundError
  /\ exists app_name, app_name ∈ submeters_lst.*1 /\ store !! app_name = None.
Proof.
  induction submeters_lst as [|[k dfs] rest IH]; cbn; [done |].
  destruct (store !! k) as [st|] eqn:Ek.
  - destruct (preprocess_appliances store rest) as [tl|e']; cbn; [done |].
    intros [= ->]. destruct IH as (-> & name & Hin & Hnone); [done |].
    split; [done |]. exists name. split; [by apply list_elem_of_further | done].
  - intros [= <-]. split; [done |]. exists k. split; [apply list_elem_of_here | done].
Qed.

(** What the building of the training arrays can raise. *)
Lemma training_arrays_error (s : RNN) train_main train_appliances do_preprocessing e :
  training_arrays s train_main train_appliances do_preprocessing = Raise e ->
  e = ValueError
  \/ (e = ApplianceNotFoundError /\ do_preprocessing = true
      /\ exists app_name, app_name ∈ train_appliances.*1
                          /\ appliance_params s !! app_name = None).
Proof.
  unfold training_arrays.
  destruct (if do_preprocessing then _ else _) as [[tm ta]|e'] eqn:Epre; cbn.
  - intros Hrest. left.
    destruct (pd_concat tm) as [tm'|e'] eqn:E1; cbn in Hrest;
      [| injection Hrest as <-; by eapply pd_concat_error].
    destruct (reshape_windows _ _) as [ws|e'] eqn:E2; cbn in Hrest;
      [| injection Hrest as <-; by eapply reshape_windows_error].
    destruct (mapM _ ta) as [new|e'] eqn:E3; cbn in Hrest; [done |].
    injection Hrest as <-. apply mapM_error in E3 as ([name dfs] & _ & Ha).
    destruct (pd_concat dfs) as [df|e''] eqn:E4; cbn in Ha; [done |].
    injection Ha as <-. by eapply pd_concat_error.
  - intros [= <-]. destruct do_preprocessing; [| done].
    unfold call_preprocessing_train in Epre.
    destruct (mapM _ train_main) as [wss|e''] eqn:Em; cbn in Epre.
    + destruct (preprocess_appliances _ _) as [apps|e''] eqn:Ea; cbn in Epre; [done |].
      injection Epre as <-. apply preprocess_appliances_error in Ea as (-> & Hmissing).
      right. auto.
    + injection Epre as <-. apply mapM_error in Em as (c & _ & Hc).
      left. by eapply preprocess_mains_error.
Qed.

Lemma preprocess_appliances_known store submeters_lst :
  (forall app_name, app_name ∈ submeters_lst.*1 -> is_Some (store !! app_name)) ->
  exists apps, preprocess_appliances store submeters_lst = Ok apps.
Proof.
  induction submeters_lst as [|[k dfs] rest IH]; intros Hall; cbn; [eauto |].
  destruct (Hall k) as [st ->]; [apply list_elem_of_here |].
  destruct IH as [tl ->]; [| cbn; eauto].
  intros name Hin. apply Hall. by apply list_elem_of_further.
Qed.

Lemma same_configuration_refl s : same_configuration s s.
Proof. by repeat split. Qed.

Lemma registry_grows_refl ms : registry_grows ms ms.
Proof. by intros name m. Qed.

Lemma same_configuration_trans s1 s2 s3 :
  same_configuration s1 s2 -> same_configuration s2 s3 -> same_configuration s1 s3.
Proof.
  intros (?&?&?&?&?&?&?&?) (?&?&?&?&?&?&?&?). repeat split; congruence.
Qed.

Lemma registry_grows_trans ms1 ms2 ms3 :
  registry_grows ms1 ms2 -> registry_grows ms2 ms3 -> registry_grows ms1 ms3.
Proof. intros H1 H2 name m Hget. by apply H2, H1. Qed.

Section StoreOverTraining.
Context `{RT : Runtime}.

Lemma epoch_self model train val appliance_name current_epoch st :
  self (epoch model train val appliance_name current_epoch st).2 = self st.2
  /\ forall e, (epoch model train val appliance_name current_epoch st).1 = Raise e ->
               e = RuntimeError \/ e = ZeroDivisionError.
Proof.
  destruct st as [b w]. unfold epoch.
  destruct (train_epoch _ _ _ _ _) as [[vals opt'] r'].
  destruct train as [|? ?]; [split; [done | intros e [= <-]; auto] |].
  destruct val as [|? ?]; [split; [done | intros e [= <-]; auto] |].
  destruct (F64.ltb _ _); [destruct (writable _) |]; cbn;
    (split; [done | intros e [= <-]; auto]).
Qed.

Lemma epoch_loop_self k model train val appliance_name current_epoch st :
  self (epoch_loop k model train val appliance_name current_epoch st).2 = self st.2
  /\ forall e, (epoch_loop k model train val appliance_name current_epoch st).1 = Raise e ->
               e = RuntimeError \/ e = ZeroDivisionError.
Proof.
  revert st. induction k as [|k IH]; intros st; cbn; [by split |].
  destruct (epoch_self model train val appliance_name current_epoch st) as [Hself Herr].
  destruct (epoch _ _ _ _ _ st) as [[b1|e1] w1]; cbn [fst snd] in *.
  - destruct (IH (b1, w1)) as [Hself' Herr']. cbn [snd] in Hself'.
    split; [congruence | done].
  - split; [done |]. intros e [= <-]. by apply Herr.
Qed.

(** Training a network touches nothing of the estimator, and can only fail
    in a division by the number of batches, in the saving of a checkpoint
    or in the reload. *)
Lemma train_model_self model train val appliance_name current_epoch (w : world) :
  self (train_model model train val appliance_name current_epoch w).2 = self w
  /\ forall e, (train_model model train val appliance_name current_epoch w).1 = Raise e ->
               e = RuntimeError \/ e = ZeroDivisionError.
Proof.
  unfold train_model.
  pose proof (epoch_loop_self (Z.to_nat (n_epochs (self (emit w [EvTrainModel appliance_name]))))
                model train val appliance_name current_epoch
                (Best F64.inf None
                   (adam (deref (heap (emit w [EvTrainModel appliance_name])) model)),
                 emit w [EvTrainModel appliance_name])) as [Hself Herr].
  destruct (epoch_loop _ _ _ _ _ _ _) as [[b|e1] w1]; cbn [fst snd] in *.
  - destruct (best_model_state b) as [sd|]; [| by split].
    unfold load_state_dict. destruct (bool_decide _); cbn; split; try done.
    intros e [= <-]. auto.
  - split; [done |]. intros e [= <-]. by apply Herr.
Qed.

Lemma fit_appliance_keeps train_main current_epoch appliance (w : world) :
  let r := fit_appliance train_main current_epoch appliance w in
  same_configuration (self w) (self r.2)
  /\ registry_grows (models (self w)) (models (self r.2))
  /\ appliance_params (self r.2) = appliance_params (self w)
  /\ forall e, r.1 = Raise e -> e <> ApplianceNotFoundError.
Proof.
  destruct appliance as [appliance_name power]. cbv zeta. unfold fit_appliance.
  set (w1 := if od_mem (models (self w)) appliance_name then w else _).
  assert (same_configuration (self w) (self w1)
          /\ registry_grows (models (self w)) (models (self w1))
          /\ appliance_params (self w1) = appliance_params (self w))
    as (Hc & Hg & Hp).
  { subst w1. destruct (od_mem _ _) eqn:Hmem.
    - split; [apply same_configuration_refl |]. split; [apply registry_grows_refl | done].
    - apply od_mem_false in Hmem. unfold return_network. cbn [self emit rng_state heap].
      destruct (new_network _ _) as [named r]. destruct (alloc _ _) as [m h].
      split; [by repeat split |]. split; [| done].
      intros name m' Hget. cbn. rewrite od_get_set_ne; [done |]. intros <-. congruence. }
  clearbody w1.
  assert (forall (r : result ()) (w2 : world),
            self w2 = self w1 -> (forall e, r = Raise e -> e <> ApplianceNotFoundError) ->
            same_configuration (self w) (self (r, w2).2)
            /\ registry_grows (models (self w)) (models (self (r, w2).2))
            /\ appliance_params (self (r, w2).2) = appliance_params (self w)
            /\ forall e, (r, w2).1 = Raise e -> e <> ApplianceNotFoundError) as Hdone.
  { intros r w2 Hself Herr. cbn [fst snd]. by rewrite Hself. }
  destruct (od_get (models (self w1)) appliance_name) as [model|];
    [| apply Hdone; [done | by intros e [= <-]]].
  destruct (0 <? _); [| apply Hdone; [done | by intros e [=]]].
  destruct (10 <? _); [| apply Hdone; [done | by intros e [=]]].
  destruct (bool_decide _); [| apply Hdone; [done | by intros e [= <-]]].
  destruct (train_test_split _) as [train val].
  destruct (_ <=? 0); [apply Hdone; [done | by intros e [= <-]] |].
  set (w2 := emit (emit w1 _) _).
  destruct (train_model_self model train val appliance_name current_epoch w2)
    as [Hself Herr].
  rewrite (surjective_pairing (train_model _ _ _ _ _ w2)).
  apply Hdone; [by rewrite Hself |].
  intros e He ->. by destruct (Herr _ He).
Qed.

Lemma fit_appliances_keeps train_main current_epoch train_appliances (w : world) :
  let r := fit_appliances train_main current_epoch train_appliances w in
  same_configuration (self w) (self r.2)
  /\ registry_grows (models (self w)) (models (self r.2))
  /\ appliance_params (self r.2) = appliance_params (self w)
  /\ forall e, r.1 = Raise e -> e <> ApplianceNotFoundError.
Proof.
  revert w. induction train_appliances as [|a rest IH]; intros w; cbn [fit_appliances].
  - cbn. split; [apply same_configuration_refl |].
    split; [apply registry_grows_refl |]. split; [done |]. by intros e [=].
  - pose proof (fit_appliance_keeps train_main current_epoch a w) as Ha.
    cbv zeta in Ha. destruct (fit_appliance _ _ a w) as [[[]|e] w1]; cbn in Ha.
    + destruct Ha as (Hc & Hg & Hp & _).
      destruct (IH w1) as (Hc' & Hg' & Hp' & He').
      split; [by eapply same_configuration_trans |].
      split; [by eapply registry_grows_trans |].
      split; [congruence | done].
    + cbn. destruct Ha as (Hc & Hg & Hp & He).
      split; [done |]. split; [done |]. split; [done |].
      intros e' [= <-]. by apply He.
Qed.

(** [ApplianceNotFoundError] comes out of a training call only in the way
    the source raises it: preprocessing was asked for, the store was not
    empty, and it has no entry for one of the appliances of the call. *)
Theorem partial_fit_refuses_only_unknown train_main train_appliances
    (do_preprocessing : bool) current_epoch (w : world) :
  (partial_fit train_main train_appliances do_preprocessing current_epoch w).1
  = Raise ApplianceNotFoundError ->
  do_preprocessing = true
  /\ size (appliance_params (self w)) <> 0%nat
  /\ exists app_name, app_name ∈ train_appliances.*1
                      /\ appliance_params (self w) !! app_name = None.
Proof.
  unfold partial_fit, ensure_params.
  destruct (bool_decide (size (appliance_params (self w)) = 0%nat)) eqn:Hsize.
  - destruct (set_appliance_params _ _) as [[[]|e] store] eqn:Hset.
    + cbn [self set_self set_appliance_params_field].
      destruct (training_arrays _ _ _ _) as [[tm ta]|e] eqn:Harr.
      * intros He. exfalso.
        by apply (proj2 (proj2 (proj2 (fit_appliances_keeps tm current_epoch ta _))) _ He).
      * cbn. intros [= ->]. exfalso.
        apply training_arrays_error in Harr as [|(_ & _ & name & Hin & Hnone)]; [done |].
        cbn in Hnone.
        destruct (set_appliance_params_all_stored _ _ _ Hset name Hin) as [st Hst].
        congruence.
    + cbn. intros [= ->]. by apply set_appliance_params_error in Hset.
  - apply bool_decide_eq_false in Hsize.
    destruct (training_arrays _ _ _ _) as [[tm ta]|e] eqn:Harr.
    + intros He. exfalso.
      by apply (proj2 (proj2 (proj2 (fit_appliances_keeps tm current_epoch ta _))) _ He).
    + cbn. intros [= ->].
      apply training_arrays_error in Harr as [|(_ & -> & Hmissing)]; [done |].
      by repeat split.
Qed.

(** A training call never changes the configuration and never removes or
    replaces a registered network; when the store is not empty it leaves the
    store as it is, whatever the outcome of the call. *)
Theorem partial_fit_keeps_configuration train_main train_appliances
    (do_preprocessing : bool) current_epoch (w : world) :
  let w' := (partial_fit train_main train_appliances do_preprocessing current_epoch w).2 in
  same_configuration (self w) (self w')
  /\ registry_grows (models (self w)) (models (self w'))
  /\ (size (appliance_params (self w)) <> 0%nat ->
      appliance_params (self w') = appliance_params (self w)).
Proof.
  cbv zeta. unfold partial_fit, ensure_params.
  destruct (bool_decide (size (appliance_params (self w)) = 0%nat)) eqn:Hsize.
  - apply bool_decide_eq_true in Hsize.
    destruct (set_appliance_params _ _) as [[[]|e] store] eqn:Hset.
    + set (w1 := set_self w _).
      assert (same_configuration (self w) (self w1)) as Hc1 by (by repeat split).
      destruct (training_arrays _ _ _ _) as [[tm ta]|e] eqn:Harr.
      * destruct (fit_appliances_keeps tm current_epoch ta w1) as (Hc & Hg & _).
        split; [by eapply same_configuration_trans |]. split; [exact Hg | done].
      * cbn [snd]. split; [exact Hc1 |].
        split; [apply registry_grows_refl | done].
    + cbn [snd]. split; [by repeat split |].
      split; [apply registry_grows_refl | done].
  - apply bool_decide_eq_false in Hsize.
    destruct (training_arrays _ _ _ _) as [[tm ta]|e] eqn:Harr.
    + destruct (fit_appliances_keeps tm current_epoch ta w) as (Hc & Hg & Hp & _).
      split; [exact Hc |]. split; [exact Hg | done].
    + cbn. split; [apply same_configuration_refl |].
      split; [apply registry_grows_refl | done].
Qed.
End StoreOverTraining.

Lemma partial_fit_refuses_only_unknown_witness :
  true = true
  /\ size (appliance_params (self (toy_world [] fridge_store ∅))) <> 0%nat
  /\ exists app_name,
       app_name ∈ [("fridge"%string, [column [1; 1; 1; 2; 2; 2; 2]]);
                   ("kettle"%string, [column [1; 1; 1; 2; 2; 2; 2]])].*1
       /\ appliance_params (self (toy_world [] fridge_store ∅)) !! app_name = None.
Proof.
  apply (partial_fit_refuses_only_unknown (RT := toy) [column [0; 0; 0; 5; 0; 0; 0]]
           [("fridge"%string, [column [1; 1; 1; 2; 2; 2; 2]]);
            ("kettle"%string, [column [1; 1; 1; 2; 2; 2; 2]])] true 0
           (toy_world [] fridge_store ∅)).
  vm_compute. reflexivity.
Defined.

Lemma partial_fit_keeps_configuration_witness :
  appliance_params (self toy_fit_unchecked.2) = fridge_store.
Proof.
  refine (proj2 (proj2 (partial_fit_keeps_configuration (RT := toy) [twelve_windows]
                          [("kettle"%string, [twelve_targets])] false 0
                          (toy_world [] fridge_store ∅))) _).
  vm_compute. discriminate.
Defined.

(** ** What training a network touches *)

Lemma od_get_snd {V} (d : list (string * V)) k v : od_get d k = Some v -> v ∈ d.*2.
Proof.
  induction d as [|[k' v'] d IH]; cbn; [done |].
  destruct (decide (k' = k)).
  - intros [= ->]. apply list_elem_of_here.
  - intros H. apply list_elem_of_further. by apply IH.
Qed.

Lemma SFltb_inf x y : F64.ltb x y = true -> F64.ltb x F64.inf = true.
Proof. by destruct x as [[]|[]| |[] ? ?], y as [[]|[]| |[] ? ?]. Qed.

Section TrainModelFootprint.
Context `{RT : Runtime}.

Lemma write_params_other (h : gmap loc tensor) (m : module) vals l :
  l ∉ m.*2 -> write_params h m vals !! l = h !! l.
Proof.
  intros Hl. unfold write_params. revert h.
  induction vals as [|[k v] vals IH]; intros h; cbn; [done |].
  rewrite IH. destruct (od_get m k) as [l'|] eqn:Hk; [| done].
  apply lookup_insert_ne. intros ->. apply Hl. by eapply od_get_snd.
Qed.

Lemma epoch_heap_other model train val appliance_name current_epoch st l :
  l ∉ model.*2 ->
  heap (epoch model train val appliance_name current_epoch st).2 !! l = heap st.2 !! l.
Proof.
  intros Hl. destruct st as [b w]. unfold epoch.
  destruct (train_epoch _ _ _ _ _) as [[vals opt'] r'].
  destruct train as [|? ?]; [by apply write_params_other |].
  destruct val as [|? ?]; [by apply write_params_other |].
  destruct (F64.ltb _ _); [destruct (writable _) |]; cbn; by apply write_params_other.
Qed.

Lemma epoch_loop_heap_other k model train val appliance_name current_epoch st l :
  l ∉ model.*2 ->
  heap (epoch_loop k model train val appliance_name current_epoch st).2 !! l
  = heap st.2 !! l.
Proof.
  intros Hl. revert st. induction k as [|k IH]; intros st; cbn; [done |].
  pose proof (epoch_heap_other model train val appliance_name current_epoch st l Hl)
    as Hstep.
  destruct (epoch _ _ _ _ _ st) as [[b1|e1] w1]; cbn [snd] in *; [| done].
  by rewrite IH.
Qed.

Lemma load_state_dict_other (h h' : gmap loc tensor) (m : module) sd l :
  load_state_dict h m sd = Ok h' -> l ∉ m.*2 -> h' !! l = h !! l.
Proof.
  unfold load_state_dict. destruct (bool_decide _); [| done]. intros [= <-].
  revert h. induction m as [|[k dst] m IH]; intros h Hl; cbn; [done |].
  cbn in Hl. apply not_elem_of_cons in Hl as [Hne Hl].
  rewrite IH by done. destruct (od_get sd k) as [src|]; [| done].
  unfold copy_. destruct (h !! src); [| done]. by apply lookup_insert_ne.
Qed.

(** On loaders that are not empty, [train_model] changes no tensor but the
    parameters of the network it is given, and nothing of the estimator. *)
Theorem train_model_footprint model train val appliance_name current_epoch
    (w : world) l :
  train <> [] -> val <> [] ->
  l ∉ model.*2 ->
  heap (train_model model train val appliance_name current_epoch w).2 !! l = heap w !! l
  /\ self (train_model model train val appliance_name current_epoch w).2 = self w.
Proof.
  intros _ _ Hl. split; [| apply train_model_self].
  unfold train_model.
  pose proof (epoch_loop_heap_other
                (Z.to_nat (n_epochs (self (emit w [EvTrainModel appliance_name]))))
                model train val appliance_name current_epoch
                (Best F64.inf None
                   (adam (deref (heap (emit w [EvTrainModel appliance_name])) model)),
                 emit w [EvTrainModel appliance_name]) l Hl) as Hloop.
  destruct (epoch_loop _ _ _ _ _ _ _) as [[b|e1] w1]; cbn in Hloop; [| done].
  destruct (best_model_state b) as [sd|]; [| done].
  destruct (load_state_dict _ _ _) as [h|e] eqn:Hload; [| done].
  cbn. by rewrite (load_state_dict_other _ _ _ _ _ Hload Hl).
Qed.

Lemma epoch_checkpointed w0 model train val appliance_name current_epoch st :
  self st.2 = self w0 ->
  checkpointed w0 appliance_name current_epoch val st.2 ->
  checkpointed w0 appliance_name current_epoch val
    (epoch model train val appliance_name current_epoch st).2.
Proof.
  destruct st as [b w]. cbn [snd]. intros Hself Hinv. unfold epoch.
  destruct (train_epoch _ _ _ _ _) as [[vals opt'] r'].
  destruct train as [|? ?]; [exact Hinv |]. destruct val as [|s0 val0]; [exact Hinv |].
  cbn [self set_rng set_heap heap disk].
  destruct (F64.ltb _ _) eqn:Hlt; cbn [snd]; [| exact Hinv].
  destruct (writable _); cbn [snd]; [| exact Hinv].
  right. eexists. cbn [disk emit set_disk set_rng set_heap heap self].
  rewrite Hself. split.
  - destruct Hinv as [-> | (vals0 & -> & _)]; [done |]. by rewrite insert_insert_eq.
  - rewrite <- Hself. by eapply SFltb_inf.
Qed.

Lemma epoch_loop_checkpointed k w0 model train val appliance_name current_epoch st :
  self st.2 = self w0 ->
  checkpointed w0 appliance_name current_epoch val st.2 ->
  checkpointed w0 appliance_name current_epoch val
    (epoch_loop k model train val appliance_name current_epoch st).2.
Proof.
  revert st. induction k as [|k IH]; intros st Hself Hinv; cbn; [done |].
  pose proof (epoch_checkpointed w0 model train val appliance_name current_epoch st
                Hself Hinv) as Hstep.
  pose proof (proj1 (epoch_self model train val appliance_name current_epoch st))
    as Hself1.
  destruct (epoch _ _ _ _ _ st) as [[b1|e1] w1]; cbn [snd] in *; [| done].
  apply IH; [cbn [snd]; congruence | done].
Qed.

(** On loaders that are not empty, [train_model] writes to one path at
    most, the checkpoint of the appliance and round; every other file is as
    before, and what the checkpoint holds, if written, had a validation loss
    below infinity. *)
Theorem train_model_files model train val appliance_name current_epoch (w : world) :
  train <> [] -> val <> [] ->
  checkpointed w appliance_name current_epoch val
    (train_model model train val appliance_name current_epoch w).2.
Proof.
  intros _ _. unfold train_model.
  pose proof (epoch_loop_checkpointed
                (Z.to_nat (n_epochs (self (emit w [EvTrainModel appliance_name]))))
                w model train val appliance_name current_epoch
                (Best F64.inf None
                   (adam (deref (heap (emit w [EvTrainModel appliance_name])) model)),
                 emit w [EvTrainModel appliance_name]) eq_refl (or_introl eq_refl))
    as Hloop.
  destruct (epoch_loop _ _ _ _ _ _ _) as [[b|e1] w1]; cbn [snd] in Hloop; [| done].
  destruct (best_model_state b) as [sd|]; [| done].
  by destruct (load_state_dict _ _ _).
Qed.
End TrainModelFootprint.

Lemma train_model_footprint_witness :
  heap (train_model (RT := toy) fridge_network
          [([F64.of_Z 0; F64.of_Z 0; F64.of_Z 5], F64.of_Z 7)]
          [([F64.of_Z 0; F64.of_Z 5; F64.of_Z 5], F64.of_Z 7)] "fridge" 0
          (toy_world fridge_registry fridge_store two_network_heap)).2 !! 2%positive
  = heap (toy_world fridge_registry fridge_store two_network_heap) !! 2%positive
  /\ self (train_model (RT := toy) fridge_network
             [([F64.of_Z 0; F64.of_Z 0; F64.of_Z 5], F64.of_Z 7)]
             [([F64.of_Z 0; F64.of_Z 5; F64.of_Z 5], F64.of_Z 7)] "fridge" 0
             (toy_world fridge_registry fridge_store two_network_heap)).2
     = self (toy_world fridge_registry fridge_store two_network_heap).
Proof.
  apply (train_model_footprint (RT := toy) fridge_network
           [([F64.of_Z 0; F64.of_Z 0; F64.of_Z 5], F64.of_Z 7)]
           [([F64.of_Z 0; F64.of_Z 5; F64.of_Z 5], F64.of_Z 7)] "fridge" 0
           (toy_world fridge_registry fridge_store two_network_heap) 2%positive).
  - discriminate.
  - discriminate.
  - compute_done.
Defined.

Lemma train_model_files_witness :
  checkpointed (RT := toy) (toy_world fridge_registry fridge_store two_network_heap)
    "fridge" 0 [([F64.of_Z 0; F64.of_Z 5; F64.of_Z 5], F64.of_Z 7)]
    (train_model (RT := toy) fridge_network
       [([F64.of_Z 0; F64.of_Z 0; F64.of_Z 5], F64.of_Z 7)]
       [([F64.of_Z 0; F64.of_Z 5; F64.of_Z 5], F64.of_Z 7)] "fridge" 0
       (toy_world fridge_registry fridge_store two_network_heap)).2.
Proof.
  apply (train_model_files (RT := toy) fridge_network
           [([F64.of_Z 0; F64.of_Z 0; F64.of_Z 5], F64.of_Z 7)]
           [([F64.of_Z 0; F64.of_Z 5; F64.of_Z 5], F64.of_Z 7)] "fridge" 0
           (toy_world fridge_registry fridge_store two_network_heap)).
  - discriminate.
  - discriminate.
Defined.

(** ** The checkpoint's file name *)

Lemma string_length_app (s t : string) :
  String.length (s +:+ t) = (String.length s + String.length t)%nat.
Proof. induction s as [|c s IH]; simpl; [done | by rewrite IH]. Qed.

Lemma string_app_inv_tail (s1 s2 t : string) : s1 +:+ t = s2 +:+ t -> s1 = s2.
Proof.
  revert s2. induction s1 as [|c s1 IH]; intros [|c' s2] H; simpl in H.
  - done.
  - apply (f_equal String.length) in H. simpl in H.
    rewrite ?string_length_app in H. simpl in H. lia.
  - apply (f_equal String.length) in H. simpl in H.
    rewrite ?string_length_app in H. simpl in H. lia.
  - injection H as -> H. f_equal. by apply IH.
Qed.

Lemma replace_spaces_idemp (s : string) : replace_spaces (replace_spaces s) = replace_spaces s.
Proof.
  induction s as [|c s IH]; simpl; [done |]. rewrite IH. f_equal.
  destruct (decide (c = " "%char)); [done |]. by rewrite decide_False.
Qed.

(** In one round, two appliances are checkpointed to the same file exactly
    when their names are the same once spaces are replaced by underscores;
    so a name with spaces shares its file with its underscored spelling. *)
Theorem checkpoint_path_shared (s : RNN) (name1 name2 : string) (current_epoch : Z) :
  (checkpoint_path s name1 current_epoch = checkpoint_path s name2 current_epoch
   <-> replace_spaces name1 = replace_spaces name2)
  /\ checkpoint_path s (replace_spaces name1) current_epoch
     = checkpoint_path s name1 current_epoch.
Proof.
  unfold checkpoint_path. split; [split |].
  - intros H. apply (inj (String.app _)) in H. apply (inj (String.app _)) in H.
    by apply string_app_inv_tail in H.
  - by intros ->.
  - by rewrite replace_spaces_idemp.
Qed.

(** ** Inference: what the tables hold *)

Lemma concat_rows_of {A} (count n : nat) (flat : list A) :
  concat (rows_of count n flat) = take (count * n) flat.
Proof.
  revert flat. induction count as [|c IH]; intros flat; cbn; [done |].
  by rewrite IH, take_take_drop.
Qed.

(** The batches of a loader, one after the other, are the items it was
    given. *)
Lemma batches_concat {A} (bs : Z) (l : list A) : 0 < bs -> concat (batches bs l) = l.
Proof.
  intros Hbs. unfold batches. rewrite concat_rows_of. apply take_ge.
  rewrite <- Z2Nat.inj_mul by (try apply Z.div_pos; lia).
  pose proof (Z.div_mod (Z.of_nat (length l) + bs - 1) bs).
  pose proof (Z.mod_pos_bound (Z.of_nat (length l) + bs - 1) bs). lia.
Qed.

Lemma concat_fmap_fmap {A B} (f : A -> B) (ls : list (list A)) :
  concat ((fun l : list A => f <$> l) <$> ls) = f <$> concat ls.
Proof. induction ls as [|l ls IH]; cbn; [done |]. by rewrite IH, fmap_app. Qed.

Lemma od_set_fresh {V} (d : list (string * V)) k v :
  k ∉ d.*1 -> od_set d k v = d ++ [(k, v)].
Proof.
  induction d as [|[k' v'] d IH]; cbn; [done |].
  intros [Hne Hd]%not_elem_of_cons. rewrite decide_False by done. by rewrite IH.
Qed.

Lemma np_concatenate_ok {A} (arrays : list (list A)) :
  arrays <> [] -> np_concatenate arrays = Ok (concat arrays).
Proof. by destruct arrays. Qed.

Section Tables.
Context `{RT : Runtime}.

Lemma disaggregate_appliance_values (w : world) test_main appliance model st :
  0 < batch_size (self w) -> test_main <> [] ->
  appliance_params (self w) !! appliance = Some st ->
  (disaggregate_appliance w test_main appliance model).1
  = Ok (prediction_of w st model <$> test_main).
Proof.
  intros Hbs Hne Hst. unfold disaggregate_appliance.
  destruct (Z.leb_spec (batch_size (self w)) 0); [lia |].
  cbn [self set_rng heap].
  pose proof (batches_nonempty (batch_size (self w)) test_main Hbs Hne) as Hb.
  pose proof (batches_concat (batch_size (self w)) test_main Hbs) as Hc.
  set (bss := batches (batch_size (self w)) test_main) in *. clearbody bss.
  rewrite np_concatenate_ok by (by destruct bss).
  rewrite Hst. cbn [fst]. f_equal.
  rewrite concat_fmap_fmap, Hc, <- !list_fmap_compose. done.
Qed.


Lemma disaggregate_appliances_table (w0 w : world) windows items d :
  self w = self w0 -> heap w = heap w0 ->
  0 < batch_size (self w0) -> windows <> [] ->
  NoDup (d.*1 ++ items.*1) ->
  (forall name, name ∈ items.*1 -> is_Some (appliance_params (self w0) !! name)) ->
  exists cols,
    (disaggregate_appliances w windows items d).1 = Ok (d ++ cols)
    /\ Forall2 (fun (item : string * module) (column : string * list float64) =>
                  column.1 = item.1
                  /\ exists st, appliance_params (self w0) !! item.1 = Some st
                       /\ column.2 = prediction_of w0 st item.2 <$> windows)
         items cols.
Proof.
  intros Hself Hheap Hbs Hne. revert w d Hself Hheap.
  induction items as [|[appliance model] rest IH]; intros w d Hself Hheap Hnd Hall;
    cbn [disaggregate_appliances].
  - exists []. split; [by rewrite app_nil_r | constructor].
  - destruct (Hall appliance) as [st Hst]; [apply list_elem_of_here |].
    pose proof (disaggregate_appliance_values w windows appliance model st) as Hcol.
    rewrite Hself in Hcol. specialize (Hcol Hbs Hne Hst).
    pose proof (disaggregate_appliance_world w windows appliance model)
      as (Hself1 & Hheap1 & _).
    destruct (disaggregate_appliance w windows appliance model) as [r w1].
    cbn [fst snd] in *. subst r.
    cbn [fmap list_fmap] in Hnd. apply NoDup_app in Hnd as (Hd & Hdisj & Hitems).
    apply NoDup_cons in Hitems as [Hfresh Hrest].
    rewrite od_set_fresh by (intros Hin; by apply (Hdisj _ Hin), list_elem_of_here).
    destruct (IH w1 (d ++ [(appliance, prediction_of w st model <$> windows)]))
      as (cols & -> & Hcols).
    + congruence.
    + congruence.
    + rewrite fmap_app. cbn. rewrite <- app_assoc. cbn.
      apply NoDup_app. split; [done |]. split.
      * intros x Hx Hin. by apply (Hdisj x Hx).
      * by apply NoDup_cons.
    + intros name Hin. apply Hall. by apply list_elem_of_further.
    + eexists. split; [by rewrite <- app_assoc |].
      constructor; [| done]. cbn. split; [done |]. exists st. split; [done |].
      unfold prediction_of. by rewrite Hheap.
Qed.

Lemma disaggregate_appliances_world (w : world) windows items d :
  let w' := (disaggregate_appliances w windows items d).2 in
  self w' = self w /\ heap w' = heap w /\ disk w' = disk w /\ log w' = log w.
Proof.
  cbv zeta. revert w d. induction items as [|[appliance model] rest IH]; intros w d;
    cbn [disaggregate_appliances]; [done |].
  pose proof (disaggregate_appliance_world w windows appliance model)
    as (Hs & Hh & Hd & Hl).
  destruct (disaggregate_appliance w windows appliance model) as [[col|e] w1];
    cbn [snd] in *; [| done].
  destruct (IH w1 (od_set d appliance col)) as (Hs' & Hh' & Hd' & Hl').
  repeat split; congruence.
Qed.

Lemma DataFrame_float32_table (w : world) registry windows cols :
  Forall2 (fun (item : string * module) (column : string * list float64) =>
             column.1 = item.1
             /\ exists st, appliance_params (self w) !! item.1 = Some st
                  /\ column.2 = prediction_of w st item.2 <$> windows)
    registry cols ->
  table_of w registry windows (DataFrame_float32 cols).
Proof.
  unfold table_of, DataFrame_float32.
  induction 1 as [|item col registry cols (Hname & st & Hst & Hcol) _ IH]; cbn;
    constructor; [| done].
  cbn. split; [done |]. exists st. split; [done |].
  rewrite Hcol, <- list_fmap_compose. done.
Qed.

Lemma disaggregate_chunks_tables (w0 w : world) (wss : list frame) :
  self w = self w0 -> heap w = heap w0 ->
  0 < sequence_length (self w0) -> 0 < batch_size (self w0) ->
  NoDup (models (self w0)).*1 ->
  (forall name, name ∈ (models (self w0)).*1 ->
                is_Some (appliance_params (self w0) !! name)) ->
  Forall (fun ws => ws <> []
                    /\ Forall (fun win => Z.of_nat (length win) = sequence_length (self w0)) ws)
    wss ->
  exists tables,
    (disaggregate_chunks wss w).1 = Ok tables
    /\ Forall2 (fun ws table => table_of w0 (models (self w0)) ws table) wss tables.
Proof.
  intros Hself Hheap Hn Hbs Hnd Hall Hwss. revert w Hself Hheap.
  induction wss as [|ws wss IH]; intros w Hself Hheap; cbn [disaggregate_chunks].
  - exists []. split; [done | constructor].
  - apply Forall_cons in Hwss as [[Hne Hwidth] Hwss].
    rewrite Hself. rewrite reshape_windows_concat by done.
    change (self (emit w [EvFloatTensor])) with (self w). rewrite Hself.
    set (w1 := emit w [EvFloatTensor]).
    destruct (disaggregate_appliances_table w0 w1 ws (models (self w0)) [])
      as (cols & Hcols & Htable); try done.
    pose proof (disaggregate_appliances_world w1 ws (models (self w0)) [])
      as (Hs2 & Hh2 & _).
    destruct (disaggregate_appliances w1 ws (models (self w0)) []) as [r w2].
    cbn [fst snd] in *. subst r.
    destruct (IH Hwss w2) as (tables & Htables & Hall2).
    { rewrite Hs2. exact Hself. }
    { rewrite Hh2. exact Hheap. }
    rewrite (surjective_pairing (disaggregate_chunks wss w2)), Htables. cbn.
    eexists. split; [reflexivity |]. constructor; [| exact Hall2].
    by apply (DataFrame_float32_table w0).
Qed.

(** Inference with preprocessing, when every network of the registry has
    statistics and every chunk a reading: one table per chunk, which has a
    column per network in the order of the registry, and in each column the
    estimate for each window of the chunk, in order. *)
Theorem disaggregate_chunk_tables (test_main_list : list frame) model (w : world) :
  0 < sequence_length (self w) -> 0 < batch_size (self w) ->
  NoDup (default (models (self w)) model).*1 ->
  (forall name, name ∈ (default (models (self w)) model).*1 ->
                is_Some (appliance_params (self w) !! name)) ->
  Forall (fun chunk => values_flatten chunk <> []) test_main_list ->
  exists tables,
    (disaggregate_chunk test_main_list model true w).1 = Ok tables
    /\ Forall2 (fun chunk table =>
                  exists ws,
                    preprocess_mains (sequence_length (self w)) (mains_mean (self w))
                      (mains_std (self w)) chunk = Ok ws
                    /\ table_of w (default (models (self w)) model) ws table)
         test_main_list tables.
Proof.
  intros Hn Hbs Hnd Hall Hchunks. unfold disaggregate_chunk.
  destruct (swap_keeps_configuration w model) as (Hn0 & Hbs0 & Hp0 & Hc0 & Hm0).
  cbv zeta in Hn0, Hbs0, Hp0, Hc0, Hm0.
  set (w0 := match model with Some ms => _ | None => w end) in *.
  assert (heap w0 = heap w) as Hh0 by (subst w0; by destruct model).
  rewrite Hc0. unfold call_preprocessing_test.
  destruct (mapM_ok (preprocess_mains (sequence_length (self w)) (mains_mean (self w))
                       (mains_std (self w))) test_main_list) as (wss & -> & Hpre).
  { intros c _. apply preprocess_mains_ok. lia. }
  destruct (disaggregate_chunks_tables w0 w0 wss) as (tables & -> & Htables).
  - done.
  - done.
  - lia.
  - lia.
  - by rewrite Hm0.
  - intros name Hin. rewrite Hp0. apply Hall. by rewrite <- Hm0.
  - rewrite Hn0. clear -Hpre Hchunks Hn.
    induction Hpre as [|c ws cs wss Hc _ IH]; [constructor |].
    apply Forall_cons in Hchunks as [Hne Hchunks]. constructor; [| by apply IH].
    destruct (preprocess_mains_nonempty _ (mains_mean (self w)) (mains_std (self w)) c
                Hn Hne) as (ws' & Hc' & Hne' & Hwidth).
    rewrite Hc in Hc'. by injection Hc' as <-.
  - exists tables. split; [done |].
    clear -Hpre Htables Hm0 Hp0 Hh0. revert tables Htables.
    induction Hpre as [|c ws cs wss Hc _ IH]; intros tables Htables.
    + inversion Htables. constructor.
    + inversion Htables as [|? table ? tables' Htable Hrest]; subst.
      constructor; [| by apply IH]. exists ws. split; [done |].
      unfold table_of in *. rewrite <- Hm0.
      eapply Forall2_impl; [exact Htable |].
      intros item col (Hname & st & Hst & Hcol). split; [done |].
      exists st. rewrite <- Hp0. split; [done |].
      rewrite Hcol. unfold estimate, prediction_of. by rewrite Hh0.
Qed.
End Tables.

(** The kinds of the statistics decide the arithmetic.  For an estimate of
    2, a mean of 0.1 and a std of 0.3: given as Python numbers the result is
    the binary32 number above 0.7, given as NumPy float64 scalars it is the
    binary64 sum, which the table rounds to the binary32 number below
    0.7. *)
Lemma np_denormalize_kinds :
  let tenth := S754_finite false 7205759403792794 (-56) in
  let three_tenths := S754_finite false 5404319552844595 (-54) in
  to_float32 (np_denormalize (F64.of_Z 2) (PyNumber tenth) (PyNumber three_tenths))
  = S754_finite false 11744052 (-24)
  /\ to_float32 (np_denormalize (F64.of_Z 2) (NpFloat64 tenth) (NpFloat64 three_tenths))
     = S754_finite false 11744051 (-24).
Proof. split; vm_compute; reflexivity. Qed.


Lemma disaggregate_chunk_tables_witness :
  exists tables,
    toy_inference.1 = Ok tables
    /\ Forall2 (fun chunk table =>
                  exists ws,
                    preprocess_mains 3 (F64.of_Z 0) (F64.of_Z 1) chunk = Ok ws
                    /\ table_of (toy_world fridge_registry fridge_store fridge_heap)
                         fridge_registry ws table)
         [column [0; 5; 0]] tables.
Proof.
  apply (disaggregate_chunk_tables (RT := toy) [column [0; 5; 0]] None
           (toy_world fridge_registry fridge_store fridge_heap)).
  - vm_compute. reflexivity.
  - vm_compute. reflexivity.
  - compute_done.
  - intros name ->%list_elem_of_singleton. vm_compute. eauto.
  - repeat constructor. discriminate.
Defined.

Section InferenceEdges.
Context `{RT : Runtime}.

(** A network of the loop draws at most once from the generator, and once
    when its column is built. *)
Lemma disaggregate_appliance_draws (w : world) test_main appliance model :
  let r := disaggregate_appliance w test_main appliance model in
  exists j, (j <= 1)%nat
    /\ rng_state r.2 = Nat.iter j dataloader_iter (rng_state w)
    /\ (forall col, r.1 = Ok col -> j = 1%nat).
Proof.
  cbv zeta. unfold disaggregate_appliance.
  destruct (batch_size (self w) <=? 0).
  { exists 0%nat. split; [lia |]. by split. }
  exists 1%nat. split; [lia |]. split; [| done].
  destruct (np_concatenate _); [| done].
  cbn [self set_rng]. by destruct (appliance_params (self w) !! appliance).
Qed.

Lemma disaggregate_appliances_draws (w : world) windows items d :
  let r := disaggregate_appliances w windows items d in
  exists j, (j <= length items)%nat
    /\ rng_state r.2 = Nat.iter j dataloader_iter (rng_state w)
    /\ (forall d', r.1 = Ok d' -> j = length items).
Proof.
  cbv zeta. revert w d. induction items as [|[appliance model] rest IH]; intros w d;
    cbn [disaggregate_appliances].
  - exists 0%nat. by repeat split.
  - destruct (disaggregate_appliance_draws w windows appliance model)
      as (j1 & Hj1 & Hr1 & Hok1). cbv zeta in *.
    destruct (disaggregate_appliance w windows appliance model) as [[col|e] w1];
      cbn [fst snd] in *.
    + destruct (IH w1 (od_set d appliance col)) as (j2 & Hj2 & Hr2 & Hok2).
      exists (j2 + j1)%nat. split; [cbn; lia |]. split.
      * by rewrite Hr2, Hr1, Nat.iter_add.
      * intros d' Hd'. rewrite (Hok2 _ Hd'), (Hok1 _ eq_refl). cbn. lia.
    + exists j1. split; [cbn; lia |]. split; [done | done].
Qed.

Lemma disaggregate_chunks_reads_only (wss : list frame) (w : world) :
  let r := disaggregate_chunks wss w in
  self r.2 = self w /\ heap r.2 = heap w /\ disk r.2 = disk w
  /\ (exists k, (k <= length wss)%nat /\ log r.2 = log w ++ replicate k EvFloatTensor)
  /\ exists j, (j <= length wss * length (models (self w)))%nat
       /\ rng_state r.2 = Nat.iter j dataloader_iter (rng_state w)
       /\ (forall tables, r.1 = Ok tables ->
           j = (length wss * length (models (self w)))%nat).
Proof.
  cbv zeta. revert w. induction wss as [|ws wss IH]; intros w; cbn [disaggregate_chunks].
  - cbn. repeat split; try done.
    + exists 0%nat. split; [done | by rewrite app_nil_r].
    + exists 0%nat. by repeat split.
  - destruct (reshape_windows _ _) as [windows|e].
    2: { cbn [fst snd]. repeat split; try done.
         - exists 0%nat. split; [lia | by rewrite app_nil_r].
         - exists 0%nat. split; [lia |]. by split. }
    pose proof (disaggregate_appliances_world (emit w [EvFloatTensor]) windows
                  (models (self w)) []) as (Hs2 & Hh2 & Hd2 & Hl2).
    destruct (disaggregate_appliances_draws (emit w [EvFloatTensor]) windows
                (models (self w)) []) as (j1 & Hj1 & Hr1 & Hok1).
    cbv zeta in *. cbn [self emit heap disk log rng_state] in *.
    destruct (disaggregate_appliances (emit w [EvFloatTensor]) windows
                (models (self w)) []) as [[d|e] w2]; cbn [fst snd] in *.
    2: { repeat split; try done.
         - exists 1%nat. split; [cbn [length]; lia | by rewrite Hl2].
         - exists j1. split; [cbn [length]; nia |]. by split. }
    destruct (IH w2) as (Hs3 & Hh3 & Hd3 & (k & Hk & Hl3) & j2 & Hj2 & Hr3 & Hok3).
    rewrite Hs2 in Hj2, Hok3. cbn [length].
    assert (self (disaggregate_chunks wss w2).2 = self w
            /\ heap (disaggregate_chunks wss w2).2 = heap w
            /\ disk (disaggregate_chunks wss w2).2 = disk w
            /\ (exists k0, (k0 <= S (length wss))%nat
                 /\ log (disaggregate_chunks wss w2).2 = log w ++ replicate k0 EvFloatTensor)
            /\ exists j, (j <= S (length wss) * length (models (self w)))%nat
                 /\ rng_state (disaggregate_chunks wss w2).2
                    = Nat.iter j dataloader_iter (rng_state w)
                 /\ (forall tables, (disaggregate_chunks wss w2).1 = Ok tables ->
                     j = (S (length wss) * length (models (self w)))%nat))
      as Hall.
    { split; [congruence |]. split; [congruence |]. split; [congruence |]. split.
      - exists (S k). split; [lia |]. rewrite Hl3, Hl2. cbn. by rewrite <- app_assoc.
      - exists (j2 + j1)%nat. split; [nia |]. split.
        + by rewrite Hr3, Hr1, Nat.iter_add.
        + intros tables Ht. rewrite (Hok3 _ Ht), (Hok1 _ eq_refl). nia. }
    destruct (disaggregate_chunks wss w2) as [[tl|e] w3]; cbn [fst snd] in *.
    + destruct Hall as (? & ? & ? & ? & j & ? & ? & Hok). repeat split; try done.
      exists j. repeat split; try done. intros tables _. by eapply Hok.
    + destruct Hall as (? & ? & ? & ? & j & ? & ? & Hok). repeat split; try done.
      exists j. by repeat split.
Qed.

(** Inference changes no tensor, no file, no statistics and no
    configuration, whatever its outcome.  The registry is the one passed to
    the call, if any, and stays so after it; the log grows by the tensors
    built, one per chunk at most.  The global generator does not stay as it
    was: every loader that is iterated draws from it, one per chunk and
    network when the call returns its tables. *)
Theorem disaggregate_chunk_reads_only (test_main_list : list frame) model
    (do_preprocessing : bool) (w : world) :
  let r := disaggregate_chunk test_main_list model do_preprocessing w in
  let registry := default (models (self w)) model in
  heap r.2 = heap w /\ disk r.2 = disk w
  /\ self r.2 = match model with
                | Some ms => set_models (self w) ms
                | None => self w
                end
  /\ (exists k, (k <= length test_main_list)%nat
                /\ log r.2 = log w ++ replicate k EvFloatTensor)
  /\ exists j, (j <= length test_main_list * length registry)%nat
       /\ rng_state r.2 = Nat.iter j dataloader_iter (rng_state w)
       /\ (forall tables, r.1 = Ok tables ->
           j = (length test_main_list * length registry)%nat).
Proof.
  cbv zeta. unfold disaggregate_chunk.
  set (w0 := match model with Some ms => _ | None => w end).
  assert (heap w0 = heap w /\ disk w0 = disk w /\ rng_state w0 = rng_state w
          /\ log w0 = log w
          /\ self w0 = match model with
                       | Some ms => set_models (self w) ms
                       | None => self w
                       end
          /\ models (self w0) = default (models (self w)) model)
    as (Hh & Hd & Hr & Hl & Hs & Hm) by (subst w0; by destruct model).
  destruct (if do_preprocessing then _ else _) as [wss|e] eqn:Hpre.
  - assert (length wss = length test_main_list) as Hlen.
    { destruct do_preprocessing; [| by injection Hpre as <-].
      apply mapM_inv, Forall2_length in Hpre. lia. }
    destruct (disaggregate_chunks_reads_only wss w0)
      as (Hs1 & Hh1 & Hd1 & (k & Hk & Hl1) & j & Hj & Hr1 & Hok).
    rewrite Hm, Hlen in Hj, Hok. rewrite Hlen in Hk.
    split; [congruence |]. split; [congruence |]. split; [congruence |]. split.
    + exists k. split; [done | congruence].
    + exists j. split; [done |]. split; [congruence | done].
  - cbn [fst snd]. repeat split; try done.
    + exists 0%nat. split; [lia |]. by rewrite Hl, app_nil_r.
    + exists 0%nat. split; [lia |]. by split.
Qed.

(** Without any network in the registry, inference with preprocessing
    returns an empty table for every chunk, empty chunks included. *)
Theorem disaggregate_chunk_no_network (test_main_list : list frame) model (w : world) :
  0 < sequence_length (self w) ->
  default (models (self w)) model = [] ->
  (disaggregate_chunk test_main_list model true w).1
  = Ok (replicate (length test_main_list) []).
Proof.
  intros Hn Hreg. unfold disaggregate_chunk.
  destruct (swap_keeps_configuration w model) as (Hn0 & _ & _ & Hc0 & Hm0).
  cbv zeta in Hn0, Hc0, Hm0. rewrite Hreg in Hm0.
  set (w0 := match model with Some ms => _ | None => w end) in *. clearbody w0.
  rewrite Hc0. unfold call_preprocessing_test.
  destruct (mapM_ok (preprocess_mains (sequence_length (self w)) (mains_mean (self w))
                       (mains_std (self w))) test_main_list) as (wss & -> & Hpre).
  { intros c _. apply preprocess_mains_ok. lia. }
  rewrite (Forall2_length _ _ _ Hpre).
  assert (Forall (Forall (fun win => Z.of_nat (length win) = sequence_length (self w0))) wss)
    as Hwidth.
  { rewrite Hn0. clear -Hpre Hn. induction Hpre as [|c ws cs wss Hc _ IH]; constructor; auto.
    eapply preprocess_mains_width; [lia | exact Hc]. }
  clear Hpre Hc0. revert w0 Hn0 Hm0 Hwidth.
  induction wss as [|ws wss IH]; intros w0 Hn0 Hm0 Hwidth; cbn [disaggregate_chunks].
  - done.
  - apply Forall_cons in Hwidth as [Hws Hwidth].
    rewrite reshape_windows_concat by (done || lia).
    cbn [self emit]. rewrite Hm0. cbn [disaggregate_appliances].
    specialize (IH (emit w0 [EvFloatTensor]) Hn0 Hm0 Hwidth).
    destruct (disaggregate_chunks wss _) as [[tl|e] w1]; cbn in IH |- *; [| done].
    by injection IH as ->.
Qed.

(** A batch size that is not positive makes inference raise [ValueError] at
    the first network of the first chunk. *)
Theorem disaggregate_chunk_batch_size (chunk : frame) rest model (w : world) :
  0 < sequence_length (self w) ->
  batch_size (self w) <= 0 ->
  default (models (self w)) model <> [] ->
  (disaggregate_chunk (chunk :: rest) model true w).1 = Raise ValueError.
Proof.
  intros Hn Hbs Hreg. unfold disaggregate_chunk.
  destruct (swap_keeps_configuration w model) as (Hn0 & Hbs0 & _ & Hc0 & Hm0).
  cbv zeta in Hn0, Hbs0, Hc0, Hm0. rewrite <- Hm0 in Hreg.
  set (w0 := match model with Some ms => _ | None => w end) in *. clearbody w0.
  rewrite Hc0. unfold call_preprocessing_test.
  destruct (mapM_ok (preprocess_mains (sequence_length (self w)) (mains_mean (self w))
                       (mains_std (self w))) (chunk :: rest)) as (wss & -> & Hpre).
  { intros c _. apply preprocess_mains_ok. lia. }
  inversion Hpre as [|? ws ? wss' Hc _]; subst. cbn [disaggregate_chunks].
  rewrite reshape_windows_concat.
  2: lia.
  2: { rewrite Hn0. eapply preprocess_mains_width; [| exact Hc]. lia. }
  cbn [self emit]. destruct (models (self w0)) as [|[appliance m] items]; [done |].
  cbn [disaggregate_appliances]. unfold disaggregate_appliance. cbn [self emit].
  destruct (Z.leb_spec (batch_size (self w0)) 0); [done | lia].
Qed.
End InferenceEdges.

Lemma disaggregate_chunk_no_network_witness :
  (disaggregate_chunk (RT := toy) [column [1; 2]; column []] None true
     (toy_world [] fridge_store ∅)).1 = Ok [[]; []].
Proof.
  apply (disaggregate_chunk_no_network (RT := toy) [column [1; 2]; column []] None
           (toy_world [] fridge_store ∅)).
  - vm_compute. reflexivity.
  - reflexivity.
Defined.

Lemma disaggregate_chunk_batch_size_witness :
  (disaggregate_chunk (RT := toy) [column [0; 5; 0]] None true zero_batch_world).1
  = Raise ValueError.
Proof.
  apply (disaggregate_chunk_batch_size (RT := toy) (column [0; 5; 0]) [] None
           zero_batch_world).
  - vm_compute. reflexivity.
  - vm_compute. discriminate.
  - discriminate.
Defined.

(** ** The network's shapes *)

(** On a batch of windows with one reading per step, shape (batch, length,
    1), [RNNModel.forward] returns one estimate per window, shape (batch,
    1); any other number of readings per step is refused by the
    convolution.  With kernel 4 and padding 2 the convolution does not keep
    the length: it hands the recurrent layers one step more than the window
    has. *)
Theorem forward_shape_spec (batch length : Z) :
  0 < batch -> 0 < length ->
  forward_shape [batch; length; 1] = Some [batch; 1]
  /\ forward_conv [batch; length; 1] = Some [batch; length + 1; 16]
  /\ forall features, features <> 1 ->
       forward_shape [batch; length; features] = None.
Proof.
  intros Hb Hl.
  assert (Hconv : forward_conv [batch; length; 1] = Some [batch; length + 1; 16]).
  { unfold forward_conv. cbn.
    rewrite bool_decide_eq_true_2 by lia. cbn.
    unfold conv_length. rewrite Z.div_1_r. do 3 f_equal. lia. }
  split; [| split; [exact Hconv |]].
  - unfold forward_shape. rewrite Hconv. cbn.
    rewrite bool_decide_eq_true_2 by lia. cbn.
    rewrite bool_decide_eq_true_2 by lia. cbn.
    rewrite bool_decide_eq_true_2 by lia. cbn. done.
  - intros features Hf. unfold forward_shape, forward_conv. cbn.
    rewrite bool_decide_eq_false_2; [done |]. intros [? _]. done.
Qed.

Lemma forward_shape_spec_witness :
  forward_shape [512; 19; 1] = Some [512; 1]
  /\ forward_conv [512; 19; 1] = Some [512; 19 + 1; 16]
  /\ forall features, features <> 1 -> forward_shape [512; 19; features] = None.
Proof. exact (forward_shape_spec 512 19 ltac:(lia) ltac:(lia)). Defined.

(** ** Networks do not interfere *)

Lemma od_get_is_Some {V} (d : list (string * V)) k : k ∈ d.*1 -> is_Some (od_get d k).
Proof.
  induction d as [|[k' v] d IH]; cbn; [by intros ?%elem_of_nil |].
  intros [->|Hin]%elem_of_cons.
  - rewrite decide_True by done. by eexists.
  - destruct (decide (k' = k)); [by eexists | by apply IH].
Qed.

Lemma od_get_elem {V} (d : list (string * V)) k v : od_get d k = Some v -> (k, v) ∈ d.
Proof.
  induction d as [|[k' v'] d IH]; cbn; [done |].
  destruct (decide (k' = k)) as [->|].
  - intros [= ->]. apply list_elem_of_here.
  - intros H. by apply list_elem_of_further, IH.
Qed.

Lemma mapM_fst {A B} (f : string * A -> result (string * B)) l bs :
  (forall a b, f a = Ok b -> b.1 = a.1) ->
  mapM f l = Ok bs -> bs.*1 = l.*1.
Proof.
  intros Hf H. apply mapM_inv in H.
  induction H as [|a b l bs Hab _ IH]; cbn; [done |].
  by rewrite IH, (Hf a b Hab).
Qed.

Lemma preprocess_appliances_names store submeters_lst apps :
  preprocess_appliances store submeters_lst = Ok apps -> apps.*1 = submeters_lst.*1.
Proof.
  revert apps. induction submeters_lst as [|[k dfs] rest IH]; intros apps; cbn.
  - by intros [= <-].
  - destruct (store !! k); [| done].
    destruct (preprocess_appliances store rest) as [tl|]; [| done]. cbn.
    intros [= <-]. cbn. by rewrite (IH tl).
Qed.

(** The loop over the appliances runs over the names of the call. *)
Lemma training_arrays_names (s : RNN) train_main train_appliances do_preprocessing
    windows targets :
  training_arrays s train_main train_appliances do_preprocessing = Ok (windows, targets) ->
  targets.*1 = train_appliances.*1.
Proof.
  unfold training_arrays.
  destruct (if do_preprocessing then _ else _) as [[tm ta]|e] eqn:Epre; [| done]. cbn.
  destruct (pd_concat tm) as [tm'|]; [| done]. cbn.
  destruct (reshape_windows _ _) as [ws|]; [| done]. cbn.
  destruct (mapM _ ta) as [new|] eqn:Enew; [| done]. cbn. intros [= _ <-].
  apply mapM_fst in Enew.
  2: { intros [name dfs] b. destruct (pd_concat dfs); [| done]. cbn. by intros [= <-]. }
  rewrite Enew. destruct do_preprocessing; [| by injection Epre as _ <-].
  unfold call_preprocessing_train in Epre.
  destruct (mapM _ train_main); [| done]. cbn in Epre.
  destruct (preprocess_appliances _ _) as [apps|] eqn:Ea; [| done].
  injection Epre as _ <-. by eapply preprocess_appliances_names.
Qed.

Section Isolation.
Context `{RT : Runtime}.

Lemma alloc_fresh (h : gmap loc tensor) named :
  NoDup (alloc h named).1.*2
  /\ (forall l, l ∈ (alloc h named).1.*2 ->
        h !! l = None /\ is_Some ((alloc h named).2 !! l))
  /\ h ⊆ (alloc h named).2.
Proof.
  revert h. induction named as [|[k v] rest IH]; intros h; cbn.
  - split; [constructor |]. split; [| done]. by intros l ?%elem_of_nil.
  - specialize (IH (<[fresh (dom h) := v]> h)).
    destruct (alloc _ rest) as [m h']. cbn in *.
    destruct IH as (Hnd & Hfresh & Hsub).
    assert (h !! fresh (dom h) = None) as Hnone by apply not_elem_of_dom, is_fresh.
    split; [| split].
    + apply NoDup_cons. split; [| done]. intros Hin.
      destruct (Hfresh _ Hin) as [Hl _]. by rewrite lookup_insert_eq in Hl.
    + intros l [->|Hin]%elem_of_cons.
      * split; [done |]. exists v. eapply lookup_weaken; [| exact Hsub].
        apply lookup_insert_eq.
      * destruct (Hfresh _ Hin) as [Hl Hsome]. split; [| done].
        destruct (decide (fresh (dom h) = l)) as [<-|Hne]; [done |].
        by rewrite lookup_insert_ne in Hl.
    + etrans; [| exact Hsub]. by apply insert_subseteq.
Qed.

Lemma registry_locs_app ms1 ms2 :
  registry_locs (ms1 ++ ms2) = registry_locs ms1 ++ registry_locs ms2.
Proof. unfold registry_locs. by rewrite fmap_app, concat_app. Qed.

Lemma od_get_locs (ms : list (string * module)) k m l :
  od_get ms k = Some m -> l ∈ m.*2 -> l ∈ registry_locs ms.
Proof.
  intros Hget Hl. apply od_get_elem in Hget. unfold registry_locs.
  induction ms as [|item ms IH]; [by apply elem_of_nil in Hget |].
  cbn. apply elem_of_app.
  apply elem_of_cons in Hget as [<-|Hget]; [by left | right; by apply IH].
Qed.

Lemma registry_disjoint (ms : list (string * module)) k1 k2 m1 m2 l :
  NoDup (registry_locs ms) -> k1 <> k2 ->
  od_get ms k1 = Some m1 -> od_get ms k2 = Some m2 ->
  l ∈ m1.*2 -> l ∉ m2.*2.
Proof.
  intros Hnd Hne. induction ms as [|[k m] ms IH]; cbn; [done |].
  change (registry_locs ((k, m) :: ms)) with (m.*2 ++ registry_locs ms) in Hnd.
  apply NoDup_app in Hnd as (_ & Hdisj & Hnd).
  destruct (decide (k = k1)) as [E1|N1]; destruct (decide (k = k2)) as [E2|N2].
  - congruence.
  - intros [= ->] H2 Hl1 Hl2. apply (Hdisj _ Hl1). by eapply od_get_locs.
  - intros H1 [= ->] Hl1 Hl2. apply (Hdisj _ Hl2). by eapply od_get_locs.
  - by apply IH.
Qed.

Lemma write_params_is_Some (h : gmap loc tensor) (m : module) vals l :
  is_Some (h !! l) -> is_Some (write_params h m vals !! l).
Proof.
  unfold write_params. revert h. induction vals as [|[k v] vals IH]; intros h Hl; cbn;
    [done |].
  apply IH. destruct (od_get m k) as [l'|]; [| done].
  rewrite lookup_insert_is_Some. destruct (decide (l' = l)); auto.
Qed.

Lemma epoch_is_Some model train val appliance_name current_epoch st l :
  is_Some (heap st.2 !! l) ->
  is_Some (heap (epoch model train val appliance_name current_epoch st).2 !! l).
Proof.
  intros Hl. destruct st as [b w]. unfold epoch.
  destruct (train_epoch _ _ _ _ _) as [[vals opt'] r'].
  destruct train as [|? ?]; [by apply write_params_is_Some |].
  destruct val as [|? ?]; [by apply write_params_is_Some |].
  destruct (F64.ltb _ _); [destruct (writable _) |]; cbn;
    by apply write_params_is_Some.
Qed.

Lemma epoch_loop_is_Some k model train val appliance_name current_epoch st l :
  is_Some (heap st.2 !! l) ->
  is_Some (heap (epoch_loop k model train val appliance_name current_epoch st).2 !! l).
Proof.
  revert st. induction k as [|k IH]; intros st Hl; cbn; [done |].
  pose proof (epoch_is_Some model train val appliance_name current_epoch st l Hl)
    as Hstep.
  destruct (epoch _ _ _ _ _ st) as [[b1|e1] w1]; cbn [snd] in *; [| done].
  by apply IH.
Qed.

(** An epoch does not enter [train_model]. *)
Lemma epoch_trained model train val appliance_name current_epoch st :
  trained (log (epoch model train val appliance_name current_epoch st).2)
  = trained (log st.2).
Proof.
  destruct st as [b w]. unfold epoch.
  destruct (train_epoch _ _ _ _ _) as [[vals opt'] r'].
  destruct train as [|? ?]; [done |]. destruct val as [|? ?]; [done |].
  destruct (F64.ltb _ _); [destruct (writable _) |]; cbn; try done.
  unfold trained. rewrite omap_app. cbn. by rewrite app_nil_r.
Qed.

Lemma epoch_loop_trained k model train val appliance_name current_epoch st :
  trained (log (epoch_loop k model train val appliance_name current_epoch st).2)
  = trained (log st.2).
Proof.
  revert st. induction k as [|k IH]; intros st; cbn; [done |].
  pose proof (epoch_trained model train val appliance_name current_epoch st) as Hstep.
  destruct (epoch _ _ _ _ _ st) as [[b1|e1] w1]; cbn [snd] in *; [| done].
  by rewrite IH.
Qed.

(** On loaders that are not empty, and when the checkpoint can be written,
    the epochs raise nothing. *)
Lemma epoch_returns model train val appliance_name current_epoch st :
  train <> [] -> val <> [] ->
  writable (checkpoint_path (self st.2) appliance_name current_epoch) = true ->
  exists b', (epoch model train val appliance_name current_epoch st).1 = Ok b'.
Proof.
  intros Htrain Hval Hw. destruct st as [b w]. unfold epoch.
  destruct (train_epoch _ _ _ _ _) as [[vals opt'] r'].
  destruct train as [|? ?]; [done |]. destruct val as [|? ?]; [done |].
  cbn [self set_rng set_heap snd] in *.
  destruct (F64.ltb _ _); [rewrite Hw |]; cbn; eauto.
Qed.

Lemma epoch_loop_returns k model train val appliance_name current_epoch st :
  train <> [] -> val <> [] ->
  writable (checkpoint_path (self st.2) appliance_name current_epoch) = true ->
  exists b', (epoch_loop k model train val appliance_name current_epoch st).1 = Ok b'.
Proof.
  intros Htrain Hval. revert st. induction k as [|k IH]; intros st Hw; cbn; [eauto |].
  destruct (epoch_returns model train val appliance_name current_epoch st Htrain Hval Hw)
    as [b1 Hb1].
  pose proof (proj1 (epoch_self model train val appliance_name current_epoch st))
    as Hself.
  destruct (epoch _ _ _ _ _ st) as [r w1]. cbn [fst snd] in *. subst r.
  apply IH. cbn [snd]. by rewrite Hself.
Qed.

Lemma load_state_dict_is_Some (h h' : gmap loc tensor) (m : module) sd l :
  load_state_dict h m sd = Ok h' -> is_Some (h !! l) -> is_Some (h' !! l).
Proof.
  unfold load_state_dict. destruct (bool_decide _); [| done]. intros [= <-].
  revert h. induction m as [|[k dst] m IH]; intros h Hl; cbn; [done |].
  apply IH. destruct (od_get sd k) as [src|]; [| done].
  unfold copy_. destruct (h !! src); [| done].
  rewrite lookup_insert_is_Some. destruct (decide (dst = l)); auto.
Qed.

(** The reload cannot fail on the dictionary the loop keeps. *)
Lemma load_state_dict_total (h : gmap loc tensor) (m : module) :
  exists h', load_state_dict h m (dict_copy (state_dict m)) = Ok h'.
Proof.
  unfold load_state_dict, dict_copy, state_dict.
  rewrite bool_decide_eq_true_2; [eauto |].
  assert (Forall (fun k => is_Some (od_get m k)) m.*1) as Hall.
  { apply Forall_forall. intros k Hk. by apply od_get_is_Some. }
  by split.
Qed.

(** What [train_model] does to the heap and the log, for any network and
    whatever its outcome. *)
Lemma train_model_effect model train val appliance_name current_epoch (w : world) :
  let r := train_model model train val appliance_name current_epoch w in
  self r.2 = self w
  /\ (forall l, l ∉ model.*2 -> heap r.2 !! l = heap w !! l)
  /\ (forall l, is_Some (heap w !! l) -> is_Some (heap r.2 !! l))
  /\ trained (log r.2) = trained (log w) ++ [appliance_name].
Proof.
  cbv zeta. unfold train_model.
  set (w0 := emit w [EvTrainModel appliance_name]).
  set (st0 := (Best F64.inf None (adam (deref (heap w0) model)), w0)).
  pose proof (proj1 (epoch_loop_self (Z.to_nat (n_epochs (self w0))) model train val
                       appliance_name current_epoch st0)) as Hself.
  pose proof (fun l => epoch_loop_heap_other (Z.to_nat (n_epochs (self w0))) model train
                         val appliance_name current_epoch st0 l) as Hother.
  pose proof (fun l => epoch_loop_is_Some (Z.to_nat (n_epochs (self w0))) model train
                         val appliance_name current_epoch st0 l) as Hsome.
  pose proof (epoch_loop_trained (Z.to_nat (n_epochs (self w0))) model train val
                appliance_name current_epoch st0) as Hlog.
  assert (trained (log st0.2) = trained (log w) ++ [appliance_name]) as H0.
  { cbn. unfold trained. by rewrite omap_app. }
  rewrite H0 in Hlog.
  pose proof (fun b w1 => epoch_loop_best_state (Z.to_nat (n_epochs (self w0))) model
                            train val appliance_name current_epoch st0 b w1
                            (or_introl eq_refl)) as Hbest.
  destruct (epoch_loop _ _ _ _ _ _ _) as [[b|e1] w1];
    cbn [fst snd] in Hself, Hother, Hsome, Hlog; [| by repeat split].
  destruct (Hbest b w1 eq_refl) as [-> | ->].
  - by repeat split.
  - destruct (load_state_dict_total (heap w1) model) as [h' Hload]. rewrite Hload.
    cbn. repeat split; try done.
    + intros l Hl. rewrite (load_state_dict_other _ _ _ _ _ Hload Hl). by apply Hother.
    + intros l Hl. eapply load_state_dict_is_Some; [exact Hload |]. by apply Hsome.
    + unfold trained in *. rewrite omap_app, Hlog. cbn. by rewrite app_nil_r.
Qed.

(** On loaders that are not empty, and when the checkpoint can be written,
    [train_model] returns normally. *)
Lemma train_model_returns model train val appliance_name current_epoch (w : world) :
  train <> [] -> val <> [] ->
  writable (checkpoint_path (self w) appliance_name current_epoch) = true ->
  (train_model model train val appliance_name current_epoch w).1 = Ok ().
Proof.
  intros Htrain Hval Hw. unfold train_model.
  set (w0 := emit w [EvTrainModel appliance_name]).
  set (st0 := (Best F64.inf None (adam (deref (heap w0) model)), w0)).
  destruct (epoch_loop_returns (Z.to_nat (n_epochs (self w0))) model train val
              appliance_name current_epoch st0 Htrain Hval Hw) as [b Hb].
  pose proof (fun b w1 => epoch_loop_best_state (Z.to_nat (n_epochs (self w0))) model
                            train val appliance_name current_epoch st0 b w1
                            (or_introl eq_refl)) as Hbest.
  destruct (epoch_loop _ _ _ _ _ _ _) as [r w1]. cbn [fst] in Hb. subst r.
  destruct (Hbest b w1 eq_refl) as [-> | ->]; [done |].
  destruct (load_state_dict_total (heap w1) model) as [h' ->]. done.
Qed.
End Isolation.

Lemma od_get_None_not_in {V} (d : list (string * V)) k : od_get d k = None -> k ∉ d.*1.
Proof. intros Hnone Hin. apply od_get_is_Some in Hin as [v Hv]. congruence. Qed.

Section IsolationOfNetworks.
Context `{RT : Runtime}.

Lemma deref_ext (h h' : gmap loc tensor) (m : module) :
  (forall l, l ∈ m.*2 -> h' !! l = h !! l) -> deref h' m = deref h m.
Proof.
  unfold deref. induction m as [|[k l] m IH]; intros Hext; cbn; [done |].
  rewrite (Hext l) by apply list_elem_of_here.
  rewrite IH; [done |]. intros l' Hl'. apply Hext. by apply list_elem_of_further.
Qed.

(** The first half of the loop's body keeps the registry well formed and
    every tensor that was on the heap. *)
Lemma ensure_network (w : world) appliance_name :
  registry_wf w ->
  let w2 :=
    if od_mem (models (self w)) appliance_name then w
    else
      let '(m, w') := return_network (emit w [EvNewNetwork appliance_name]) in
      set_self w' (set_models (self w') (od_set (models (self w')) appliance_name m)) in
  registry_wf w2
  /\ is_Some (od_get (models (self w2)) appliance_name)
  /\ registry_grows (models (self w)) (models (self w2))
  /\ (forall l, is_Some (heap w !! l) -> heap w2 !! l = heap w !! l)
  /\ sequence_length (self w2) = sequence_length (self w)
  /\ batch_size (self w2) = batch_size (self w)
  /\ trained (log w2) = trained (log w).
Proof.
  intros [Hnd Halloc]. cbv zeta. destruct (od_mem _ _) eqn:Hmem.
  - apply od_mem_true in Hmem. repeat split; try done. apply registry_grows_refl.
  - apply od_mem_false in Hmem. unfold return_network. cbn [self emit rng_state heap].
    destruct (new_network _ _) as [named r].
    pose proof (alloc_fresh (heap w) named) as (Hnd' & Hfresh & Hsub).
    destruct (alloc (heap w) named) as [m h]. cbn in Hnd', Hfresh, Hsub.
    unfold registry_wf.
    cbn [self set_self set_rng set_heap set_models models heap log emit
         sequence_length batch_size].
    rewrite od_set_fresh by (by apply od_get_None_not_in).
    split; [split |].
    + rewrite registry_locs_app. unfold registry_locs at 2. cbn. rewrite app_nil_r.
      apply NoDup_app. split; [done |]. split; [| done].
      intros l Hl Hin. destruct (Halloc l Hl) as [v Hv].
      destruct (Hfresh l Hin) as [Hnone _]. congruence.
    + intros l. rewrite registry_locs_app. unfold registry_locs at 2. cbn.
      rewrite app_nil_r. intros [Hl|Hl]%elem_of_app.
      * destruct (Halloc l Hl) as [v Hv]. exists v. by eapply lookup_weaken.
      * by apply Hfresh.
    + repeat split.
      * rewrite <- (od_set_fresh _ _ m) by (by apply od_get_None_not_in).
        rewrite od_get_set_eq. by eexists.
      * intros name m' Hget.
        rewrite <- (od_set_fresh _ _ m) by (by apply od_get_None_not_in).
        rewrite od_get_set_ne; [done |]. intros <-. congruence.
      * intros l [v Hv]. rewrite Hv. by eapply lookup_weaken.
      * unfold trained. rewrite omap_app. cbn. by rewrite app_nil_r.
Qed.

Lemma fit_appliance_isolated train_main current_epoch appliance_name power (w : world) :
  registry_wf w ->
  let r := fit_appliance train_main current_epoch (appliance_name, power) w in
  registry_wf r.2
  /\ forall name m, name <> appliance_name ->
       od_get (models (self w)) name = Some m ->
       od_get (models (self r.2)) name = Some m
       /\ forall l, l ∈ m.*2 -> heap r.2 !! l = heap w !! l.
Proof.
  intros Hwf. cbv zeta. unfold fit_appliance.
  pose proof (ensure_network w appliance_name Hwf) as Hens. cbv zeta in Hens.
  set (w2 := if od_mem (models (self w)) appliance_name then w else _) in *.
  destruct Hens as (Hwf2 & [model Hmodel] & Hgrow & Hheap & _). clearbody w2.
  rewrite Hmodel.
  assert (forall (r : result ()) (w3 : world),
            self w3 = self w2 ->
            (forall l, l ∉ model.*2 -> heap w3 !! l = heap w2 !! l) ->
            (forall l, is_Some (heap w2 !! l) -> is_Some (heap w3 !! l)) ->
            registry_wf (r, w3).2
            /\ forall name m, name <> appliance_name ->
                 od_get (models (self w)) name = Some m ->
                 od_get (models (self (r, w3).2)) name = Some m
                 /\ forall l, l ∈ m.*2 -> heap (r, w3).2 !! l = heap w !! l) as Hdone.
  { intros r w3 Hself Hother Hsome. cbn [snd]. destruct Hwf as [_ Halloc].
    destruct Hwf2 as [Hnd2 Halloc2]. split.
    - split; rewrite Hself; [done |]. intros l Hl. by apply Hsome, Halloc2.
    - intros name m Hne Hget. rewrite Hself. split; [by apply Hgrow |].
      intros l Hl. rewrite Hother.
      + apply Hheap, Halloc. by eapply od_get_locs.
      + eapply (registry_disjoint (models (self w2)) name appliance_name); eauto. }
  destruct (0 <? _); [| by apply Hdone].
  destruct (10 <? _); [| by apply Hdone].
  destruct (bool_decide _); [| by apply Hdone].
  destruct (train_test_split _) as [train val].
  destruct (_ <=? 0); [by apply Hdone |].
  set (w3 := emit (emit w2 _) _).
  destruct (train_model_effect model train val appliance_name current_epoch w3)
    as (Hself & Hother & Hsome & _).
  rewrite (surjective_pairing (train_model _ _ _ _ _ w3)).
  by apply Hdone.
Qed.

Lemma fit_appliances_isolated train_main current_epoch train_appliances (w : world)
    name m :
  registry_wf w ->
  name ∉ train_appliances.*1 ->
  od_get (models (self w)) name = Some m ->
  let r := fit_appliances train_main current_epoch train_appliances w in
  registry_wf r.2
  /\ od_get (models (self r.2)) name = Some m
  /\ forall l, l ∈ m.*2 -> heap r.2 !! l = heap w !! l.
Proof.
  revert w. induction train_appliances as [|[a power] rest IH]; intros w Hwf Hnot Hget;
    cbn [fit_appliances].
  - by cbn.
  - cbn in Hnot. apply not_elem_of_cons in Hnot as [Hne Hnot].
    pose proof (fit_appliance_isolated train_main current_epoch a power w Hwf) as Ha.
    cbv zeta in Ha. destruct Ha as [Hwf1 Hkeep].
    destruct (Hkeep name m Hne Hget) as [Hget1 Hheap1].
    destruct (fit_appliance _ _ (a, power) w) as [[[]|e] w1]; cbn [snd] in *.
    + destruct (IH w1 Hwf1 Hnot Hget1) as (Hwf2 & Hget2 & Hheap2).
      split; [done |]. split; [done |]. intros l Hl.
      by rewrite Hheap2, Hheap1.
    + by cbn.
Qed.

(** Well-formed registries stay so over a training call, and a network whose
    appliance is not among those of the call is left with the parameters it
    had, whatever the outcome. *)
Theorem partial_fit_isolated train_main train_appliances (do_preprocessing : bool)
    current_epoch (w : world) name m :
  registry_wf w ->
  od_get (models (self w)) name = Some m ->
  name ∉ train_appliances.*1 ->
  let w' := (partial_fit train_main train_appliances do_preprocessing current_epoch w).2 in
  registry_wf w'
  /\ od_get (models (self w')) name = Some m
  /\ deref (heap w') m = deref (heap w) m.
Proof.
  intros Hwf Hget Hnot. cbv zeta. unfold partial_fit.
  assert (forall w1 : world, heap w1 = heap w -> models (self w1) = models (self w) ->
            registry_wf w1) as Hsame.
  { intros w1 Hh Hm. destruct Hwf as [Hnd Halloc]. split; rewrite Hm, ?Hh; done. }
  assert (heap (ensure_params train_appliances w).2 = heap w
          /\ models (self (ensure_params train_appliances w).2) = models (self w))
    as [Hh Hm].
  { unfold ensure_params. destruct (bool_decide _); [| done].
    by destruct (set_appliance_params _ _). }
  destruct (ensure_params train_appliances w) as [[[]|e] w1]; cbn [snd] in Hh, Hm.
  2: { cbn. rewrite Hh, Hm. split; [by apply Hsame |]. done. }
  destruct (training_arrays _ _ _ _) as [[windows targets]|e] eqn:Harr.
  2: { cbn. rewrite Hh, Hm. split; [by apply Hsame |]. done. }
  apply training_arrays_names in Harr.
  destruct (fit_appliances_isolated windows current_epoch targets w1 name m)
    as (Hwf' & Hget' & Hheap'); [by apply Hsame | by rewrite Harr | by rewrite Hm |].
  split; [done |]. split; [done |].
  apply deref_ext. intros l Hl. by rewrite Hheap', Hh.
Qed.

Lemma fit_appliance_trains windows current_epoch appliance_name power (w1 : world) :
  registry_wf w1 ->
  0 < sequence_length (self w1) -> 0 < batch_size (self w1) ->
  (10 < length windows)%nat -> length power = length windows ->
  split_leaves_both ->
  writable (checkpoint_path (self w1) appliance_name current_epoch) = true ->
  let r := fit_appliance windows current_epoch (appliance_name, power) w1 in
  r.1 = Ok ()
  /\ registry_wf r.2
  /\ trained (log r.2) = trained (log w1) ++ [appliance_name]
  /\ is_Some (od_get (models (self r.2)) appliance_name).
Proof.
  intros Hwf Hn Hbs Hlen Hpower Hsplit Hw. cbv zeta. unfold fit_appliance.
  pose proof (ensure_network w1 appliance_name Hwf) as Hens. cbv zeta in Hens.
  assert (file_prefix
            (self (if od_mem (models (self w1)) appliance_name then w1
                   else let '(m, w') :=
                          return_network (emit w1 [EvNewNetwork appliance_name]) in
                        set_self w' (set_models (self w')
                                       (od_set (models (self w')) appliance_name m))))
          = file_prefix (self w1)) as Hprefix.
  { destruct (od_mem _ _); [done |]. unfold return_network.
    destruct (new_network _ _) as [named r]. by destruct (alloc _ _). }
  set (w2 := if od_mem (models (self w1)) appliance_name then w1 else _) in *.
  destruct Hens as (Hwf2 & [model Hmodel] & Hgrow & Hheap & Hn2 & Hbs2 & Hlog2).
  clearbody w2. rewrite Hmodel, Hn2.
  destruct (Z.ltb_spec 0 (Z.of_nat (length windows) * sequence_length (self w1)));
    [| nia].
  destruct (Z.ltb_spec 10 (Z.of_nat (length windows))); [| lia].
  rewrite bool_decide_eq_true_2 by done.
  destruct (Hsplit (zip windows power)) as [Htrain Hval].
  { rewrite length_zip. lia. }
  destruct (train_test_split _) as [train val]. cbn [fst snd] in Htrain, Hval.
  cbn [self emit]. rewrite Hbs2.
  destruct (Z.leb_spec (batch_size (self w1)) 0); [lia |].
  set (w3 := emit (emit w2 _) _).
  destruct (train_model_effect model train val appliance_name current_epoch w3)
    as (Hself & Hother & Hsome & Hlog).
  split.
  { apply train_model_returns; [done | done |].
    unfold checkpoint_path in *. unfold w3. cbn [self emit]. by rewrite Hprefix. }
  rewrite Hself. cbn [self emit].
  split; [| split].
  - destruct Hwf2 as [Hnd2 Halloc2]. split; rewrite Hself; [done |].
    intros l Hl. by apply Hsome, Halloc2.
  - rewrite Hlog. unfold w3. cbn [log emit]. unfold trained.
    rewrite !omap_app. cbn. rewrite !app_nil_r. fold (trained (log w2)).
    by rewrite Hlog2.
  - unfold w3. cbn [self emit]. rewrite Hmodel. by eexists.
Qed.

Lemma checkpoint_path_configuration (s s' : RNN) name current_epoch :
  same_configuration s s' ->
  checkpoint_path s' name current_epoch = checkpoint_path s name current_epoch.
Proof. intros (_ & Hprefix & _). unfold checkpoint_path. by rewrite Hprefix. Qed.

(** The loop over appliances that all have as many targets as there are
    windows. *)
Lemma fit_appliances_train windows current_epoch targets (w1 : world) :
  registry_wf w1 ->
  0 < sequence_length (self w1) -> 0 < batch_size (self w1) ->
  (10 < length windows)%nat ->
  Forall (fun t : string * list float64 => length t.2 = length windows) targets ->
  split_leaves_both ->
  checkpoints_writable (self w1) targets.*1 current_epoch ->
  let r := fit_appliances windows current_epoch targets w1 in
  r.1 = Ok ()
  /\ registry_wf r.2
  /\ same_configuration (self w1) (self r.2)
  /\ registry_grows (models (self w1)) (models (self r.2))
  /\ trained (log r.2) = trained (log w1) ++ targets.*1
  /\ forall name, name ∈ targets.*1 -> is_Some (od_get (models (self r.2)) name).
Proof.
  intros Hwf Hn Hbs Hlen Hall Hsplit. cbv zeta. revert w1 Hwf Hn Hbs.
  induction Hall as [|[name power] rest Hpower _ IH]; intros w1 Hwf Hn Hbs Hw;
    cbn [fit_appliances].
  - cbn. split; [done |]. split; [done |]. split; [apply same_configuration_refl |].
    split; [apply registry_grows_refl |]. split; [by rewrite app_nil_r |].
    intros name Hin. by apply elem_of_nil in Hin.
  - cbn in Hpower.
    pose proof (fit_appliance_trains windows current_epoch name power w1 Hwf Hn Hbs
                  Hlen Hpower Hsplit) as Hfit.
    cbv zeta in Hfit.
    pose proof (fit_appliance_keeps windows current_epoch (name, power) w1)
      as (Hc4 & Hg4 & _).
    destruct (fit_appliance _ _ (name, power) w1) as [r w4]. cbn [fst snd] in *.
    destruct Hfit as (-> & Hwf4 & Hlog4 & [model Hget4]).
    { apply Hw. cbn. apply list_elem_of_here. }
    pose proof Hc4 as (_ & _ & _ & Hn4 & _ & Hbs4 & _).
    destruct (IH w4) as (Hrun & Hwf' & Hc' & Hg' & Hlog' & Hreg').
    + done.
    + lia.
    + lia.
    + intros name' Hin. rewrite (checkpoint_path_configuration _ _ _ _ Hc4).
      apply Hw. cbn. by apply list_elem_of_further.
    + split; [done |]. split; [done |].
      split; [by eapply same_configuration_trans |].
      split; [by eapply registry_grows_trans |]. split.
      * rewrite Hlog', Hlog4. cbn. by rewrite <- app_assoc.
      * intros name' [->|Hin]%elem_of_cons; [| by apply Hreg'].
        exists model. by apply Hg'.
Qed.

(** With more than ten windows, a positive batch size, as many targets as
    windows for every appliance, a split that leaves samples on both sides
    and checkpoints that can be written, the call returns normally and every
    appliance of the call has been trained once, in the order given. *)
Theorem partial_fit_trains_all train_main train_appliances (do_preprocessing : bool)
    current_epoch (w w1 : world) windows targets :
  ensure_params train_appliances w = (Ok (), w1) ->
  training_arrays (self w1) train_main train_appliances do_preprocessing
  = Ok (windows, targets) ->
  registry_wf w1 ->
  0 < sequence_length (self w1) -> 0 < batch_size (self w1) ->
  (10 < length windows)%nat ->
  Forall (fun t : string * list float64 => length t.2 = length windows) targets ->
  split_leaves_both ->
  checkpoints_writable (self w1) train_appliances.*1 current_epoch ->
  exists w',
    partial_fit train_main train_appliances do_preprocessing current_epoch w = (Ok (), w')
    /\ trained (log w') = trained (log w1) ++ train_appliances.*1
    /\ forall name, name ∈ train_appliances.*1 ->
                    is_Some (od_get (models (self w')) name).
Proof.
  intros Hens Harr Hwf Hn Hbs Hlen Hall Hsplit Hw. unfold partial_fit.
  rewrite Hens, Harr.
  rewrite <- (training_arrays_names _ _ _ _ _ _ Harr) in Hw |- *.
  destruct (fit_appliances_train windows current_epoch targets w1 Hwf Hn Hbs Hlen Hall
              Hsplit Hw) as (Hok & _ & _ & _ & Hlog & Hreg).
  exists (fit_appliances windows current_epoch targets w1).2.
  split; [by apply outcome_and_state |]. by split.
Qed.

(** *** Windows and targets that do not match *)

Lemma train_model_disk_other model train val appliance_name current_epoch (w : world)
    filepath :
  filepath <> checkpoint_path (self w) appliance_name current_epoch ->
  disk (train_model model train val appliance_name current_epoch w).2 !! filepath
  = disk w !! filepath.
Proof.
  intros Hne. unfold train_model.
  pose proof (epoch_loop_checkpointed
                (Z.to_nat (n_epochs (self (emit w [EvTrainModel appliance_name]))))
                w model train val appliance_name current_epoch
                (Best F64.inf None
                   (adam (deref (heap (emit w [EvTrainModel appliance_name])) model)),
                 emit w [EvTrainModel appliance_name]) eq_refl (or_introl eq_refl))
    as Hloop.
  assert (forall w1 : world,
            checkpointed w appliance_name current_epoch val w1 ->
            disk w1 !! filepath = disk w !! filepath) as Hdisk.
  { intros w1 [-> | (vals & -> & _)]; [done |]. by rewrite lookup_insert_ne. }
  destruct (epoch_loop _ _ _ _ _ _ _) as [[b|e1] w1]; cbn [snd] in Hloop;
    [| by apply Hdisk].
  destruct (best_model_state b) as [sd|]; [| by apply Hdisk].
  destruct (load_state_dict _ _ _); cbn; by apply Hdisk.
Qed.

Lemma fit_appliance_disk_other windows current_epoch appliance_name power (w : world)
    filepath :
  filepath <> checkpoint_path (self w) appliance_name current_epoch ->
  disk (fit_appliance windows current_epoch (appliance_name, power) w).2 !! filepath
  = disk w !! filepath.
Proof.
  intros Hne. unfold fit_appliance.
  set (w2 := if od_mem (models (self w)) appliance_name then w else _).
  assert (disk w2 = disk w /\ file_prefix (self w2) = file_prefix (self w))
    as [Hdisk Hprefix].
  { subst w2. destruct (od_mem _ _); [done |]. unfold return_network.
    destruct (new_network _ _) as [named r]. by destruct (alloc _ _). }
  clearbody w2. rewrite <- Hdisk.
  destruct (od_get _ _) as [model|]; [| done].
  destruct (0 <? _); [| done]. destruct (10 <? _); [| done].
  destruct (bool_decide _); [| done].
  destruct (train_test_split _) as [train val].
  destruct (_ <=? 0); [done |].
  rewrite train_model_disk_other; [done |].
  unfold checkpoint_path in *. cbn [self emit]. by rewrite Hprefix.
Qed.

Lemma fit_appliances_disk_other windows current_epoch targets (w : world) filepath :
  (forall name, name ∈ targets.*1 ->
     filepath <> checkpoint_path (self w) name current_epoch) ->
  disk (fit_appliances windows current_epoch targets w).2 !! filepath
  = disk w !! filepath.
Proof.
  revert w. induction targets as [|[name power] rest IH]; intros w Hne;
    cbn [fit_appliances]; [done |].
  pose proof (fit_appliance_disk_other windows current_epoch name power w filepath)
    as Hstep.
  pose proof (fit_appliance_keeps windows current_epoch (name, power) w)
    as (Hc & _).
  destruct (fit_appliance _ _ (name, power) w) as [[[]|e] w1]; cbn [snd] in *.
  - rewrite IH.
    + apply Hstep, Hne. cbn. apply list_elem_of_here.
    + intros name' Hin. rewrite (checkpoint_path_configuration _ _ _ _ Hc).
      apply Hne. cbn. by apply list_elem_of_further.
  - apply Hstep, Hne. cbn. apply list_elem_of_here.
Qed.

(** The appliance whose targets do not match the windows: its network is
    looked up or created, two tensors are built, and the split refuses. *)
Lemma fit_appliance_mismatch windows current_epoch appliance_name power (w : world) :
  0 < sequence_length (self w) ->
  (10 < length windows)%nat -> length windows <> length power ->
  let r := fit_appliance windows current_epoch (appliance_name, power) w in
  r.1 = Raise ValueError
  /\ trained (log r.2) = trained (log w)
  /\ is_Some (od_get (models (self r.2)) appliance_name)
  /\ disk r.2 = disk w.
Proof.
  intros Hn Hlen Hne. cbv zeta. unfold fit_appliance.
  set (w2 := if od_mem (models (self w)) appliance_name then w else _).
  assert (is_Some (od_get (models (self w2)) appliance_name)
          /\ sequence_length (self w2) = sequence_length (self w)
          /\ trained (log w2) = trained (log w)
          /\ disk w2 = disk w)
    as ([model Hmodel] & Hn2 & Hlog & Hdisk).
  { subst w2. destruct (od_mem _ _) eqn:Hmem.
    - apply od_mem_true in Hmem. by repeat split.
    - unfold return_network. cbn [self emit rng_state heap].
      destruct (new_network _ _) as [named r].
      destruct (alloc (heap w) named) as [m h]. cbn.
      rewrite od_get_set_eq. repeat split; try done.
      unfold trained. rewrite omap_app. cbn. by rewrite app_nil_r. }
  clearbody w2. rewrite Hmodel, Hn2.
  destruct (Z.ltb_spec 0 (Z.of_nat (length windows) * sequence_length (self w))); [| nia].
  destruct (Z.ltb_spec 10 (Z.of_nat (length windows))); [| lia].
  rewrite bool_decide_eq_false_2 by done.
  cbn [fst snd self emit log disk]. rewrite Hmodel. repeat split; try done.
  unfold trained in *. rewrite omap_app, Hlog. cbn. by rewrite app_nil_r.
Qed.

(** With more than ten windows, the first appliance whose number of
    targets is not the number of windows stops the call with [ValueError].
    The appliances before it have been trained, it and the appliances after
    it have not; its network is in the registry all the same; and no file
    has changed but the checkpoints of the appliances before it. *)
Theorem partial_fit_inconsistent_lengths train_main train_appliances
    (do_preprocessing : bool) current_epoch (w w1 : world) windows before
    appliance_name power rest :
  ensure_params train_appliances w = (Ok (), w1) ->
  training_arrays (self w1) train_main train_appliances do_preprocessing
  = Ok (windows, before ++ (appliance_name, power) :: rest) ->
  registry_wf w1 ->
  0 < sequence_length (self w1) -> 0 < batch_size (self w1) ->
  (10 < length windows)%nat ->
  Forall (fun t : string * list float64 => length t.2 = length windows) before ->
  length windows <> length power ->
  split_leaves_both ->
  checkpoints_writable (self w1) before.*1 current_epoch ->
  exists w',
    partial_fit train_main train_appliances do_preprocessing current_epoch w
    = (Raise ValueError, w')
    /\ trained (log w') = trained (log w1) ++ before.*1
    /\ is_Some (od_get (models (self w')) appliance_name)
    /\ forall filepath,
         (forall name, name ∈ before.*1 ->
            filepath <> checkpoint_path (self w1) name current_epoch) ->
         disk w' !! filepath = disk w1 !! filepath.
Proof.
  intros Hens Harr Hwf Hn Hbs Hlen Hall Hne Hsplit Hw. unfold partial_fit.
  rewrite Hens, Harr.
  assert (forall (ta tb : list (string * list float64)) (w0 : world),
            fit_appliances windows current_epoch (ta ++ tb) w0
            = match fit_appliances windows current_epoch ta w0 with
              | (Ok _, w2) => fit_appliances windows current_epoch tb w2
              | (Raise e, w2) => (Raise e, w2)
              end) as Happ.
  { induction ta as [|a ta IH]; intros tb w0; cbn [fit_appliances app]; [done |].
    destruct (fit_appliance _ _ a w0) as [[[]|e] w2]; [apply IH | done]. }
  rewrite Happ.
  destruct (fit_appliances_train windows current_epoch before w1 Hwf Hn Hbs Hlen Hall
              Hsplit Hw) as (Hok & _ & Hc & _ & Hlog & _).
  pose proof (fit_appliances_disk_other windows current_epoch before w1) as Hdisk.
  destruct (fit_appliances windows current_epoch before w1) as [r w2].
  cbn [fst snd] in *. subst r. cbn [fit_appliances].
  pose proof Hc as (_ & _ & _ & Hn2 & _).
  destruct (fit_appliance_mismatch windows current_epoch appliance_name power w2)
    as (Hraise & Hlog2 & Hreg & Hdisk2); [lia | done | done |].
  destruct (fit_appliance _ _ (appliance_name, power) w2) as [r w3].
  cbn [fst snd] in *. subst r.
  exists w3. split; [done |]. split; [congruence |]. split; [done |].
  intros filepath Hother. rewrite Hdisk2. by apply Hdisk.
Qed.
End IsolationOfNetworks.

(** The toy split holds out two samples. *)
Lemma toy_split_leaves_both : split_leaves_both (RT := toy).
Proof.
  intros l Hl. destruct l as [|a [|b [|c l]]]; cbn in Hl; try lia.
  split; discriminate.
Qed.

Lemma partial_fit_isolated_witness :
  let w := toy_world fridge_registry fridge_store fridge_heap in
  let w' := (partial_fit (RT := toy) [twelve_windows] [("kettle"%string, [twelve_targets])]
               false 0 w).2 in
  registry_wf w'
  /\ od_get (models (self w')) "fridge" = Some fridge_network
  /\ deref (heap w') fridge_network = deref (heap w) fridge_network.
Proof.
  apply (partial_fit_isolated (RT := toy) [twelve_windows]
           [("kettle"%string, [twelve_targets])] false 0
           (toy_world fridge_registry fridge_store fridge_heap) "fridge" fridge_network).
  - split.
    + vm_compute. repeat constructor. by intros ?%elem_of_nil.
    + intros l Hl. vm_compute in Hl. apply list_elem_of_singleton in Hl as ->.
      vm_compute. eauto.
  - reflexivity.
  - compute_done.
Defined.

Lemma partial_fit_trains_all_witness :
  exists w',
    partial_fit (RT := toy) [twelve_windows] [("kettle"%string, [twelve_targets])]
      false 0 (toy_world [] fridge_store ∅) = (Ok (), w')
    /\ trained (log w') = trained (log (toy_world [] fridge_store ∅)) ++ ["kettle"%string]
    /\ forall name, name ∈ ["kettle"%string] ->
                    is_Some (od_get (models (self w')) name).
Proof.
  apply (partial_fit_trains_all (RT := toy) [twelve_windows]
           [("kettle"%string, [twelve_targets])] false 0
           (toy_world [] fridge_store ∅) (toy_world [] fridge_store ∅)
           twelve_windows [("kettle"%string, F64.of_Z <$> replicate 12 7)]).
  - apply outcome_and_state. vm_compute. reflexivity.
  - vm_compute. reflexivity.
  - split; [constructor | by intros l ?%elem_of_nil].
  - vm_compute. reflexivity.
  - vm_compute. reflexivity.
  - vm_compute. lia.
  - repeat constructor.
  - exact toy_split_leaves_both.
  - intros name ->%list_elem_of_singleton. vm_compute. reflexivity.
Defined.

(** A name with a directory part: the checkpoint cannot be written, and the
    call that meets every other condition raises at the first
    improvement. *)
Lemma partial_fit_checkpoint_not_writable :
  @writable toy "rnn-temp-weights-dir/app-epoch0.pth" = false
  /\ (partial_fit (RT := toy) [twelve_windows] [("dir/app"%string, [twelve_targets])]
        false 0 (toy_world [] fridge_store ∅)).1 = Raise RuntimeError.
Proof. split; vm_compute; reflexivity. Qed.

Lemma partial_fit_inconsistent_lengths_witness :
  exists w',
    partial_fit (RT := toy) [twelve_windows]
      [("kettle"%string, [twelve_targets]); ("fridge"%string, [eleven_targets])]
      false 0 (toy_world [] fridge_store ∅)
    = (Raise ValueError, w')
    /\ trained (log w') = trained (log (toy_world [] fridge_store ∅)) ++ ["kettle"%string]
    /\ is_Some (od_get (models (self w')) "fridge")
    /\ forall filepath,
         (forall name, name ∈ ["kettle"%string] ->
            filepath <> checkpoint_path (self (toy_world [] fridge_store ∅)) name 0) ->
         disk w' !! filepath = disk (toy_world [] fridge_store ∅) !! filepath.
Proof.
  apply (partial_fit_inconsistent_lengths (RT := toy) [twelve_windows]
           [("kettle"%string, [twelve_targets]); ("fridge"%string, [eleven_targets])]
           false 0 (toy_world [] fridge_store ∅) (toy_world [] fridge_store ∅)
           twelve_windows [("kettle"%string, F64.of_Z <$> replicate 12 7)]
           "fridge" (F64.of_Z <$> replicate 11 7) []).
  - apply outcome_and_state. vm_compute. reflexivity.
  - vm_compute. reflexivity.
  - split; [constructor | by intros l ?%elem_of_nil].
  - vm_compute. reflexivity.
  - vm_compute. reflexivity.
  - vm_compute. lia.
  - repeat constructor.
  - vm_compute. lia.
  - exact toy_split_leaves_both.
  - intros name ->%list_elem_of_singleton. vm_compute. reflexivity.
Defined.
